(** * CAAL-1D-FFT: the trace post-processor of [python/_init_.py]

    A shallow embedding of the extraction-and-validation pipeline
    (segmenter, column extractor, hex decoder, complex array builder,
    accuracy analyzer and [main]) together with the properties the
    specification states about them.

    Conventions.
    - A Python [str] is a [string]; the characters are code points below
      256.
    - A Python [int] is a [Z]; a Python [float] is a primitive binary64
      [float] (round to nearest even, one NaN).
    - A call that can raise returns an [outcome]: [Ok v] or [Raise e]. *)

From Stdlib Require Import ZArith List Bool Ascii String Lia Floats.
From Stdlib Require Import Numbers.DecimalString.
Import ListNotations.

Local Open Scope string_scope.
Local Open Scope Z_scope.

(** ** Exceptions and results *)

Inductive exn : Type :=
| ValueError
| StructError          (* struct.error, a direct subclass of Exception *)
| IndexError
| ZeroDivisionError
| FileNotFoundError
| LibraryError (tag : string).  (* raised inside numpy or matplotlib *)

Inductive outcome (A : Type) : Type :=
| Ok (v : A)
| Raise (e : exn).
Arguments Ok {A} v.
Arguments Raise {A} e.

Definition bind {A B} (r : outcome A) (k : A -> outcome B) : outcome B :=
  match r with
  | Ok v => k v
  | Raise e => Raise e
  end.

Notation "x <- r ;; k" := (bind r (fun x => k))
  (at level 61, r at next level, right associativity).

(** ** The builtins of the interpreter the program calls *)

Module Py.

(** [str.isspace] on one character, as [str.strip()] and [str.split()]
    use it: TAB, LF, VT, FF, CR, FS, GS, RS, US, SPACE, NEL and NBSP. *)
Definition is_space (c : ascii) : bool :=
  let n := nat_of_ascii c in
  ((9 <=? n) && (n <=? 13) || (28 <=? n) && (n <=? 32)
   || (n =? 133) || (n =? 160))%nat.

(** [s.lstrip()], [s.rstrip()] and [s.strip()]. *)
Fixpoint lstrip (s : string) : string :=
  match s with
  | EmptyString => EmptyString
  | String c r => if is_space c then lstrip r else s
  end.

Fixpoint rstrip (s : string) : string :=
  match s with
  | EmptyString => EmptyString
  | String c r =>
      match rstrip r with
      | EmptyString => if is_space c then EmptyString else String c EmptyString
      | r' => String c r'
      end
  end.

Definition strip (s : string) : string := rstrip (lstrip s).

(** [s.split()]: the maximal runs of non-whitespace characters, in
    order. [cur] is the run being read, most recent character last. *)
Fixpoint split_from (cur : string) (s : string) : list string :=
  match s with
  | EmptyString =>
      match cur with EmptyString => [] | _ => [cur] end
  | String c r =>
      if is_space c then
        match cur with
        | EmptyString => split_from EmptyString r
        | _ => cur :: split_from EmptyString r
        end
      else split_from (cur ++ String c EmptyString) r
  end.

Definition split (s : string) : list string := split_from EmptyString s.

(** [needle in hay] for two strings. *)
Fixpoint contains (needle hay : string) : bool :=
  prefix needle hay ||
  match hay with
  | EmptyString => false
  | String _ r => contains needle r
  end.

(** The truth value of a string: non-empty. *)
Definition truthy (s : string) : bool :=
  match s with EmptyString => false | _ => true end.

(** *** [int(s, base)] for base 10 and base 16

    The literal syntax is: optional whitespace, an optional sign, for
    base 16 an optional [0x] or [0X] (after which one underscore may
    follow), one or more digits with single underscores allowed between
    two digits, optional whitespace. Anything else is a [ValueError]
    (here [None]). The interpreter's configurable cap on the number of
    decimal digits is left out. *)

(** Whitespace as [int] skips it around the literal. *)
Definition is_int_space (c : ascii) : bool :=
  let n := nat_of_ascii c in
  ((9 <=? n) && (n <=? 13) || (n =? 32) || (n =? 133) || (n =? 160))%nat.

Definition digit_value (c : ascii) : option Z :=
  let n := nat_of_ascii c in
  if ((48 <=? n) && (n <=? 57))%nat then Some (Z.of_nat n - 48)
  else if ((97 <=? n) && (n <=? 122))%nat then Some (Z.of_nat n - 87)
  else if ((65 <=? n) && (n <=? 90))%nat then Some (Z.of_nat n - 55)
  else None.

Definition digit_in (base : Z) (c : ascii) : option Z :=
  match digit_value c with
  | Some d => if d <? base then Some d else None
  | None => None
  end.

Fixpoint skip_int_space (s : string) : string :=
  match s with
  | EmptyString => EmptyString
  | String c r => if is_int_space c then skip_int_space r else s
  end.

(** The digit scan: [acc] is the value read so far, [n] the number of
    digits read, [prev_us] whether the previous character was an
    underscore. It stops at the first character that is neither a digit
    of the base nor an underscore and returns what is left; a doubled or
    a trailing underscore is a syntax error. *)
Fixpoint scan_digits (base : Z) (acc : Z) (n : nat) (prev_us : bool)
         (s : string) : option (Z * nat * string) :=
  match s with
  | EmptyString => if prev_us then None else Some (acc, n, s)
  | String c r =>
      if Ascii.eqb c "_" then
        if prev_us then None else scan_digits base acc n true r
      else
        match digit_in base c with
        | Some d => scan_digits base (acc * base + d) (S n) false r
        | None => if prev_us then None else Some (acc, n, s)
        end
  end.

Definition strip_sign (s : string) : bool * string :=
  match s with
  | String c r =>
      if Ascii.eqb c "+" then (false, r)
      else if Ascii.eqb c "-" then (true, r)
      else (false, s)
  | EmptyString => (false, s)
  end.

Definition strip_base_prefix (base : Z) (s : string) : string :=
  match s with
  | String c0 (String c1 r) =>
      if Ascii.eqb c0 "0" && (base =? 16)
         && (Ascii.eqb c1 "x" || Ascii.eqb c1 "X") then
        match r with
        | String c2 r' => if Ascii.eqb c2 "_" then r' else r
        | EmptyString => r
        end
      else s
  | _ => s
  end.

Definition starts_with_underscore (s : string) : bool :=
  match s with
  | String c _ => Ascii.eqb c "_"
  | EmptyString => false
  end.

Definition int_of_string (base : Z) (s : string) : option Z :=
  let (neg, s1) := strip_sign (skip_int_space s) in
  let s2 := strip_base_prefix base s1 in
  if starts_with_underscore s2 then None
  else
    match scan_digits base 0 0 false s2 with
    | Some (v, n, rest) =>
        match n, skip_int_space rest with
        | O, _ => None
        | _, EmptyString => Some (if neg then - v else v)
        | _, _ => None
        end
    | None => None
    end.

Definition int (base : Z) (s : string) : outcome Z :=
  match int_of_string base s with
  | Some v => Ok v
  | None => Raise ValueError
  end.

(** *** [struct.pack('!I', v)] and [struct.unpack('!f', bytes)] *)

(** Four bytes, most significant first; a value outside [0, 2^32) is a
    [struct.error]. *)
Definition pack_I (v : Z) : outcome (list Z) :=
  if (0 <=? v) && (v <=? 4294967295) then
    Ok [Z.land (Z.shiftr v 24) 255; Z.land (Z.shiftr v 16) 255;
        Z.land (Z.shiftr v 8) 255; Z.land v 255]
  else Raise StructError.

(** The binary32 value with sign bit [s], biased exponent [e] and
    fraction [f], widened to a double (exact for every binary32). *)
Definition binary32_value (s : bool) (e f : Z) : float :=
  if e =? 255 then
    if f =? 0 then (if s then neg_infinity else infinity) else nan
  else if e =? 0 then
    match f with
    | Zpos m => SF2Prim (S754_finite s m (-149))
    | _ => SF2Prim (S754_zero s)
    end
  else SF2Prim (S754_finite s (Z.to_pos (f + 8388608)) (e - 150)).

(** Network order: the first byte carries the sign and the high seven
    exponent bits, the second the last exponent bit and the high seven
    fraction bits. Fewer or more than four bytes is a [struct.error]. *)
Definition unpack_f (bytes : list Z) : outcome float :=
  match bytes with
  | [b0; b1; b2; b3] =>
      let s := Z.land (Z.shiftr b0 7) 1 in
      let e := Z.lor (Z.shiftl (Z.land b0 127) 1) (Z.land (Z.shiftr b1 7) 1) in
      let f := Z.lor (Z.lor (Z.shiftl (Z.land b1 127) 16) (Z.shiftl b2 8)) b3 in
      Ok (binary32_value (s =? 1) e f)
  | _ => Raise StructError
  end.

(** *** Sequences *)

(** [l[:n]] for an integer [n] of either sign. *)
Definition slice_to {A} (l : list A) (n : Z) : list A :=
  if 0 <=? n then firstn (Z.to_nat n) l
  else firstn (List.length l - Z.to_nat (- n)) l.

(** [range(0, n, 2)]. *)
Fixpoint range2_from (i : nat) (count : nat) : list nat :=
  match count with
  | O => []
  | S k => i :: range2_from (i + 2) k
  end.

Definition range2 (n : nat) : list nat := range2_from 0 (Nat.div2 (n + 1)).

(** [max(l)] for floats: the first element, replaced by each later one
    that compares greater; an empty sequence is a [ValueError]. *)
Definition max (l : list float) : outcome float :=
  match l with
  | [] => Raise ValueError
  | x :: r => Ok (fold_left (fun m y => if PrimFloat.ltb m y then y else m) r x)
  end.

End Py.

(** ** Column extraction and hex decoding *)

(** [filter_lines_by_flw]: the lines that contain ["flw"]. *)
Definition filter_lines_by_flw (lines : list string) : list string :=
  filter (fun line => Py.contains "flw" line) lines.

(** [extract_7th_column]: field 6 of each line that has more than six
    fields. *)
Definition extract_7th_column (lines : list string) : list string :=
  flat_map (fun line =>
              let cols := Py.split (Py.strip line) in
              if (6 <? List.length cols)%nat then [nth 6 cols ""] else [])
           lines.

(** One entry of [hex_to_float]'s loop body: [Ok (Some x)] appends [x],
    [Ok None] is the [except ValueError: pass] branch, and any other
    exception leaves the function. *)
Definition decode_entry (hex_str : string) : outcome (option float) :=
  match Py.int 16 hex_str with
  | Ok hex_value =>
      bytes <- Py.pack_I hex_value ;;
      float_value <- Py.unpack_f bytes ;;
      Ok (Some float_value)
  | Raise ValueError => Ok None
  | Raise e => Raise e
  end.

(** [hex_to_float]: [acc] is [result] so far. *)
Fixpoint hex_to_float_loop (acc : list float) (hex_array : list string)
  : outcome (list float) :=
  match hex_array with
  | [] => Ok acc
  | hex_str :: rest =>
      r <- decode_entry hex_str ;;
      match r with
      | Some x => hex_to_float_loop (acc ++ [x])%list rest
      | None => hex_to_float_loop acc rest
      end
  end.

Definition hex_to_float (hex_array : list string) : outcome (list float) :=
  hex_to_float_loop [] hex_array.

(** ** Complex samples and the array builder *)

Record complex : Type := Complex { real : float; imag : float }.

(** The loop of [parse_complex_array]: one sample per even index [i],
    with imaginary part [float_array[i + 1]] when that index exists and
    zero otherwise. *)
Definition pair_floats (float_array : list float) : list complex :=
  let n := List.length float_array in
  map (fun i =>
         if (i + 1 <? n)%nat
         then Complex (nth i float_array 0%float) (nth (i + 1) float_array 0%float)
         else Complex (nth i float_array 0%float) 0%float)
      (Py.range2 n).

Definition parse_complex_array (float_array : list float) (size : Z)
  : list complex :=
  Py.slice_to (pair_floats float_array) size.

(** The builder as [main] runs it on one segment. *)
Definition decode_segment (segment : list string) : outcome (list float) :=
  hex_to_float (extract_7th_column (filter_lines_by_flw segment)).

Definition build_complex_array (segment : list string) (size : Z)
  : outcome (list complex) :=
  float_data <- decode_segment segment ;;
  Ok (parse_complex_array float_data size).

(** ** The segmenter *)

Record scan_state : Type := ScanState {
  all_results : list (list string);
  result : list string;
  size_line : string;
  is_saving : bool;
  prev_line : option string
}.

Definition initial_state : scan_state :=
  {| all_results := []; result := []; size_line := "";
     is_saving := false; prev_line := None |}.

(** The whitespace-separated fields of a line. *)
Definition columns_of (line : string) : list string :=
  Py.split (Py.strip line).

(** The test of lines 21 to 25: a previous line exists and is not empty,
    both lines have more than six fields, and field 6 reads
    ["00000123"] on the previous line and ["00000456"] on this one. *)
Definition sentinel_transition (prev : option string) (columns : list string)
  : bool :=
  match prev with
  | None => false
  | Some p =>
      Py.truthy p &&
      (let prev_columns := columns_of p in
       (6 <? List.length prev_columns)%nat && (6 <? List.length columns)%nat &&
       String.eqb (nth 6 prev_columns "") "00000123" &&
       String.eqb (nth 6 columns "") "00000456")
  end.

(** The toggle of lines 26 to 31. *)
Definition toggle (st : scan_state) : scan_state :=
  if is_saving st then
    {| all_results := (all_results st ++ [result st])%list; result := [];
       size_line := size_line st; is_saving := false;
       prev_line := prev_line st |}
  else
    {| all_results := all_results st; result := result st;
       size_line := size_line st; is_saving := true;
       prev_line := prev_line st |}.

(** The capture of lines 33 to 36. *)
Definition capture (line_strip : string) (st : scan_state) : scan_state :=
  if is_saving st then
    {| all_results := all_results st;
       result := (result st ++ [line_strip])%list;
       size_line := if Py.contains "c.mv     a1" line_strip
                    then line_strip else size_line st;
       is_saving := true; prev_line := prev_line st |}
  else st.

(** One iteration of the loop over the file. *)
Definition scan_line (st : scan_state) (line : string) : scan_state :=
  let line_strip := Py.strip line in
  let columns := Py.split line_strip in
  let st1 := if sentinel_transition (prev_line st) columns
             then toggle st else st in
  let st2 := capture line_strip st1 in
  {| all_results := all_results st2; result := result st2;
     size_line := size_line st2; is_saving := is_saving st2;
     prev_line := Some line |}.

(** What is returned once the file is read: a non-empty open segment is
    emitted last. *)
Definition finish (st : scan_state) : list (list string) * string :=
  (match result st with
   | [] => all_results st
   | _ => (all_results st ++ [result st])%list
   end, size_line st).

(** [find_and_save_complex_lines] on the lines of an opened file, each as
    the file iterator yields it. *)
Definition find_and_save_complex_lines (lines : list string)
  : list (list string) * string :=
  finish (fold_left scan_line lines initial_state).

(** The number of sentinel transitions of a trace: the lines at which
    the test above succeeds against the line before. *)
Fixpoint count_transitions (prev : option string) (lines : list string) : nat :=
  match lines with
  | [] => O
  | line :: rest =>
      ((if sentinel_transition prev (columns_of line) then 1 else 0)
       + count_transitions (Some line) rest)%nat
  end.

Definition transitions (lines : list string) : nat :=
  count_transitions None lines.

(** ** The accuracy analyzer *)

Local Open Scope float_scope.

(** [math.pi], [1e-3] and [5.0] as doubles. *)
Definition pi : float := 0x1.921fb54442d18p+1.
Definition mag_threshold : float := 0x1.0624dd2f1a9fcp-10.
Definition phase_threshold : float := 5.

Record statistics : Type := Statistics {
  max_mag_error : float;
  avg_mag_error : float;
  max_phase_error : float;
  avg_phase_error : float;
  verdict : bool   (* true: the CORRECT line is printed *)
}.

(** [x / n] for a float [x] and the length [n] of a list. *)
Definition div_by_len (x : float) (n : nat) : outcome float :=
  match n with
  | O => Raise ZeroDivisionError
  | _ => Ok (x / of_uint63 (Uint63.of_Z (Z.of_nat n)))
  end.

Section Analyzer.

(** The C library behind [abs(z)] and [math.atan2(y, x)], and the
    interpreter's [sum] over floats, are taken as given. *)
Variable cabs : complex -> float.
Variable atan2 : float -> float -> float.
Variable fsum : list float -> float.

(** The body of the loop of lines 170 to 179, per pair. *)
Definition mag_error (asm_val ref_val : complex) : float :=
  abs (cabs asm_val - cabs ref_val).

Definition phase_error (asm_val ref_val : complex) : float :=
  let asm_phase := atan2 (imag asm_val) (real asm_val) in
  let ref_phase := atan2 (imag ref_val) (real ref_val) in
  let phase_error := abs (asm_phase - ref_phase) in
  let phase_error :=
    if pi <? phase_error then 2 * pi - phase_error else phase_error in
  phase_error * 180 / pi.

Definition magnitude_errors (assembly_fft reference_fft : list complex)
  : list float :=
  map (fun p => mag_error (fst p) (snd p)) (combine assembly_fft reference_fft).

Definition phase_errors (assembly_fft reference_fft : list complex)
  : list float :=
  map (fun p => phase_error (fst p) (snd p)) (combine assembly_fft reference_fft).

Definition analyze_fft_accuracy (assembly_fft reference_fft : list complex)
  : outcome statistics :=
  let mags := magnitude_errors assembly_fft reference_fft in
  let phases := phase_errors assembly_fft reference_fft in
  max_mag <- Py.max mags ;;
  avg_mag <- div_by_len (fsum mags) (List.length mags) ;;
  max_phase <- Py.max phases ;;
  avg_phase <- div_by_len (fsum phases) (List.length phases) ;;
  Ok {| max_mag_error := max_mag; avg_mag_error := avg_mag;
        max_phase_error := max_phase; avg_phase_error := avg_phase;
        verdict := (max_mag <? mag_threshold) && (max_phase <? phase_threshold) |}.

End Analyzer.

Local Close Scope float_scope.

(** ** The entry point *)

(** What [main] writes to standard output. Lines with a fixed text are
    [Line]; the listing, the analysis and the text of an exception are
    kept as data. *)
Inductive output : Type :=
| Line (text : string)
| Listing (arrays : list (list complex))
| AnalysisHeader
| Analysis (st : statistics)
| PlottingFailed (e : exn)
| ErrorProcessing (e : exn).

(** How a computation ends: with a value, with an exception that is an
    [Exception], or with [SystemExit] from [sys.exit(code)], which is
    not an [Exception]. *)
Inductive signal (A : Type) : Type :=
| Value (v : A)
| Exc (e : exn)
| Exit (code : Z).
Arguments Value {A} v.
Arguments Exc {A} e.
Arguments Exit {A} code.

(** A computation that prints: what was written, and how it ended. *)
Definition io (A : Type) : Type := list output * signal A.

Definition io_ret {A} (v : A) : io A := ([], Value v).

Definition io_bind {A B} (m : io A) (k : A -> io B) : io B :=
  match m with
  | (out, Value v) => let (out', r) := k v in ((out ++ out')%list, r)
  | (out, Exc e) => (out, Exc e)
  | (out, Exit c) => (out, Exit c)
  end.

Notation "x <~ m ;; k" := (io_bind m (fun x => k))
  (at level 61, m at next level, right associativity).
Notation "m ;;; k" := (io_bind m (fun _ => k))
  (at level 61, right associativity).

Definition print (o : output) : io unit := ([o], Value tt).
Definition sys_exit {A} (code : Z) : io A := ([], Exit code).

Definition lift {A} (r : outcome A) : io A :=
  match r with
  | Ok v => ([], Value v)
  | Raise e => ([], Exc e)
  end.

(** [try: m  except ...: handler e]; [SystemExit] passes through. *)
Definition try_except {A} (m : io A) (handler : exn -> io A) : io A :=
  match m with
  | (out, Exc e) => let (out', r) := handler e in ((out ++ out')%list, r)
  | _ => m
  end.

(** The exit status of the process once [main] ends. *)
Definition exit_status {A} (m : io A) : Z :=
  match snd m with
  | Value _ => 0
  | Exc _ => 1
  | Exit code => code
  end.

Definition stdout {A} (m : io A) : list output := fst m.

Definition string_of_Z (n : Z) : string :=
  NilZero.string_of_int (Z.to_int n).

(** [l[0]]. *)
Definition first_item {A} (l : list A) : outcome A :=
  match l with
  | [] => Raise IndexError
  | x :: _ => Ok x
  end.

(** The loop of lines 237 to 240. *)
Fixpoint build_all (arrays : list (list string)) (extracted_size : Z)
  : outcome (list (list complex)) :=
  match arrays with
  | [] => Ok []
  | array :: rest =>
      complex_data <- build_complex_array array extracted_size ;;
      others <- build_all rest extracted_size ;;
      Ok (complex_data :: others)
  end.

Section Main.

Variable cabs : complex -> float.
Variable atan2 : float -> float -> float.
Variable fsum : list float -> float.
(** [numpy.fft.fft] and the plotting routine: the transform or the
    exception it raises, and the exception the plot raises if any. *)
Variable compute_reference_fft : list complex -> outcome (list complex).
Variable plot_fft_results :
  list complex -> list complex -> list complex -> Z -> option exn.

(** The file system: the lines of a file, or [None] where [open]
    raises [FileNotFoundError]. *)
Variable fs : string -> option (list string).

Definition open_lines (filename : string) : io (list string) :=
  match fs filename with
  | Some lines => io_ret lines
  | None => ([], Exc FileNotFoundError)
  end.

(** Lines 242 to 265. *)
Definition compare_arrays (complex_arrays : list (list complex))
           (extracted_size : Z) : io unit :=
  if (2 <=? List.length complex_arrays)%nat then
    let input_signal := nth 0 complex_arrays [] in
    let output_signal := nth 1 complex_arrays [] in
    reference_fft <~ lift (compute_reference_fft input_signal) ;;
    print (Listing [input_signal; output_signal; reference_fft]) ;;;
    print AnalysisHeader ;;;
    st <~ lift (analyze_fft_accuracy cabs atan2 fsum output_signal reference_fft) ;;
    print (Analysis st) ;;;
    match plot_fft_results input_signal output_signal reference_fft
                           extracted_size with
    | None => io_ret tt
    | Some e =>
        print (PlottingFailed e) ;;;
        print (Line "Install matplotlib and numpy for visualization: pip install matplotlib numpy")
    end
  else
    print (Line "Insufficient data arrays found. Expected at least 2 (input and output).").

(** The body of the [try] of lines 221 to 265. *)
Definition process_log (filename : string) : io unit :=
  lines <~ open_lines filename ;;
  let (arrays, size_line) := find_and_save_complex_lines lines in
  if match arrays with [] => true | _ => false end
     || negb (Py.truthy size_line)
  then
    print (Line "No FFT data found in log file.") ;;;
    sys_exit 1
  else
    column <~ lift (first_item (extract_7th_column [size_line])) ;;
    extracted_size <~ lift (Py.int 16 column) ;;
    print (Line ("FFT size detected: " ++ string_of_Z extracted_size)) ;;;
    complex_arrays <~ lift (build_all arrays extracted_size) ;;
    compare_arrays complex_arrays extracted_size.

(** The two handlers of lines 267 to 271. *)
Definition handle (filename : string) (e : exn) : io unit :=
  match e with
  | FileNotFoundError =>
      print (Line ("Log file not found: " ++ filename)) ;;;
      print (Line "Make sure to run the FFT program first.")
  | _ => print (ErrorProcessing e)
  end.

Definition main (argv : list string) : io unit :=
  if negb (List.length argv =? 3)%nat then
    print (Line "Usage: python fft_visualizer.py <size> <type>") ;;;
    print (Line "Example: python fft_visualizer.py 8 NV") ;;;
    sys_exit 1
  else
    size <~ lift (Py.int 10 (nth 1 argv "")) ;;
    let type_arg := nth 2 argv "" in
    if String.eqb type_arg "NV" then
      let filename := "veer/tempFiles/logNV.txt" in
      try_except (process_log filename) (handle filename)
    else if String.eqb type_arg "V" then
      let filename := "veer/tempFiles/logV.txt" in
      try_except (process_log filename) (handle filename)
    else
      print (Line "Type must be 'NV' (non-vectorized) or 'V' (vectorized)") ;;;
      sys_exit 1.

End Main.

(** ** The statement side of the hex round trip *)

(** The hexadecimal digit for [d] in [0, 16), in lower or upper case. *)
Definition hex_digit (upper : bool) (d : Z) : ascii :=
  ascii_of_nat
    (Z.to_nat (if d <? 10 then 48 + d else (if upper then 55 else 87) + d)).

(** The [i]-th group of four bits of [b], counted from the least
    significant. *)
Definition nibble (b i : Z) : Z := Z.land (Z.shiftr b (4 * i)) 15.

(** The 8-hex-digit representation of a 32-bit pattern, most
    significant digit first. *)
Definition hex8 (upper : bool) (b : Z) : string :=
  String (hex_digit upper (nibble b 7))
  (String (hex_digit upper (nibble b 6))
  (String (hex_digit upper (nibble b 5))
  (String (hex_digit upper (nibble b 4))
  (String (hex_digit upper (nibble b 3))
  (String (hex_digit upper (nibble b 2))
  (String (hex_digit upper (nibble b 1))
  (String (hex_digit upper (nibble b 0)) EmptyString))))))).

(** The bits of [b] read directly as a binary32: bit 31 is the sign,
    bits 30 to 23 the biased exponent, bits 22 to 0 the fraction. *)
Definition binary32_of_bits (b : Z) : float :=
  Py.binary32_value (Z.testbit b 31) (Z.land (Z.shiftr b 23) 255)
                    (Z.land b 8388607).

(** A character that can occur in a literal [int(s, 16)] accepts: a
    hexadecimal digit, whitespace, a sign, an underscore, or the [x] of
    the base prefix. *)
Definition is_hex_digit (c : ascii) : bool :=
  match Py.digit_in 16 c with Some _ => true | None => false end.

Definition tolerated (c : ascii) : bool :=
  is_hex_digit c || Py.is_int_space c
  || Ascii.eqb c "+" || Ascii.eqb c "-" || Ascii.eqb c "_"
  || Ascii.eqb c "x" || Ascii.eqb c "X".

Fixpoint string_forallb (p : ascii -> bool) (s : string) : bool :=
  match s with
  | EmptyString => true
  | String c r => p c && string_forallb p r
  end.

Fixpoint string_existsb (p : ascii -> bool) (s : string) : bool :=
  match s with
  | EmptyString => false
  | String c r => p c || string_existsb p r
  end.

(** ** The statement side of the segmenter's properties *)

(** The line before the end of a prefix of the trace, if any. *)
Definition last_line (lines : list string) : option string :=
  match lines with
  | [] => None
  | _ => Some (last lines "")
  end.

(** [mid] starts at the second line of a sentinel transition: its first
    line passes the test against the line that ends [pre]. *)
Definition opens (pre mid : list string) : Prop :=
  exists o rest,
    mid = o :: rest /\
    sentinel_transition (last_line pre) (columns_of o) = true.

(** [post] is empty (end of file) or starts with the second line of the
    next sentinel transition. *)
Definition closes (pre mid post : list string) : Prop :=
  post = [] \/
  exists c post',
    post = c :: post' /\
    sentinel_transition (last_line (pre ++ mid)) (columns_of c) = true.

(** [seg] is the stripped text of a block [mid] of consecutive lines of
    the trace that an opening transition starts and that ends just before
    the closing transition's line or at the end of the file. *)
Definition emitted_from (lines : list string) (seg : list string) : Prop :=
  exists pre mid post,
    lines = (pre ++ mid ++ post)%list /\
    seg = map Py.strip mid /\
    opens pre mid /\
    closes pre mid post.

(** The ceiling of [n / 2]. *)
Definition ceil_half (n : nat) : nat := ((n + 1) / 2)%nat.

(** *** Invariants of the scan *)

(** The open segment is non-empty exactly while capturing. *)
Definition well_formed (st : scan_state) : Prop :=
  if is_saving st then result st <> [] else result st = [].

(** A segment closed while reading the prefix [done]. *)
Definition closed_in (done : list string) (seg : list string) : Prop :=
  exists pre mid c post',
    done = (pre ++ mid ++ c :: post')%list /\
    seg = map Py.strip mid /\
    opens pre mid /\
    sentinel_transition (last_line (pre ++ mid)) (columns_of c) = true.

(** The open segment after reading the prefix [done]. *)
Definition open_in (done : list string) (st : scan_state) : Prop :=
  if is_saving st then
    exists pre mid,
      done = (pre ++ mid)%list /\ result st = map Py.strip mid /\ opens pre mid
  else result st = [].

Definition scan_invariant (done : list string) (st : scan_state) : Prop :=
  prev_line st = last_line done /\
  Forall (closed_in done) (all_results st) /\
  open_in done st.

(** *** A sample trace *)

(** A line as the file iterator yields it, with its newline. *)
Definition with_newline (s : string) : string :=
  (s ++ String (ascii_of_nat 10) EmptyString)%string.

(** Two dumps between sentinel pairs: the input (1.0, 0.0), (0.0, 0.0)
    with the size marker for N = 2, and the output (1.0, 0.0),
    (1.0, 0.0). *)
Definition sample_trace : list string :=
  map with_newline
    ["core   0: 3 0x0000 (0x0000) x10 00000123 li      a0";
     "core   0: 3 0x0004 (0x0004) x10 00000456 li      a0";
     "core   0: 3 0x0008 (0x0008) x11 00000002 c.mv     a1, s0";
     "core   0: 3 0x000c (0x000c) f10 3f800000 flw     fa0";
     "core   0: 3 0x0010 (0x0010) f10 00000000 flw     fa0";
     "core   0: 3 0x0014 (0x0014) f10 00000000 flw     fa0";
     "core   0: 3 0x0018 (0x0018) f10 00000000 flw     fa0";
     "core   0: 3 0x001c (0x001c) x10 00000123 li      a0";
     "core   0: 3 0x0020 (0x0020) x10 00000456 li      a0";
     "core   0: 3 0x0024 (0x0024) x12 00000000 add     a2";
     "core   0: 3 0x0028 (0x0028) x10 00000123 li      a0";
     "core   0: 3 0x002c (0x002c) x10 00000456 li      a0";
     "core   0: 3 0x0030 (0x0030) f10 3f800000 flw     fa0";
     "core   0: 3 0x0034 (0x0034) f10 00000000 flw     fa0";
     "core   0: 3 0x0038 (0x0038) f10 3f800000 flw     fa0";
     "core   0: 3 0x003c (0x003c) f10 00000000 flw     fa0"].

(** ** The statement side of the analyzer's properties *)

(** [0.999e-3] as a double. *)
Definition just_below_threshold : float := 0x1.05e1c15097c81p-10%float.

(** The analyzer is run below on samples of the non-negative real axis,
    where [abs(z)] is the absolute value of the real part and
    [math.atan2(0.0, x)] is [0.0]; [sum] adds from the left. *)
Definition cabs_on_axis (z : complex) : float := abs (real z).
Definition atan2_on_axis (y x : float) : float := 0%float.
Definition sum_from_left (l : list float) : float :=
  fold_left PrimFloat.add l 0%float.

(** Stand-ins for the numeric library in the runs of [main] below: a
    transform that hands its input back, and a plot that succeeds. *)
Definition fft_stand_in (signal : list complex) : outcome (list complex) :=
  Ok signal.
Definition plot_stand_in (_ _ _ : list complex) (_ : Z) : option exn := None.

(** File systems: no file at all, and every path holding a given trace. *)
Definition no_file (_ : string) : option (list string) := None.
Definition only_file (lines : list string) (_ : string)
  : option (list string) := Some lines.

(** [main] run with the stand-ins. *)
Definition run_main (fs : string -> option (list string)) (argv : list string)
  : io unit :=
  main cabs_on_axis atan2_on_axis sum_from_left fft_stand_in plot_stand_in
       fs argv.

(** ** Binary64 arithmetic as the specification defines it

    The operations on [float] are specified on [spec_float] by the
    standard library ([SFsub], [SFmul], [SFdiv]: the exact result, then
    [binary_round_aux]). The definitions below name what that rounding
    computes, in integers. *)

(** The position of [A / D] between [A / D] rounded down and the next
    integer: exact, or below, at, or above the midpoint. *)
Definition loc_of (A D : Z) : location :=
  if A mod D =? 0 then loc_Exact else loc_Inexact (2 * (A mod D) ?= D).

(** The mantissa, round bit and sticky bit that stand for [A / D]. *)
Definition rec_of (A D : Z) : shr_record :=
  shr_record_of_loc (A / D) (loc_of A D).

(** [A / D] rounded to the nearest integer, ties to even. *)
Definition rne (A D : Z) : Z := round_nearest_even (A / D) (loc_of A D).

(** The value of a finite float in units of [2^-1074], the smallest
    positive double. *)
Definition SFint (x : spec_float) : Z :=
  match x with
  | S754_finite s m e => (if s then -1 else 1) * (Zpos m * 2 ^ (e + 1074))
  | _ => 0
  end.

Definition finite_or_zero (x : spec_float) : bool :=
  match x with
  | S754_finite _ _ _ | S754_zero _ => true
  | _ => false
  end.

(** The mantissa [M] rounded at exponent [E], renormalised and checked
    for overflow. *)
Definition pack_rounded (s : bool) (M E : Z) : spec_float :=
  if M =? 0 then S754_zero s
  else if M <? 2 ^ 53 then
    if E <=? 971 then S754_finite s (Z.to_pos M) E else S754_infinity s
  else
    if E + 1 <=? 971 then S754_finite s (Z.to_pos (M / 2)) (E + 1)
    else S754_infinity s.

(** A float that is neither NaN nor infinite. *)
Definition finite (x : float) : bool := (abs x <? infinity)%float.

(** An angle as [math.atan2] returns it for arguments that are not NaN:
    between [-math.pi] and [math.pi]. *)
Definition in_phase_range (p : float) : bool :=
  ((- pi <=? p) && (p <=? pi))%float.

(** The scaled value of [math.pi]. *)
Definition Ipi : Z := 7074237752028440 * 2 ^ 1023.

(** Whether the difference [u - v] of two floats is a number: neither
    operand is NaN, and the two are not the same infinity. *)
Definition difference_is_a_number (u v : float) : bool :=
  negb (PrimFloat.is_nan u) && negb (PrimFloat.is_nan v)
  && negb (PrimFloat.is_infinity u && PrimFloat.eqb u v).

(** ** The statement side of further properties of the pipeline *)

(** A line that carries the size-marker signature. *)
Definition has_signature (line : string) : bool :=
  Py.contains "c.mv     a1" line.

(** The lines captured so far, in the order of capture. *)
Definition captured (st : scan_state) : list string :=
  (List.concat (all_results st) ++ result st)%list.

(** [l1] is [l2] with some elements left out, the order kept. *)
Inductive subsequence {A : Type} : list A -> list A -> Prop :=
| subsequence_nil : subsequence [] []
| subsequence_skip (x : A) (l1 l2 : list A) :
    subsequence l1 l2 -> subsequence l1 (x :: l2)
| subsequence_keep (x : A) (l1 l2 : list A) :
    subsequence l1 l2 -> subsequence (x :: l1) (x :: l2).

(** A field as [str.split()] yields it: not empty, no whitespace. *)
Definition is_field (s : string) : bool :=
  Py.truthy s && string_forallb (fun c => negb (Py.is_space c)) s.

(** An entry [int(s, 16)] accepts, and one whose value does not fit an
    unsigned 32-bit integer. *)
Definition parses_as_hex (s : string) : bool :=
  match Py.int_of_string 16 s with Some _ => true | None => false end.

Definition out_of_range (s : string) : bool :=
  match Py.int_of_string 16 s with
  | Some v => (v <? 0) || (4294967296 <=? v)
  | None => false
  end.

(** One to eight hexadecimal digits. *)
Definition short_hex (s : string) : bool :=
  string_forallb is_hex_digit s
  && (1 <=? String.length s)%nat && (String.length s <=? 8)%nat.

(** The real and imaginary parts of the samples, in order. *)
Definition interleave (samples : list complex) : list float :=
  flat_map (fun z => [real z; imag z]) samples.

(** What [max(errors) < threshold] amounts to, error by error: the first
    error is below the threshold, and each later one is below it or is
    NaN. *)
Definition below_or_nan (threshold y : float) : bool :=
  PrimFloat.ltb y threshold || PrimFloat.is_nan y.

Definition all_below (threshold : float) (errors : list float) : bool :=
  match errors with
  | [] => false
  | x :: r => PrimFloat.ltb x threshold && forallb (below_or_nan threshold) r
  end.

(** A float that is not NaN, on the specification side, and its place
    on the extended number line in units of [2^-1074]: the infinities
    lie beyond every finite double. *)
Definition not_nan (x : spec_float) : bool :=
  match x with S754_nan => false | _ => true end.

Definition SFext (x : spec_float) : Z :=
  match x with
  | S754_infinity s => if s then - 2 ^ 2100 else 2 ^ 2100
  | _ => SFint x
  end.

(** A command line with three arguments of which the last selects the
    trace: the file that is read. *)
Definition trace_of (type_arg : string) : option string :=
  if String.eqb type_arg "NV" then Some "veer/tempFiles/logNV.txt"
  else if String.eqb type_arg "V" then Some "veer/tempFiles/logV.txt"
  else None.

(** A computation that does not end in [sys.exit]. *)
Definition no_exit {A} (m : io A) : Prop := forall code, snd m <> Exit code.

(** Two runs that end the same way and print the same, except that the
    first may end its output with the two lines of a failed plot. *)
Definition same_but_for_the_plot (m quiet : io unit) : Prop :=
  snd m = snd quiet /\
  (fst m = fst quiet \/
   snd quiet = Value tt /\
   exists e,
     fst m
     = (fst quiet
        ++ [PlottingFailed e;
            Line "Install matplotlib and numpy for visualization: pip install matplotlib numpy"])%list).

(** A segment that holds a floating-point load whose entry does not fit
    an unsigned 32-bit integer. *)
Definition has_bad_entry (segment : list string) : bool :=
  existsb out_of_range (extract_7th_column (filter_lines_by_flw segment)).

(** The sample trace followed by a third dump that holds an entry of
    nine digits. *)
Definition faulty_trace : list string :=
  (sample_trace
   ++ map with_newline
        ["core   0: 3 0x0040 (0x0040) x10 00000123 li      a0";
         "core   0: 3 0x0044 (0x0044) x10 00000456 li      a0";
         "core   0: 3 0x0048 (0x0048) x10 00000123 li      a0";
         "core   0: 3 0x004c (0x004c) x10 00000456 li      a0";
         "core   0: 3 0x0050 (0x0050) f10 100000000 flw     fa0"])%list.

(** * Test signals: [python/signal_generation.py] *)

Module SignalGeneration.

Local Open Scope float_scope.

(** [float(n)] for an index or a length [n]; a list has fewer than
    [2^63] elements. *)
Definition float_of_int (n : Z) : float := of_uint63 (Uint63.of_Z n).

(** [range(n)]. *)
Definition range (n : Z) : list Z := map Z.of_nat (seq 0 (Z.to_nat n)).

(** [l[0] = v]. *)
Definition set_first {A} (l : list A) (v : A) : outcome (list A) :=
  match l with
  | [] => Raise IndexError
  | _ :: r => Ok (v :: r)
  end.

(** [min(l)] for floats: the first element, replaced by each later one
    that compares less; an empty sequence is a [ValueError]. *)
Definition min (l : list float) : outcome float :=
  match l with
  | [] => Raise ValueError
  | x :: r => Ok (fold_left (fun m y => if y <? m then y else m) r x)
  end.

(** [0.1] and [5.0] as doubles. *)
Definition f_start : float := 0x1.999999999999ap-4.
Definition f_end : float := 5.

(** The names [generate_test_signal] knows. *)
Definition signal_types : list string :=
  ["cosine"; "sine"; "multi_sine"; "impulse";
   "step"; "square"; "noise"; "chirp"].

(** What the module writes to standard output: one constructor per
    [print], the formatted numbers kept as data. *)
Inductive report : Type :=
| SignalType (signal_type : string)
| Length (n : nat)
| MinValue (x : float)
| MaxValue (x : float)
| MeanValue (x : float)
| Blank
| FirstSamples (samples : list float)
| Rule.

(** A computation that prints and may raise. *)
Definition writer (A : Type) : Type := list report * outcome A.

Definition say (r : report) : writer unit := ([r], Ok tt).

Definition eval {A} (r : outcome A) : writer A := ([], r).

Definition wbind {A B} (m : writer A) (k : A -> writer B) : writer B :=
  match m with
  | (out, Ok v) => let (out', r) := k v in ((out ++ out')%list, r)
  | (out, Raise e) => (out, Raise e)
  end.

Notation "x <-- m ;; k" := (wbind m (fun x => k))
  (at level 61, m at next level, right associativity).
Notation "m ;;- k" := (wbind m (fun _ => k))
  (at level 61, right associativity).

Section Generator.

(** [math.cos] and [math.sin], the interpreter's [sum] over floats, and
    [random.uniform] on the state of the generator behind it. *)
Variable cos sin : float -> float.
Variable fsum : list float -> float.
Context {rng : Type}.
Variable uniform : float -> float -> rng -> float * rng.

(** [2 * math.pi * frequency * i / size]. *)
Definition angle_of (frequency i size : Z) : float :=
  2 * pi * float_of_int frequency * float_of_int i / float_of_int size.

Definition cosine (size : Z) : list float :=
  map (fun i => cos (angle_of 1 i size)) (range size).

Definition sine (size : Z) : list float :=
  map (fun i => sin (angle_of 1 i size)) (range size).

Definition multi_sine (size : Z) : list float :=
  map (fun i =>
         fold_left (fun value fa =>
                      value + snd fa * sin (angle_of (fst fa) i size))
                   (combine [1; 3; 5]%Z [1; 0.5; 0.25]) 0)
      (range size).

Definition impulse (size : Z) : outcome (list float) :=
  set_first (repeat 0 (Z.to_nat size)) 1.

Definition step (size : Z) : list float :=
  map (fun i => if (i <? size / 2)%Z then 0 else 1) (range size).

Definition square (size : Z) : list float :=
  map (fun i => if 0 <=? sin (angle_of 1 i size) then 1 else -1)
      (range size).

Definition noise (size : Z) (g : rng) : list float * rng :=
  fold_left (fun sg _ =>
               let (x, g') := uniform (-1) 1 (snd sg) in
               ((fst sg ++ [x])%list, g'))
            (range size) ([], g).

(** [n] successive samples of [random.uniform(-1.0, 1.0)], first to
    last, and the state they leave. *)
Fixpoint draws (n : nat) (g : rng) : list float * rng :=
  match n with
  | O => ([], g)
  | S k =>
      let (x, g1) := uniform (-1) 1 g in
      let (xs, g2) := draws k g1 in
      (x :: xs, g2)
  end.

(** [t = i / size] divides two integers; below [2^53] that is the
    quotient of the two floats. *)
Definition chirp (size : Z) : list float :=
  map (fun i =>
         let t := float_of_int i / float_of_int size in
         let freq := f_start + (f_end - f_start) * t in
         let angle := 2 * pi * freq * t * float_of_int size in
         cos angle)
      (range size).

(** [generate_test_signal(size, signal_type)]: the signal or the
    exception, and the state the random generator is left in. A call
    without [signal_type] is the call with ["cosine"]. *)
Definition generate_test_signal (size : Z) (signal_type : string) (g : rng)
  : outcome (list float) * rng :=
  if String.eqb signal_type "cosine" then (Ok (cosine size), g)
  else if String.eqb signal_type "sine" then (Ok (sine size), g)
  else if String.eqb signal_type "multi_sine" then (Ok (multi_sine size), g)
  else if String.eqb signal_type "impulse" then (impulse size, g)
  else if String.eqb signal_type "step" then (Ok (step size), g)
  else if String.eqb signal_type "square" then (Ok (square size), g)
  else if String.eqb signal_type "noise" then
    let (signal, g') := noise size g in (Ok signal, g')
  else if String.eqb signal_type "chirp" then (Ok (chirp size), g)
  else (Raise ValueError, g).

(** [print_signal_info(signal, signal_type)]. *)
Definition print_signal_info (signal : list float) (signal_type : string)
  : writer unit :=
  say (SignalType signal_type) ;;-
  say (Length (List.length signal)) ;;-
  lo <-- eval (min signal) ;;
  say (MinValue lo) ;;-
  hi <-- eval (Py.max signal) ;;
  say (MaxValue hi) ;;-
  mean <-- eval (div_by_len (fsum signal) (List.length signal)) ;;
  say (MeanValue mean) ;;-
  say Blank.

(** The loop of [main] over the signal types. *)
Fixpoint report_all (size : Z) (types : list string) (g : rng)
  : writer unit * rng :=
  match types with
  | [] => (eval (Ok tt), g)
  | sig_type :: rest =>
      let (generated, g1) := generate_test_signal size sig_type g in
      match (signal <-- eval generated ;;
             print_signal_info signal sig_type ;;-
             say (FirstSamples (Py.slice_to signal 8)) ;;-
             say Rule) with
      | (out, Ok _) =>
          let (later, g2) := report_all size rest g1 in
          ((out ++ fst later)%list, snd later, g2)
      | (out, Raise e) => (out, Raise e, g1)
      end
  end.

Definition main (g : rng) : writer unit * rng :=
  report_all 64 signal_types g.

End Generator.

End SignalGeneration.

(** ** The embedding on concrete inputs *)

Example split_fields :
  Py.split "  core   0: 3 0x0000 (0x0000) x10 00000123 li  "
  = ["core"; "0:"; "3"; "0x0000"; "(0x0000)"; "x10"; "00000123"; "li"].
Proof. reflexivity. Qed.

Example strip_line : Py.strip (with_newline "  a b  ") = "a b".
Proof. reflexivity. Qed.

Example int_literals :
  map (Py.int_of_string 16)
      ["3f800000"; "0x1f"; " 1F "; "1_0"; "-a"; "1__0"; "_1"; "1_"; "0x"; "g"; ""]
  = [Some 1065353216; Some 31; Some 31; Some 16; Some (-10);
     None; None; None; None; None; None].
Proof. reflexivity. Qed.

Example decode_some_entries :
  hex_to_float ["3f800000"; "zz"; "c0000000"; "7f800000"; "00000000"]
  = Ok [1%float; (-2)%float; infinity; 0%float].
Proof. vm_compute. reflexivity. Qed.

Example sample_trace_segments :
  map (@List.length string) (fst (find_and_save_complex_lines sample_trace))
  = [7%nat; 5%nat] /\
  snd (find_and_save_complex_lines sample_trace)
  = "core   0: 3 0x0008 (0x0008) x11 00000002 c.mv     a1, s0" /\
  transitions sample_trace = 3%nat.
Proof. vm_compute. repeat split. Qed.

Example sample_trace_arrays :
  build_all (fst (find_and_save_complex_lines sample_trace)) 2
  = Ok [[Complex 1%float 0%float; Complex 0%float 0%float];
        [Complex 1%float 0%float; Complex 1%float 0%float]].
Proof. vm_compute. reflexivity. Qed.

Example slices :
  Py.slice_to [1; 2; 3] 2 = [1; 2] /\ Py.slice_to [1; 2; 3] 5 = [1; 2; 3] /\
  Py.slice_to [1; 2; 3] (-1) = [1; 2] /\ Py.slice_to [1; 2; 3] (-4) = [].
Proof. repeat split. Qed.
(** ** Properties of the array builder *)

Section Builder.

Local Open Scope nat_scope.

Lemma length_range2_from (i count : nat) :
  List.length (Py.range2_from i count) = count.
Proof.
  revert i; induction count as [|k IH]; intros i; simpl; [reflexivity|].
  now rewrite IH.
Qed.

Lemma last_range2_from (i k d : nat) :
  last (Py.range2_from i (S k)) d = i + 2 * k.
Proof.
  revert i; induction k as [|k IH]; intros i.
  - simpl. lia.
  - change (Py.range2_from i (S (S k)))
      with (i :: Py.range2_from (i + 2) (S k)).
    change (last (i :: Py.range2_from (i + 2) (S k)) d)
      with (last (Py.range2_from (i + 2) (S k)) d).
    rewrite IH. lia.
Qed.

Lemma last_map_cons {A B} (f : A -> B) (x : A) (l : list A) (d : B) (d' : A) :
  last (map f (x :: l)) d = f (last (x :: l) d').
Proof.
  revert x; induction l as [|y l IH]; intros x; [reflexivity|].
  change (last (map f (x :: y :: l)) d) with (last (map f (y :: l)) d).
  change (last (x :: y :: l) d') with (last (y :: l) d').
  apply IH.
Qed.

Lemma nth_pred_length_last {A} (l : list A) (d : A) :
  nth (List.length l - 1) l d = last l d.
Proof.
  induction l as [|x [|y l] IH]; try reflexivity.
  change (last (x :: y :: l) d) with (last (y :: l) d).
  rewrite <- IH. simpl. now rewrite Nat.sub_0_r.
Qed.

(** The loop yields one sample per started pair: the ceiling of half
    the number of floats. *)
Lemma length_pair_floats (float_array : list float) :
  List.length (pair_floats float_array)
  = Nat.div2 (List.length float_array + 1).
Proof.
  unfold pair_floats, Py.range2.
  now rewrite length_map, length_range2_from.
Qed.

Lemma length_slice_to {A} (l : list A) (n : Z) :
  (0 <= n)%Z ->
  List.length (Py.slice_to l n) = Nat.min (Z.to_nat n) (List.length l).
Proof.
  intros Hn. unfold Py.slice_to.
  destruct (Z.leb_spec 0 n) as [_|Hlt]; [|lia].
  apply length_firstn.
Qed.

Lemma div2_succ_Z (m : nat) :
  Z.of_nat (Nat.div2 (m + 1)) = ((Z.of_nat m + 1) / 2)%Z.
Proof.
  rewrite Nat.div2_div, Nat2Z.inj_div, Nat2Z.inj_add. reflexivity.
Qed.

End Builder.

(** C1 (as amended). For a target size [N >= 0] and a segment whose
    float-load lines decode to [M] floats, the builder returns [N]
    samples when [M >= 2N]; when [M < 2N] it returns the ceiling of
    [M / 2] samples, which is at most [N] and is [N] exactly when
    [M = 2N - 1]. *)
Theorem builder_truncation :
  forall (segment : list string) (size : Z) (float_data : list float),
    0 <= size ->
    decode_segment segment = Ok float_data ->
    let M := Z.of_nat (List.length float_data) in
    exists samples,
      build_complex_array segment size = Ok samples /\
      (2 * size <= M -> Z.of_nat (List.length samples) = size) /\
      (M < 2 * size ->
       Z.of_nat (List.length samples) = (M + 1) / 2 /\
       Z.of_nat (List.length samples) <= size /\
       (Z.of_nat (List.length samples) = size <-> M = 2 * size - 1)).
Proof.
  intros segment size float_data Hsize Hdec M.
  exists (parse_complex_array float_data size).
  split.
  - unfold build_complex_array. rewrite Hdec. reflexivity.
  - unfold parse_complex_array.
    rewrite (length_slice_to _ _ Hsize), length_pair_floats.
    assert (HM : Z.of_nat (Nat.div2 (List.length float_data + 1)) = (M + 1) / 2)
      by apply div2_succ_Z.
    split; intros HMN.
    + rewrite Nat2Z.inj_min, HM, Z2Nat.id by assumption.
      apply Z.min_l. apply Z.div_le_lower_bound; lia.
    + assert (Hle : (M + 1) / 2 <= size)
        by (apply Z.div_le_upper_bound; lia).
      rewrite Nat2Z.inj_min, HM, Z2Nat.id by assumption.
      rewrite Z.min_r by assumption.
      repeat split; try assumption.
      * intros Heq.
        assert (Hlow : 2 * size <= M + 1).
        { rewrite <- Heq.
          pose proof (Z.mul_div_le (M + 1) 2 ltac:(lia)) as Hd.
          pose proof (Z.mod_pos_bound (M + 1) 2 ltac:(lia)) as Hm.
          pose proof (Z.div_mod (M + 1) 2 ltac:(lia)) as Hdm.
          destruct (Z.eq_dec ((M + 1) mod 2) 0) as [E|E].
          - lia.
          - exfalso.
            assert ((M + 1) mod 2 = 1) by lia.
            assert (M + 1 = 2 * size + 1) by lia.
            lia. }
        lia.
      * intros ->.
        replace (2 * size - 1 + 1) with (size * 2) by lia.
        apply Z.div_mul. lia.
Qed.

(** A segment of three float loads and target size 1. *)
Lemma builder_truncation_witness :
  exists samples,
    build_complex_array
      ["1 2 3 4 5 6 3f800000 flw"; "1 2 3 4 5 6 40000000 flw";
       "1 2 3 4 5 6 40400000 flw"] 1 = Ok samples /\
    (2 * 1 <= 3 -> Z.of_nat (List.length samples) = 1) /\
    (3 < 2 * 1 ->
     Z.of_nat (List.length samples) = (3 + 1) / 2 /\
     Z.of_nat (List.length samples) <= 1 /\
     (Z.of_nat (List.length samples) = 1 <-> 3 = 2 * 1 - 1)).
Proof.
  apply (builder_truncation
           ["1 2 3 4 5 6 3f800000 flw"; "1 2 3 4 5 6 40000000 flw";
            "1 2 3 4 5 6 40400000 flw"] 1
           [1%float; 2%float; 3%float]).
  - lia.
  - vm_compute. reflexivity.
Defined.

(** C1 as stated fails: one decodable float and target size 1 give
    [M = 1 < 2N], yet the builder returns [N = 1] sample. *)
Lemma builder_short_segment_reaches_size :
  exists float_data samples,
    decode_segment ["1 2 3 4 5 6 3f800000 flw"] = Ok float_data /\
    Z.of_nat (List.length float_data) < 2 * 1 /\
    build_complex_array ["1 2 3 4 5 6 3f800000 flw"] 1 = Ok samples /\
    Z.of_nat (List.length samples) = 1.
Proof.
  exists [1%float], [Complex 1%float 0%float].
  repeat split; vm_compute; reflexivity.
Qed.

(** C6. For an odd-length float sequence the loop of
    [parse_complex_array] produces at least one sample, and the last one
    has the final float as real part and imaginary part [0.0]. *)
Theorem odd_tail_policy :
  forall (float_array : list float) (d : complex),
    Nat.odd (List.length float_array) = true ->
    pair_floats float_array <> [] /\
    last (pair_floats float_array) d
    = Complex (last float_array 0%float) 0%float.
Proof.
  intros float_array d Hodd.
  pose proof (Nat.div2_odd (List.length float_array)) as Hdiv.
  rewrite Hodd in Hdiv. simpl Nat.b2n in Hdiv.
  set (n := List.length float_array) in *.
  set (k := Nat.div2 n) in *.
  assert (Hcount : Nat.div2 (n + 1) = S k).
  { replace (n + 1)%nat with (2 * S k)%nat by lia.
    apply Nat.div2_double. }
  unfold pair_floats. fold n. unfold Py.range2. rewrite Hcount.
  split.
  - simpl. discriminate.
  - change (Py.range2_from 0 (S k))
      with (0%nat :: Py.range2_from (0 + 2) k).
    rewrite (last_map_cons _ _ _ d 0%nat).
    change (0%nat :: Py.range2_from (0 + 2) k)
      with (Py.range2_from 0 (S k)).
    rewrite last_range2_from. simpl Nat.add.
    replace (k + (k + 0))%nat with (n - 1)%nat by lia.
    destruct (Nat.ltb_spec (n - 1 + 1) n) as [Hlt|_]; [lia|].
    unfold n. now rewrite nth_pred_length_last.
Qed.

Lemma odd_tail_policy_witness :
  pair_floats [1%float; 2%float; 3%float] <> [] /\
  last (pair_floats [1%float; 2%float; 3%float]) (Complex 0%float 0%float)
  = Complex (last [1%float; 2%float; 3%float] 0%float) 0%float.
Proof.
  apply (odd_tail_policy [1%float; 2%float; 3%float]).
  reflexivity.
Defined.

(** ** Properties of the hex decoder *)

Section HexDigits.

Variable upper : bool.
Variable d : Z.
Hypothesis d_range : 0 <= d < 16.

Ltac each_digit :=
  let H := fresh in
  assert (H : d = 0 \/ d = 1 \/ d = 2 \/ d = 3 \/ d = 4 \/ d = 5 \/ d = 6
              \/ d = 7 \/ d = 8 \/ d = 9 \/ d = 10 \/ d = 11 \/ d = 12
              \/ d = 13 \/ d = 14 \/ d = 15) by lia;
  clear d_range;
  repeat (destruct H as [H|H]; [subst d; destruct upper; reflexivity|]);
  subst d; destruct upper; reflexivity.

Lemma digit_in_hex_digit : Py.digit_in 16 (hex_digit upper d) = Some d.
Proof. each_digit. Qed.

Lemma hex_digit_not_space : Py.is_int_space (hex_digit upper d) = false.
Proof. each_digit. Qed.

Lemma hex_digit_not_plus : Ascii.eqb (hex_digit upper d) "+" = false.
Proof. each_digit. Qed.

Lemma hex_digit_not_minus : Ascii.eqb (hex_digit upper d) "-" = false.
Proof. each_digit. Qed.

Lemma hex_digit_not_underscore : Ascii.eqb (hex_digit upper d) "_" = false.
Proof. each_digit. Qed.

Lemma hex_digit_not_x :
  (Ascii.eqb (hex_digit upper d) "x" || Ascii.eqb (hex_digit upper d) "X")%bool
  = false.
Proof. each_digit. Qed.

End HexDigits.

Lemma scan_digits_step (base acc : Z) (n : nat) (c : ascii) (r : string) (d : Z) :
  Ascii.eqb c "_" = false ->
  Py.digit_in base c = Some d ->
  Py.scan_digits base acc n false (String c r)
  = Py.scan_digits base (acc * base + d) (S n) false r.
Proof. intros Hu Hd. simpl. now rewrite Hu, Hd. Qed.

Lemma scan_hex_digit (upper : bool) (d acc : Z) (n : nat) (r : string) :
  0 <= d < 16 ->
  Py.scan_digits 16 acc n false (String (hex_digit upper d) r)
  = Py.scan_digits 16 (acc * 16 + d) (S n) false r.
Proof.
  intros Hd. apply scan_digits_step.
  - now apply hex_digit_not_underscore.
  - now apply digit_in_hex_digit.
Qed.

Lemma nibble_range (b i : Z) : 0 <= nibble b i < 16.
Proof.
  unfold nibble. change 15 with (Z.ones 4).
  rewrite Z.land_ones by lia. apply Z.mod_pos_bound. lia.
Qed.

Lemma nibbles_sum (b : Z) :
  0 <= b < 4294967296 ->
  (((((((0 * 16 + nibble b 7) * 16 + nibble b 6) * 16 + nibble b 5) * 16
       + nibble b 4) * 16 + nibble b 3) * 16 + nibble b 2) * 16
     + nibble b 1) * 16 + nibble b 0 = b.
Proof.
  intros Hb. unfold nibble. change 15 with (Z.ones 4).
  rewrite !Z.land_ones, !Z.shiftr_div_pow2 by lia.
  change (2 ^ (4 * 7)) with 268435456. change (2 ^ (4 * 6)) with 16777216.
  change (2 ^ (4 * 5)) with 1048576. change (2 ^ (4 * 4)) with 65536.
  change (2 ^ (4 * 3)) with 4096. change (2 ^ (4 * 2)) with 256.
  change (2 ^ (4 * 1)) with 16. change (2 ^ (4 * 0)) with 1.
  change (2 ^ 4) with 16.
  Z.div_mod_to_equations. lia.
Qed.

(** Parsing the eight digits of a pattern gives the pattern back. *)
Lemma int_of_hex8 (upper : bool) (b : Z) :
  0 <= b < 4294967296 ->
  Py.int_of_string 16 (hex8 upper b) = Some b.
Proof.
  intros Hb. unfold hex8, Py.int_of_string.
  pose proof (nibble_range b 7) as H7. pose proof (nibble_range b 6) as H6.
  pose proof (nibble_range b 5) as H5. pose proof (nibble_range b 4) as H4.
  pose proof (nibble_range b 3) as H3. pose proof (nibble_range b 2) as H2.
  pose proof (nibble_range b 1) as H1. pose proof (nibble_range b 0) as H0.
  cbn [Py.skip_int_space]. rewrite hex_digit_not_space by assumption.
  cbn [Py.strip_sign].
  rewrite hex_digit_not_plus, hex_digit_not_minus by assumption.
  cbn [Py.strip_base_prefix].
  rewrite (hex_digit_not_x upper (nibble b 6)) by assumption.
  rewrite Bool.andb_false_r.
  cbn [Py.starts_with_underscore].
  rewrite hex_digit_not_underscore by assumption.
  rewrite !scan_hex_digit by assumption.
  cbn [Py.scan_digits Py.skip_int_space].
  now rewrite nibbles_sum.
Qed.

(** *** Bytes and bit fields *)

Lemma testbit_above (y k m : Z) :
  0 <= y < 2 ^ k -> k <= m -> Z.testbit y m = false.
Proof.
  intros Hy Hkm.
  destruct (Z.eq_dec y 0) as [->|Hne]; [apply Z.bits_0|].
  apply Z.bits_above_log2; [lia|].
  assert (Z.log2 y < k) by (apply Z.log2_lt_pow2; lia).
  lia.
Qed.

Lemma lor_shiftl_add (x k y : Z) :
  0 <= k -> 0 <= y < 2 ^ k ->
  Z.lor (Z.shiftl x k) y = x * 2 ^ k + y.
Proof.
  intros Hk Hy.
  rewrite <- Z.lxor_lor, <- Z.add_nocarry_lxor, Z.shiftl_mul_pow2; trivial.
  all: apply Z.bits_inj'; intros m Hm; rewrite Z.land_spec, Z.bits_0;
    destruct (Z.lt_ge_cases m k) as [Hlt|Hge];
    [ now rewrite Z.shiftl_spec_low
    | rewrite (testbit_above y k m) by assumption; apply Bool.andb_false_r ].
Qed.

(** The bytes of a 32-bit pattern as quotients and remainders. *)
Lemma bytes_as_div_mod (b : Z) :
  Z.land (Z.shiftr b 24) 255 = (b / 16777216) mod 256 /\
  Z.land (Z.shiftr b 16) 255 = (b / 65536) mod 256 /\
  Z.land (Z.shiftr b 8) 255 = (b / 256) mod 256 /\
  Z.land b 255 = b mod 256.
Proof.
  change 255 with (Z.ones 8).
  rewrite !Z.land_ones, !Z.shiftr_div_pow2 by lia.
  repeat split.
Qed.

Lemma sign_field (b : Z) :
  0 <= b < 4294967296 ->
  (Z.land (Z.shiftr ((b / 16777216) mod 256) 7) 1 =? 1) = Z.testbit b 31.
Proof.
  intros Hb. change 1 with (Z.ones 1) at 1.
  rewrite Z.land_ones, Z.shiftr_div_pow2 by lia.
  change (2 ^ 7) with 128. change (2 ^ 1) with 2.
  pose proof (Z.testbit_spec' b 31 ltac:(lia)) as Hbit.
  change (2 ^ 31) with 2147483648 in Hbit.
  destruct (Z.testbit b 31); simpl Z.b2z in Hbit;
    destruct (Z.eqb_spec ((b / 16777216) mod 256 / 128 mod 2) 1) as [E|E];
    trivial; exfalso; revert Hbit E; Z.div_mod_to_equations; lia.
Qed.

Lemma exponent_field (b : Z) :
  0 <= b < 4294967296 ->
  Z.lor (Z.shiftl (Z.land ((b / 16777216) mod 256) 127) 1)
        (Z.land (Z.shiftr ((b / 65536) mod 256) 7) 1)
  = Z.land (Z.shiftr b 23) 255.
Proof.
  intros Hb. change 127 with (Z.ones 7). change 255 with (Z.ones 8).
  change (Z.land (Z.shiftr ((b / 65536) mod 256) 7) 1)
    with (Z.land (Z.shiftr ((b / 65536) mod 256) 7) (Z.ones 1)).
  rewrite !Z.land_ones, !Z.shiftr_div_pow2 by lia.
  rewrite lor_shiftl_add by (try lia; apply Z.mod_pos_bound; reflexivity).
  change (2 ^ 7) with 128. change (2 ^ 1) with 2.
  change (2 ^ 23) with 8388608. change (2 ^ 8) with 256.
  Z.div_mod_to_equations. lia.
Qed.

Lemma fraction_field (b : Z) :
  0 <= b < 4294967296 ->
  Z.lor (Z.lor (Z.shiftl (Z.land ((b / 65536) mod 256) 127) 16)
               (Z.shiftl ((b / 256) mod 256) 8))
        (b mod 256)
  = Z.land b 8388607.
Proof.
  intros Hb. change 127 with (Z.ones 7). change 8388607 with (Z.ones 23).
  rewrite !Z.land_ones by lia.
  rewrite <- Z.lor_assoc.
  rewrite (lor_shiftl_add ((b / 256) mod 256) 8)
    by (try lia; apply Z.mod_pos_bound; reflexivity).
  change (2 ^ 8) with 256.
  replace ((b / 256) mod 256 * 256 + b mod 256) with (b mod 65536)
    by (Z.div_mod_to_equations; lia).
  rewrite lor_shiftl_add by (try lia; apply Z.mod_pos_bound; reflexivity).
  change (2 ^ 7) with 128. change (2 ^ 16) with 65536.
  change (2 ^ 23) with 8388608.
  Z.div_mod_to_equations. lia.
Qed.

Lemma pack_I_in_range (b : Z) :
  0 <= b < 4294967296 ->
  Py.pack_I b = Ok [Z.land (Z.shiftr b 24) 255; Z.land (Z.shiftr b 16) 255;
                    Z.land (Z.shiftr b 8) 255; Z.land b 255].
Proof.
  intros Hb. unfold Py.pack_I.
  destruct (Z.leb_spec 0 b); [|lia].
  destruct (Z.leb_spec b 4294967295); [reflexivity|lia].
Qed.

Lemma pack_I_out_of_range (v : Z) :
  v < 0 \/ 4294967296 <= v -> Py.pack_I v = Raise StructError.
Proof.
  intros Hv. unfold Py.pack_I.
  destruct (Z.leb_spec 0 v); [|reflexivity].
  destruct (Z.leb_spec v 4294967295); [lia|reflexivity].
Qed.

(** Packing a pattern and unpacking the four bytes reads the same
    fields as reading the pattern's bits directly. *)
Lemma unpack_pack (b : Z) :
  0 <= b < 4294967296 ->
  (bytes <- Py.pack_I b ;; Py.unpack_f bytes) = Ok (binary32_of_bits b).
Proof.
  intros Hb. rewrite pack_I_in_range by assumption.
  destruct (bytes_as_div_mod b) as (-> & -> & -> & ->).
  unfold bind, Py.unpack_f, binary32_of_bits.
  now rewrite sign_field, exponent_field, fraction_field.
Qed.

Lemma decode_entry_hex8 (upper : bool) (b : Z) :
  0 <= b < 4294967296 ->
  decode_entry (hex8 upper b) = Ok (Some (binary32_of_bits b)).
Proof.
  intros Hb. unfold decode_entry, Py.int.
  rewrite int_of_hex8 by assumption.
  pose proof (unpack_pack b Hb) as H.
  destruct (Py.pack_I b) as [bytes|e]; [|discriminate].
  simpl in *. now rewrite H.
Qed.

Lemma decode_entry_value_error (s : string) :
  Py.int_of_string 16 s = None -> decode_entry s = Ok None.
Proof. intros H. unfold decode_entry, Py.int. now rewrite H. Qed.

(** *** What [int(s, 16)] accepts *)

Ltac each_char c :=
  destruct c as [[] [] [] [] [] [] [] []]; try discriminate; try reflexivity.

Lemma hex_char_plain (c : ascii) :
  is_hex_digit c = true ->
  Py.is_int_space c = false /\ Ascii.eqb c "+" = false /\
  Ascii.eqb c "-" = false /\ Ascii.eqb c "_" = false /\
  Ascii.eqb c "x" = false /\ Ascii.eqb c "X" = false.
Proof. each_char c; intros _; repeat split. Qed.

Lemma tolerated_space (c : ascii) : Py.is_int_space c = true -> tolerated c = true.
Proof. intros H. unfold tolerated. rewrite H, ?Bool.orb_true_r. reflexivity. Qed.

Lemma tolerated_digit (c : ascii) (d : Z) :
  Py.digit_in 16 c = Some d -> tolerated c = true.
Proof. intros H. unfold tolerated, is_hex_digit. now rewrite H. Qed.

Lemma tolerated_eqb (c c' : ascii) :
  Ascii.eqb c c' = true -> tolerated c' = true -> tolerated c = true.
Proof. intros H. apply Ascii.eqb_eq in H. now subst. Qed.

Lemma skip_int_space_tolerated (s : string) :
  string_forallb tolerated (Py.skip_int_space s) = true ->
  string_forallb tolerated s = true.
Proof.
  induction s as [|c r IH]; simpl; [trivial|].
  destruct (Py.is_int_space c) eqn:E; [|trivial].
  intros H. now rewrite (tolerated_space c E), IH.
Qed.

Lemma skip_int_space_empty (s : string) :
  Py.skip_int_space s = EmptyString -> string_forallb tolerated s = true.
Proof.
  induction s as [|c r IH]; simpl; [trivial|].
  destruct (Py.is_int_space c) eqn:E; [|discriminate].
  intros H. now rewrite (tolerated_space c E), IH.
Qed.

Lemma strip_sign_tolerated (s : string) :
  string_forallb tolerated (snd (Py.strip_sign s)) = true ->
  string_forallb tolerated s = true.
Proof.
  destruct s as [|c r]; simpl; [trivial|].
  destruct (Ascii.eqb c "+") eqn:Ep; simpl.
  - intros H. now rewrite H, (tolerated_eqb c "+" Ep).
  - destruct (Ascii.eqb c "-") eqn:Em; simpl; [|trivial].
    intros H. now rewrite H, (tolerated_eqb c "-" Em).
Qed.

Lemma strip_base_prefix_tolerated (s : string) :
  string_forallb tolerated (Py.strip_base_prefix 16 s) = true ->
  string_forallb tolerated s = true.
Proof.
  destruct s as [|c0 [|c1 r]]; simpl; trivial.
  destruct (Ascii.eqb c0 "0") eqn:E0; simpl; trivial.
  destruct (Ascii.eqb c1 "x" || Ascii.eqb c1 "X")%bool eqn:E1; trivial.
  assert (T0 : tolerated c0 = true) by now apply (tolerated_eqb c0 "0" E0).
  assert (T1 : tolerated c1 = true).
  { apply Bool.orb_true_iff in E1 as [E|E];
      [ now apply (tolerated_eqb c1 "x" E) | now apply (tolerated_eqb c1 "X" E) ]. }
  rewrite T0, T1. simpl.
  destruct r as [|c2 r']; trivial.
  destruct (Ascii.eqb c2 "_") eqn:E2; trivial.
  intros H. simpl. now rewrite H, (tolerated_eqb c2 "_" E2).
Qed.

Lemma scan_digits_tolerated (s : string) :
  forall acc n p v n' rest,
    Py.scan_digits 16 acc n p s = Some (v, n', rest) ->
    string_forallb tolerated rest = true ->
    string_forallb tolerated s = true.
Proof.
  induction s as [|c r IH]; intros acc n p v n' rest; simpl.
  - trivial.
  - destruct (Ascii.eqb c "_") eqn:Eu.
    + destruct p; [discriminate|]. intros H Hr.
      rewrite (tolerated_eqb c "_" Eu) by reflexivity.
      now apply (IH _ _ _ _ _ _ H).
    + destruct (Py.digit_in 16 c) as [d|] eqn:Ed.
      * intros H Hr. rewrite (tolerated_digit c d Ed).
        now apply (IH _ _ _ _ _ _ H).
      * destruct p; [discriminate|]. intros [= _ _ <-]. trivial.
Qed.

(** Every character of a literal that [int(s, 16)] accepts is a
    hexadecimal digit, whitespace, a sign, an underscore or an [x]. *)
Lemma int_of_string_tolerated (s : string) (v : Z) :
  Py.int_of_string 16 s = Some v -> string_forallb tolerated s = true.
Proof.
  unfold Py.int_of_string. intros H.
  apply skip_int_space_tolerated, strip_sign_tolerated.
  destruct (Py.strip_sign (Py.skip_int_space s)) as [neg s1]. simpl.
  apply strip_base_prefix_tolerated.
  destruct (Py.starts_with_underscore (Py.strip_base_prefix 16 s1));
    [discriminate|].
  destruct (Py.scan_digits 16 0 0 false (Py.strip_base_prefix 16 s1))
    as [[[v' n] rest]|] eqn:Escan; [|discriminate].
  apply (scan_digits_tolerated _ _ _ _ _ _ _ Escan).
  destruct n; [discriminate|].
  destruct (Py.skip_int_space rest) eqn:Erest; [|discriminate].
  now apply skip_int_space_empty.
Qed.

Lemma forallb_existsb_negb (p : ascii -> bool) (s : string) :
  string_existsb (fun c => negb (p c)) s = true ->
  string_forallb p s = false.
Proof.
  induction s as [|c r IH]; simpl; [discriminate|].
  destruct (p c); simpl; trivial.
Qed.

Lemma int_of_string_rejects (s : string) :
  string_existsb (fun c => negb (tolerated c)) s = true ->
  Py.int_of_string 16 s = None.
Proof.
  intros H. apply forallb_existsb_negb in H.
  destruct (Py.int_of_string 16 s) as [v|] eqn:E; [|reflexivity].
  apply int_of_string_tolerated in E. congruence.
Qed.

(** *** Strings of hexadecimal digits only *)

Lemma scan_all_hex (s : string) :
  string_forallb is_hex_digit s = true ->
  forall acc n, 0 <= acc ->
    exists v, Py.scan_digits 16 acc n false s
              = Some (v, (n + String.length s)%nat, EmptyString)
              /\ acc * 16 ^ Z.of_nat (String.length s) <= v.
Proof.
  induction s as [|c r IH]; intros Hall acc n Hacc.
  - exists acc. simpl. rewrite Nat.add_0_r. split; [reflexivity|lia].
  - simpl in Hall. apply Bool.andb_true_iff in Hall as [Hc Hr].
    destruct (hex_char_plain c Hc) as (_ & _ & _ & Hu & _).
    unfold is_hex_digit in Hc.
    destruct (Py.digit_in 16 c) as [d|] eqn:Ed; [|discriminate].
    assert (Hd : 0 <= d).
    { clear -Ed. each_char c; cbv in Ed; injection Ed as <-; lia. }
    destruct (IH Hr (acc * 16 + d) (S n) ltac:(lia)) as (v & Hv & Hle).
    exists v. rewrite (scan_digits_step 16 acc n c r d Hu Ed), Hv.
    split.
    + f_equal. f_equal. f_equal. simpl. lia.
    + simpl String.length. rewrite Nat2Z.inj_succ, Z.pow_succ_r by lia.
      assert (0 <= 16 ^ Z.of_nat (String.length r)) by (apply Z.pow_nonneg; lia).
      nia.
Qed.

Lemma int_of_all_hex (s : string) :
  s <> EmptyString ->
  string_forallb is_hex_digit s = true ->
  exists v, Py.int_of_string 16 s = Some v /\
            Py.scan_digits 16 0 0 false s
            = Some (v, String.length s, EmptyString).
Proof.
  intros Hne Hall.
  destruct (scan_all_hex s Hall 0 0%nat ltac:(lia)) as (v & Hv & _).
  exists v. split; [|exact Hv].
  destruct s as [|c r]; [congruence|].
  pose proof Hall as Hall'. simpl in Hall'.
  apply Bool.andb_true_iff in Hall' as [Hc Hr].
  destruct (hex_char_plain c Hc) as (Hs & Hp & Hm & Hu & _).
  unfold Py.int_of_string.
  cbn [Py.skip_int_space]. rewrite Hs.
  cbn [Py.strip_sign]. rewrite Hp, Hm.
  assert (Hpre : Py.strip_base_prefix 16 (String c r) = String c r).
  { destruct r as [|c1 r']; [reflexivity|].
    simpl in Hr. apply Bool.andb_true_iff in Hr as [Hc1 _].
    destruct (hex_char_plain c1 Hc1) as (_ & _ & _ & _ & Hx & HX).
    cbn [Py.strip_base_prefix]. rewrite Hx, HX.
    now rewrite Bool.andb_false_r. }
  rewrite Hpre. cbn [Py.starts_with_underscore]. rewrite Hu, Hv.
  reflexivity.
Qed.

(** Nine or more hexadecimal digits, the first not [0], denote at least
    [2^32]. *)
Lemma long_hex_overflows (c : ascii) (r : string) (d : Z) :
  Py.digit_in 16 c = Some d -> 0 < d ->
  string_forallb is_hex_digit r = true ->
  (8 <= String.length r)%nat ->
  exists v, Py.int_of_string 16 (String c r) = Some v /\ 4294967296 <= v.
Proof.
  intros Hd Hpos Hr Hlen.
  assert (Hc : is_hex_digit c = true) by (unfold is_hex_digit; now rewrite Hd).
  assert (Hall : string_forallb is_hex_digit (String c r) = true)
    by (simpl; now rewrite Hc).
  destruct (int_of_all_hex (String c r) ltac:(discriminate) Hall)
    as (v & Hv & Hscan).
  exists v. split; [exact Hv|].
  destruct (hex_char_plain c Hc) as (_ & _ & _ & Hu & _).
  rewrite (scan_digits_step 16 0 0 c r d Hu Hd) in Hscan.
  destruct (scan_all_hex r Hr (0 * 16 + d) 1%nat ltac:(lia)) as (v' & Hv' & Hle).
  rewrite Hv' in Hscan. assert (v = v') by congruence. subst v'.
  assert (16 ^ 8 <= 16 ^ Z.of_nat (String.length r))
    by (apply Z.pow_le_mono_r; lia).
  change (16 ^ 8) with 4294967296 in *. nia.
Qed.

(** *** The loop of [hex_to_float] *)

Lemma hex_to_float_loop_app (l1 l2 : list string) :
  forall acc,
    hex_to_float_loop acc (l1 ++ l2)
    = (acc' <- hex_to_float_loop acc l1 ;; hex_to_float_loop acc' l2).
Proof.
  induction l1 as [|s l1 IH]; intros acc; simpl; [reflexivity|].
  destruct (decode_entry s) as [[x|]|e]; simpl; auto.
Qed.

Lemma hex_to_float_skips (before after : list string) (s : string) :
  decode_entry s = Ok None ->
  hex_to_float (before ++ s :: after) = hex_to_float (before ++ after).
Proof.
  intros H. unfold hex_to_float. rewrite !hex_to_float_loop_app.
  destruct (hex_to_float_loop [] before) as [acc|e]; simpl; [|reflexivity].
  now rewrite H.
Qed.

Lemma hex_to_float_raises (before after : list string) (s : string)
      (floats : list float) (e : exn) :
  hex_to_float before = Ok floats ->
  decode_entry s = Raise e ->
  hex_to_float (before ++ s :: after) = Raise e.
Proof.
  unfold hex_to_float. intros Hb Hs.
  rewrite hex_to_float_loop_app, Hb. simpl. now rewrite Hs.
Qed.

Lemma decode_entry_out_of_range (s : string) (v : Z) :
  Py.int_of_string 16 s = Some v ->
  v < 0 \/ 4294967296 <= v ->
  decode_entry s = Raise StructError.
Proof.
  intros Hs Hv. unfold decode_entry, Py.int.
  now rewrite Hs, (pack_I_out_of_range v Hv).
Qed.

Lemma hex_to_float_loop_hex8 (upper : bool) (bs : list Z) :
  Forall (fun b => 0 <= b < 4294967296) bs ->
  forall acc,
    hex_to_float_loop acc (map (hex8 upper) bs)
    = Ok (acc ++ map binary32_of_bits bs)%list.
Proof.
  induction 1 as [|b bs Hb _ IH]; intros acc; cbn [map hex_to_float_loop].
  - now rewrite app_nil_r.
  - rewrite (decode_entry_hex8 upper b Hb). cbn [bind].
    rewrite IH, <- app_assoc. reflexivity.
Qed.

(** C4 (as amended). Decoding the 8-hex-digit representations of 32-bit
    patterns yields, entry by entry, the floats read directly from the
    patterns' bits as big-endian binary32; and an entry that
    [int(_, 16)] rejects is dropped from the output while the other
    entries are processed as before. Among the strings of this model,
    whose characters are the code points below 256, [int(_, 16)] rejects
    every entry that contains a character other than a hexadecimal
    digit, whitespace, a sign, an underscore or the letter x. (Past code
    point 255 the interpreter also takes the other decimal digits and
    the other whitespace of Unicode; such entries are outside the
    strings modelled here and the statement says nothing of them.) *)
Theorem hex_round_trip :
  (forall (upper : bool) (bs : list Z),
      Forall (fun b => 0 <= b < 4294967296) bs ->
      hex_to_float (map (hex8 upper) bs) = Ok (map binary32_of_bits bs)) /\
  (forall (before after : list string) (s : string),
      Py.int_of_string 16 s = None ->
      hex_to_float (before ++ s :: after) = hex_to_float (before ++ after)) /\
  (forall s : string,
      string_existsb (fun c => negb (tolerated c)) s = true ->
      Py.int_of_string 16 s = None) /\
  (forall (before after : list string) (s : string),
      string_existsb (fun c => negb (tolerated c)) s = true ->
      hex_to_float (before ++ s :: after) = hex_to_float (before ++ after)).
Proof.
  split; [|split; [|split]].
  - intros upper bs Hbs. unfold hex_to_float.
    now rewrite hex_to_float_loop_hex8.
  - intros before after s Hnone.
    now apply hex_to_float_skips, decode_entry_value_error.
  - apply int_of_string_rejects.
  - intros before after s Hbad.
    apply hex_to_float_skips, decode_entry_value_error.
    now apply int_of_string_rejects.
Qed.

Lemma hex_round_trip_witness :
  hex_to_float (map (hex8 false) [1065353216; 3212836864])
  = Ok (map binary32_of_bits [1065353216; 3212836864]) /\
  hex_to_float (["3f800000"] ++ "3f8z0000" :: ["40000000"])
  = hex_to_float (["3f800000"] ++ ["40000000"]).
Proof.
  split.
  - apply (proj1 hex_round_trip false [1065353216; 3212836864]).
    repeat constructor; lia.
  - apply (proj2 (proj2 (proj2 hex_round_trip))
             ["3f800000"] ["40000000"] "3f8z0000").
    reflexivity.
Defined.

(** C4 as stated fails: ["0x3f800000"] contains the non-hexadecimal
    character [x] and is decoded to [1.0], not dropped; ["-1"] contains
    [-] and makes the decoder raise. *)
Lemma hex_prefixed_entry_is_kept :
  string_existsb (fun c => negb (is_hex_digit c)) "0x3f800000" = true /\
  hex_to_float ["0x3f800000"] = Ok [1%float] /\
  string_existsb (fun c => negb (is_hex_digit c)) "-1" = true /\
  hex_to_float ["-1"] = Raise StructError.
Proof. repeat split. Qed.

(** C8 (as amended). Some string of hexadecimal digits only makes
    [hex_to_float] raise [struct.error]: every literal whose value lies
    outside [0, 2^32) does, in particular nine or more hexadecimal
    digits of which the first is not [0]; the skip branch absorbs the
    [ValueError] of [int] only. *)
Theorem hex_overflow_raises :
  (exists s, string_forallb is_hex_digit s = true /\
             hex_to_float [s] = Raise StructError) /\
  (forall (before after : list string) (floats : list float) (s : string) (v : Z),
      hex_to_float before = Ok floats ->
      Py.int_of_string 16 s = Some v ->
      v < 0 \/ 4294967296 <= v ->
      hex_to_float (before ++ s :: after) = Raise StructError) /\
  (forall (c : ascii) (r : string) (d : Z),
      Py.digit_in 16 c = Some d -> 0 < d ->
      string_forallb is_hex_digit r = true ->
      (8 <= String.length r)%nat ->
      hex_to_float [String c r] = Raise StructError) /\
  (forall (before after : list string) (s : string),
      Py.int 16 s = Raise ValueError ->
      hex_to_float (before ++ s :: after) = hex_to_float (before ++ after)).
Proof.
  split; [|split; [|split]].
  - exists "100000000". split; reflexivity.
  - intros before after floats s v Hb Hs Hv.
    apply (hex_to_float_raises before after s floats StructError Hb).
    now apply (decode_entry_out_of_range s v).
  - intros c r d Hd Hpos Hr Hlen.
    destruct (long_hex_overflows c r d Hd Hpos Hr Hlen) as (v & Hv & Hbig).
    apply (hex_to_float_raises [] [] _ [] StructError eq_refl).
    apply (decode_entry_out_of_range _ v Hv). now right.
  - intros before after s Hs.
    apply hex_to_float_skips, decode_entry_value_error.
    unfold Py.int in Hs. now destruct (Py.int_of_string 16 s).
Qed.

Lemma hex_overflow_raises_witness :
  hex_to_float (["3f800000"] ++ "1ffffffff" :: ["40000000"])
  = Raise StructError /\
  hex_to_float ["abcdef012"] = Raise StructError /\
  hex_to_float (["3f800000"] ++ "xyz" :: ["40000000"])
  = hex_to_float (["3f800000"] ++ ["40000000"]).
Proof.
  destruct hex_overflow_raises as (_ & Hrange & Hlong & Hskip).
  split; [|split].
  - apply (Hrange ["3f800000"] ["40000000"] [1%float] "1ffffffff" 8589934591).
    + reflexivity.
    + reflexivity.
    + right. lia.
  - apply (Hlong "a"%char "bcdef012" 10); [reflexivity | lia | reflexivity |].
    simpl. lia.
  - apply (Hskip ["3f800000"] ["40000000"] "xyz"). reflexivity.
Defined.

(** C8 as stated fails: ["000000001"] is a string of nine hexadecimal
    digits; its value 1 is in range, and it decodes to the smallest
    positive binary32 instead of raising. *)
Lemma nine_digits_with_leading_zeros_decode :
  string_forallb is_hex_digit "000000001" = true /\
  String.length "000000001" = 9%nat /\
  Py.int_of_string 16 "000000001" = Some 1 /\
  hex_to_float ["000000001"] = Ok [binary32_of_bits 1] /\
  binary32_of_bits 1 = 0x1p-149%float.
Proof. repeat split. Qed.

(** ** Properties of the segmenter *)

Section Segmenter.

Local Open Scope nat_scope.

Lemma scan_line_unfold (st : scan_state) (line : string) :
  scan_line st line
  = let st1 := if sentinel_transition (prev_line st) (columns_of line)
               then toggle st else st in
    let st2 := capture (Py.strip line) st1 in
    {| all_results := all_results st2; result := result st2;
       size_line := size_line st2; is_saving := is_saving st2;
       prev_line := Some line |}.
Proof. reflexivity. Qed.

Lemma scan_line_well_formed (st : scan_state) (line : string) :
  well_formed st -> well_formed (scan_line st line).
Proof.
  unfold well_formed. rewrite scan_line_unfold.
  destruct (sentinel_transition (prev_line st) (columns_of line));
    unfold toggle, capture; destruct (is_saving st) eqn:Es; simpl;
    rewrite ?Es; intros H; try assumption; try reflexivity;
    intros E; apply app_eq_nil in E as [_ E]; discriminate.
Qed.

Lemma scan_line_prev (st : scan_state) (line : string) :
  prev_line (scan_line st line) = Some line.
Proof. reflexivity. Qed.

Lemma pending_closing (T : nat) : 1 + (T + 1) / 2 = 1 + (1 + T) / 2.
Proof. now rewrite (Nat.add_comm 1 T). Qed.

Lemma pending_opening (T : nat) : 1 + T / 2 = (1 + T + 1) / 2.
Proof.
  replace (1 + T + 1) with (T + 1 * 2) by lia.
  rewrite Nat.div_add by lia. lia.
Qed.

(** The number of segments from a state on: an open segment counts, and
    every second transition after it opens another. *)
Lemma emitted_count (lines : list string) :
  forall st,
    well_formed st ->
    List.length (fst (finish (fold_left scan_line lines st)))
    = List.length (all_results st)
      + (if is_saving st
         then 1 + count_transitions (prev_line st) lines / 2
         else (count_transitions (prev_line st) lines + 1) / 2).
Proof.
  induction lines as [|line rest IH]; intros st Hwf.
  - unfold well_formed in Hwf. unfold finish.
    cbn [fold_left fst count_transitions].
    destruct (is_saving st).
    + destruct (result st); [congruence|].
      rewrite length_app. reflexivity.
    + rewrite Hwf. change ((0 + 1) / 2) with 0. lia.
  - cbn [fold_left].
    rewrite (IH _ (scan_line_well_formed st line Hwf)).
    cbn [count_transitions]. rewrite scan_line_prev.
    generalize (count_transitions (Some line) rest). intros T.
    rewrite scan_line_unfold.
    destruct (sentinel_transition (prev_line st) (columns_of line));
      unfold toggle, capture; destruct (is_saving st) eqn:Es;
      cbn [all_results is_saving]; rewrite ?Es; cbn [all_results is_saving].
    + rewrite length_app. cbn [List.length].
      rewrite <- pending_closing. lia.
    + now rewrite <- pending_opening.
    + reflexivity.
    + reflexivity.
Qed.

Lemma segments_count (lines : list string) :
  List.length (fst (find_and_save_complex_lines lines))
  = ceil_half (transitions lines).
Proof.
  unfold find_and_save_complex_lines.
  rewrite emitted_count by reflexivity. reflexivity.
Qed.

End Segmenter.

(** C5. A trace with [T] sentinel transitions yields at most
    [ceil(T/2) + 1] segments (exactly [ceil(T/2)]), and a transition met
    while not capturing leaves the emitted segments as they are: it
    turns capture on and starts the open segment with the current
    line. *)
Theorem segment_toggle_invariant :
  (forall lines : list string,
      (List.length (fst (find_and_save_complex_lines lines))
       <= ceil_half (transitions lines) + 1)%nat /\
      List.length (fst (find_and_save_complex_lines lines))
      = ceil_half (transitions lines)) /\
  (forall (st : scan_state) (line : string),
      is_saving st = false ->
      sentinel_transition (prev_line st) (columns_of line) = true ->
      all_results (scan_line st line) = all_results st /\
      is_saving (scan_line st line) = true /\
      result (scan_line st line) = (result st ++ [Py.strip line])%list).
Proof.
  split.
  - intros lines. rewrite segments_count. split; [lia|reflexivity].
  - intros st line Hidle Ht. rewrite scan_line_unfold, Ht.
    unfold toggle, capture. rewrite Hidle. simpl. rewrite ?Hidle. auto.
Qed.

(** On the sample trace: three transitions, two segments; and the first
    transition, met while idle, emits nothing. *)
Lemma segment_toggle_invariant_witness :
  ((List.length (fst (find_and_save_complex_lines sample_trace))
    <= ceil_half (transitions sample_trace) + 1)%nat /\
   List.length (fst (find_and_save_complex_lines sample_trace))
   = ceil_half (transitions sample_trace)) /\
  (let st := fold_left scan_line (firstn 1 sample_trace) initial_state in
   let line := nth 1 sample_trace "" in
   all_results (scan_line st line) = all_results st /\
   is_saving (scan_line st line) = true /\
   result (scan_line st line) = (result st ++ [Py.strip line])%list).
Proof.
  split.
  - apply (proj1 segment_toggle_invariant sample_trace).
  - apply (proj2 segment_toggle_invariant
             (fold_left scan_line (firstn 1 sample_trace) initial_state)
             (nth 1 sample_trace "")).
    + vm_compute. reflexivity.
    + vm_compute. reflexivity.
Defined.

(** *** Where the emitted segments come from *)

Lemma last_line_snoc (done : list string) (line : string) :
  last_line (done ++ [line]) = Some line.
Proof.
  unfold last_line. rewrite last_last.
  destruct done; reflexivity.
Qed.

Lemma closed_in_snoc (done : list string) (line : string) (seg : list string) :
  closed_in done seg -> closed_in (done ++ [line]) seg.
Proof.
  intros (pre & mid & c & post' & Hdone & Hseg & Hopen & Hclose).
  exists pre, mid, c, (post' ++ [line])%list. repeat split; trivial.
  rewrite Hdone, <- !app_assoc. reflexivity.
Qed.

Lemma opens_snoc (pre mid : list string) (line : string) :
  opens pre mid -> opens pre (mid ++ [line]).
Proof.
  intros (o & rest & -> & Ht). exists o, (rest ++ [line])%list.
  split; [reflexivity|assumption].
Qed.

Lemma scan_line_invariant (done : list string) (st : scan_state) (line : string) :
  scan_invariant done st ->
  scan_invariant (done ++ [line]) (scan_line st line).
Proof.
  intros (Hprev & Hclosed & Hopen).
  assert (Hclosed' : Forall (closed_in (done ++ [line])) (all_results st)).
  { eapply Forall_impl; [|exact Hclosed]. intros seg. apply closed_in_snoc. }
  unfold scan_invariant. rewrite scan_line_prev, last_line_snoc.
  split; [reflexivity|].
  rewrite scan_line_unfold. unfold open_in in *.
  destruct (sentinel_transition (prev_line st) (columns_of line)) eqn:Ht;
    unfold toggle, capture; destruct (is_saving st) eqn:Es; simpl;
    rewrite ?Es.
  - (* capturing, transition: the open segment is closed by [line] *)
    destruct Hopen as (pre & mid & Hdone & Hres & Ho).
    split; [|reflexivity].
    apply Forall_app. split; [assumption|].
    constructor; [|constructor].
    exists pre, mid, line, []. repeat split; trivial.
    + rewrite Hdone, <- app_assoc. reflexivity.
    + rewrite <- Hdone, <- Hprev. exact Ht.
  - (* idle, transition: [line] opens a segment *)
    split; [assumption|].
    exists done, [line]. rewrite Hopen. repeat split.
    exists line, []. split; [reflexivity|]. now rewrite <- Hprev.
  - (* capturing, no transition: [line] is appended *)
    destruct Hopen as (pre & mid & Hdone & Hres & Ho).
    split; [assumption|].
    exists pre, (mid ++ [line])%list. repeat split.
    + rewrite Hdone, <- app_assoc. reflexivity.
    + rewrite Hres, map_app. reflexivity.
    + now apply opens_snoc.
  - split; assumption.
Qed.

Lemma fold_scan_invariant (lines : list string) :
  forall done st,
    scan_invariant done st ->
    scan_invariant (done ++ lines) (fold_left scan_line lines st).
Proof.
  induction lines as [|line rest IH]; intros done st Hinv; simpl.
  - now rewrite app_nil_r.
  - replace (done ++ line :: rest)%list with ((done ++ [line]) ++ rest)%list
      by (rewrite <- app_assoc; reflexivity).
    apply IH. now apply scan_line_invariant.
Qed.

Lemma initial_invariant : scan_invariant [] initial_state.
Proof. repeat split. constructor. Qed.

Lemma emitted_segments (lines : list string) (seg : list string) :
  In seg (fst (find_and_save_complex_lines lines)) ->
  emitted_from lines seg.
Proof.
  unfold find_and_save_complex_lines.
  pose proof (fold_scan_invariant lines [] initial_state initial_invariant)
    as (_ & Hclosed & Hopen).
  simpl app in *.
  set (st := fold_left scan_line lines initial_state) in *.
  assert (Hall : In seg (all_results st) -> emitted_from lines seg).
  { intros Hin. rewrite Forall_forall in Hclosed.
    destruct (Hclosed seg Hin) as (pre & mid & c & post' & Hl & Hs & Ho & Hc).
    exists pre, mid, (c :: post'). repeat split; trivial.
    right. exists c, post'. split; [reflexivity|assumption]. }
  unfold finish. simpl.
  destruct (result st) as [|x r] eqn:Hres; [exact Hall|].
  intros Hin. apply in_app_or in Hin as [Hin|[<-|[]]]; [now apply Hall|].
  unfold open_in in Hopen. destruct (is_saving st).
  - destruct Hopen as (pre & mid & Hl & Hs & Ho).
    exists pre, mid, []. rewrite app_nil_r. repeat split; trivial.
    + congruence.
    + now left.
  - congruence.
Qed.

Lemma sentinel_transition_field (prev : option string) (columns : list string) :
  sentinel_transition prev columns = true ->
  (6 < List.length columns)%nat /\ nth 6 columns "" = "00000456".
Proof.
  unfold sentinel_transition. destruct prev as [p|]; [|discriminate].
  intros H.
  apply Bool.andb_true_iff in H as [_ H].
  apply Bool.andb_true_iff in H as [H Hcur].
  apply Bool.andb_true_iff in H as [H _].
  apply Bool.andb_true_iff in H as [_ Hlen].
  split.
  - now apply Nat.ltb_lt.
  - now apply String.eqb_eq.
Qed.

(** C9. Every emitted segment is non-empty and is the stripped text of a
    block of consecutive trace lines: the block starts at the second
    line of the opening transition, whose field 6 is ["00000456"], and
    it ends just before the line of the closing transition (which lies
    outside the block) or at the end of the file. *)
Theorem emitted_segment_shape :
  forall (lines : list string) (seg : list string),
    In seg (fst (find_and_save_complex_lines lines)) ->
    seg <> [] /\
    (exists pre o rest post,
        lines = (pre ++ (o :: rest) ++ post)%list /\
        seg = Py.strip o :: map Py.strip rest /\
        sentinel_transition (last_line pre) (columns_of o) = true /\
        nth 6 (Py.split (Py.strip o)) "" = "00000456" /\
        closes pre (o :: rest) post).
Proof.
  intros lines seg Hin.
  destruct (emitted_segments lines seg Hin)
    as (pre & mid & post & Hl & Hs & (o & rest & -> & Ht) & Hc).
  split.
  - rewrite Hs. discriminate.
  - exists pre, o, rest, post. repeat split; trivial.
    now apply (sentinel_transition_field _ _ Ht).
Qed.

(** The first segment of the sample trace. *)
Lemma emitted_segment_shape_witness :
  let seg := map Py.strip (firstn 7 (skipn 1 sample_trace)) in
  seg <> [] /\
  (exists pre o rest post,
      sample_trace = (pre ++ (o :: rest) ++ post)%list /\
      seg = Py.strip o :: map Py.strip rest /\
      sentinel_transition (last_line pre) (columns_of o) = true /\
      nth 6 (Py.split (Py.strip o)) "" = "00000456" /\
      closes pre (o :: rest) post).
Proof.
  apply (emitted_segment_shape sample_trace
           (map Py.strip (firstn 7 (skipn 1 sample_trace)))).
  vm_compute. left. reflexivity.
Defined.

(** ** Properties of the accuracy analyzer *)

Section AnalyzerFacts.

Variable cabs : complex -> float.
Variable atan2 : float -> float -> float.
Variable fsum : list float -> float.





(** What a successful analysis returns. *)
Lemma analyze_ok (a b : list complex) (st : statistics) :
  analyze_fft_accuracy cabs atan2 fsum a b = Ok st ->
  Py.max (magnitude_errors cabs a b) = Ok (max_mag_error st) /\
  Py.max (phase_errors atan2 a b) = Ok (max_phase_error st) /\
  verdict st
  = (PrimFloat.ltb (max_mag_error st) mag_threshold
     && PrimFloat.ltb (max_phase_error st) phase_threshold)%bool.
Proof.
  unfold analyze_fft_accuracy.
  destruct (Py.max (magnitude_errors cabs a b)) as [mm|e]; [|discriminate].
  cbn [bind].
  destruct (div_by_len _ _) as [am|e]; [|discriminate]. cbn [bind].
  destruct (Py.max (phase_errors atan2 a b)) as [mp|e]; [|discriminate].
  cbn [bind].
  destruct (div_by_len _ _) as [ap|e]; [|discriminate]. cbn [bind].
  intros [= <-]. cbn [max_mag_error max_phase_error verdict]. auto.
Qed.


End AnalyzerFacts.

(** The literals are the doubles nearest to 1/1000 and 999/1000000. *)
Lemma thresholds_as_quotients :
  mag_threshold = (1 / 1000)%float /\
  just_below_threshold = (999 / 1000000)%float.
Proof. split; vm_compute; reflexivity. Qed.

(** C3. When the analysis returns, the verdict is pass if and only if
    the maximum magnitude error is strictly below [1e-3] and the maximum
    phase error is strictly below [5.0]; a maximum magnitude error of
    exactly [1e-3] gives fail, and a maximum magnitude error of
    [0.999e-3] with maximum phase error [0.0] gives pass. *)
Theorem pass_fail_boundary :
  forall (cabs : complex -> float) (atan2 : float -> float -> float)
         (fsum : list float -> float) (a b : list complex) (st : statistics),
    analyze_fft_accuracy cabs atan2 fsum a b = Ok st ->
    Py.max (magnitude_errors cabs a b) = Ok (max_mag_error st) /\
    Py.max (phase_errors atan2 a b) = Ok (max_phase_error st) /\
    (verdict st = true <->
     PrimFloat.ltb (max_mag_error st) mag_threshold = true /\
     PrimFloat.ltb (max_phase_error st) phase_threshold = true) /\
    (max_mag_error st = mag_threshold -> verdict st = false) /\
    (max_mag_error st = just_below_threshold ->
     max_phase_error st = 0%float -> verdict st = true).
Proof.
  intros cabs atan2 fsum a b st Hok.
  destruct (analyze_ok cabs atan2 fsum a b st Hok) as (Hm & Hp & Hv).
  split; [exact Hm|]. split; [exact Hp|]. rewrite Hv.
  split; [apply Bool.andb_true_iff|]. split.
  - intros E. rewrite E. reflexivity.
  - intros E1 E2. rewrite E1, E2. reflexivity.
Qed.

(** The candidate [0.001 + 0j] against the reference [0j]: the analysis
    returns maximum magnitude error [1e-3] and the verdict is fail. *)
Lemma pass_fail_boundary_witness :
  let a := [Complex mag_threshold 0%float] in
  let b := [Complex 0%float 0%float] in
  let st := {| max_mag_error := mag_threshold; avg_mag_error := mag_threshold;
               max_phase_error := 0%float; avg_phase_error := 0%float;
               verdict := false |} in
  Py.max (magnitude_errors cabs_on_axis a b) = Ok (max_mag_error st) /\
  Py.max (phase_errors atan2_on_axis a b) = Ok (max_phase_error st) /\
  (verdict st = true <->
   PrimFloat.ltb (max_mag_error st) mag_threshold = true /\
   PrimFloat.ltb (max_phase_error st) phase_threshold = true) /\
  (max_mag_error st = mag_threshold -> verdict st = false) /\
  (max_mag_error st = just_below_threshold ->
   max_phase_error st = 0%float -> verdict st = true).
Proof.
  intros a b st.
  apply (pass_fail_boundary cabs_on_axis atan2_on_axis sum_from_left a b st).
  vm_compute. reflexivity.
Defined.



(** ** Properties of the entry point *)

Lemma capture_size_line (line_strip : string) (st : scan_state) :
  Py.contains "c.mv     a1" line_strip = false ->
  size_line (capture line_strip st) = size_line st.
Proof.
  intros H. unfold capture. destruct (is_saving st); [|reflexivity].
  cbn [size_line]. now rewrite H.
Qed.

Lemma scan_line_size_line (st : scan_state) (line : string) :
  Py.contains "c.mv     a1" (Py.strip line) = false ->
  size_line (scan_line st line) = size_line st.
Proof.
  intros H. rewrite scan_line_unfold. cbn [size_line].
  rewrite (capture_size_line _ _ H).
  destruct (sentinel_transition _ _); [|reflexivity].
  unfold toggle. now destruct (is_saving st).
Qed.

Lemma fold_scan_size_line (lines : list string) :
  Forall (fun line => Py.contains "c.mv     a1" (Py.strip line) = false) lines ->
  forall st, size_line (fold_left scan_line lines st) = size_line st.
Proof.
  induction 1 as [|line rest Hline _ IH]; intros st; cbn [fold_left].
  - reflexivity.
  - now rewrite IH, scan_line_size_line.
Qed.

(** Without a line that carries the signature, no size marker is
    recorded. *)
Lemma no_marker_no_size_line (lines : list string) :
  Forall (fun line => Py.contains "c.mv     a1" (Py.strip line) = false) lines ->
  snd (find_and_save_complex_lines lines) = "".
Proof.
  intros Hall. unfold find_and_save_complex_lines, finish. cbn [snd].
  now rewrite fold_scan_size_line.
Qed.

Section MainFacts.

Variable cabs : complex -> float.
Variable atan2 : float -> float -> float.
Variable fsum : list float -> float.
Variable compute_reference_fft : list complex -> outcome (list complex).
Variable plot_fft_results :
  list complex -> list complex -> list complex -> Z -> option exn.
Variable fs : string -> option (list string).

Lemma process_log_missing (filename : string) :
  fs filename = None ->
  process_log cabs atan2 fsum compute_reference_fft plot_fft_results fs filename
  = ([], Exc FileNotFoundError).
Proof. intros H. unfold process_log, open_lines. now rewrite H. Qed.

Lemma process_log_no_data (filename : string) (lines : list string) :
  fs filename = Some lines ->
  fst (find_and_save_complex_lines lines) = [] \/
  snd (find_and_save_complex_lines lines) = "" ->
  process_log cabs atan2 fsum compute_reference_fft plot_fft_results fs filename
  = ([Line "No FFT data found in log file."], Exit 1).
Proof.
  intros Hfs Hno. unfold process_log, open_lines. rewrite Hfs.
  unfold io_ret. cbn [io_bind].
  destruct (find_and_save_complex_lines lines) as [arrays size_line].
  cbn [fst snd] in Hno.
  destruct Hno as [-> | ->]; [reflexivity|].
  destruct arrays; reflexivity.
Qed.

Lemma process_log_one_array (filename : string) (lines seg : list string)
      (marker column : string) (rest : list string) (n : Z)
      (samples : list complex) :
  fs filename = Some lines ->
  find_and_save_complex_lines lines = ([seg], marker) ->
  marker <> "" ->
  extract_7th_column [marker] = column :: rest ->
  Py.int 16 column = Ok n ->
  build_complex_array seg n = Ok samples ->
  process_log cabs atan2 fsum compute_reference_fft plot_fft_results fs filename
  = ([Line ("FFT size detected: " ++ string_of_Z n);
      Line "Insufficient data arrays found. Expected at least 2 (input and output)."],
     Value tt).
Proof.
  intros Hfs Hfind Hmarker Hcol Hint Hbuild.
  unfold process_log, open_lines. rewrite Hfs.
  unfold io_ret. cbn [io_bind]. rewrite Hfind.
  destruct marker as [|c m]; [congruence|].
  cbn [Py.truthy negb orb]. rewrite Hcol. cbn [first_item lift io_bind].
  rewrite Hint. cbn [lift io_bind print app].
  cbn [build_all]. rewrite Hbuild. reflexivity.
Qed.

End MainFacts.

(** What [main] does on each of three conditions, with a well-formed
    command line: with the trace file missing it prints the two
    file-not-found lines and returns; with zero segments or no
    size-marker line, in particular with segments of which no line
    carries the marker signature, it prints the no-data line and exits
    with status 1; with a single recovered array it prints the detected
    size and the insufficient-arrays line and returns. *)
Lemma fatal_conditions :
  forall (cabs : complex -> float) (atan2 : float -> float -> float)
         (fsum : list float -> float)
         (compute_reference_fft : list complex -> outcome (list complex))
         (plot_fft_results :
            list complex -> list complex -> list complex -> Z -> option exn)
         (fs : string -> option (list string))
         (prog size_arg type_arg filename : string) (size : Z),
    Py.int 10 size_arg = Ok size ->
    (type_arg = "NV" /\ filename = "veer/tempFiles/logNV.txt") \/
    (type_arg = "V" /\ filename = "veer/tempFiles/logV.txt") ->
    let run := main cabs atan2 fsum compute_reference_fft plot_fft_results fs
                    [prog; size_arg; type_arg] in
    (fs filename = None ->
     stdout run = [Line ("Log file not found: " ++ filename);
                   Line "Make sure to run the FFT program first."] /\
     exit_status run = 0) /\
    (forall lines,
        fs filename = Some lines ->
        fst (find_and_save_complex_lines lines) = [] \/
        snd (find_and_save_complex_lines lines) = "" \/
        Forall (fun line => Py.contains "c.mv     a1" (Py.strip line) = false)
               lines ->
        stdout run = [Line "No FFT data found in log file."] /\
        exit_status run = 1) /\
    (forall lines seg marker column rest n samples,
        fs filename = Some lines ->
        find_and_save_complex_lines lines = ([seg], marker) ->
        marker <> "" ->
        extract_7th_column [marker] = column :: rest ->
        Py.int 16 column = Ok n ->
        build_complex_array seg n = Ok samples ->
        stdout run
        = [Line ("FFT size detected: " ++ string_of_Z n);
           Line "Insufficient data arrays found. Expected at least 2 (input and output)."] /\
        exit_status run = 0).
Proof.
  intros cabs atan2 fsum fft plot fs prog size_arg type_arg filename size
         Hsize Htype run.
  assert (Hrun : run = try_except
                         (process_log cabs atan2 fsum fft plot fs filename)
                         (handle filename)).
  { subst run. unfold main. cbn [List.length Nat.eqb negb nth].
    rewrite Hsize. cbn [lift io_bind].
    destruct Htype as [[-> ->] | [-> ->]]; cbn [String.eqb Ascii.eqb Bool.eqb];
      now destruct (try_except _ _). }
  rewrite Hrun. clear Hrun run.
  split; [|split].
  - intros Hfs. rewrite (process_log_missing _ _ _ _ _ _ _ Hfs).
    split; reflexivity.
  - intros lines Hfs Hno.
    rewrite (process_log_no_data _ _ _ _ _ _ _ lines Hfs).
    + split; reflexivity.
    + destruct Hno as [H | [H | H]]; auto.
      right. now apply no_marker_no_size_line.
  - intros lines seg marker column rest n samples Hfs Hfind Hm Hcol Hint Hb.
    rewrite (process_log_one_array _ _ _ _ _ _ _ lines seg marker column rest
                                   n samples Hfs Hfind Hm Hcol Hint Hb).
    split; reflexivity.
Qed.

(** The three conditions on concrete runs: no file; the first two lines
    of the sample trace (a segment, no size marker); its first seven
    lines (one segment with the marker). *)
Lemma fatal_conditions_on_sample_runs :
  (stdout (run_main no_file ["fft_visualizer.py"; "8"; "NV"])
   = [Line ("Log file not found: " ++ "veer/tempFiles/logNV.txt");
      Line "Make sure to run the FFT program first."] /\
   exit_status (run_main no_file ["fft_visualizer.py"; "8"; "NV"]) = 0) /\
  (stdout (run_main (only_file (firstn 2 sample_trace))
                    ["fft_visualizer.py"; "8"; "V"])
   = [Line "No FFT data found in log file."] /\
   exit_status (run_main (only_file (firstn 2 sample_trace))
                         ["fft_visualizer.py"; "8"; "V"]) = 1) /\
  (stdout (run_main (only_file (firstn 7 sample_trace))
                    ["fft_visualizer.py"; "8"; "NV"])
   = [Line ("FFT size detected: " ++ string_of_Z 2);
      Line "Insufficient data arrays found. Expected at least 2 (input and output)."] /\
   exit_status (run_main (only_file (firstn 7 sample_trace))
                         ["fft_visualizer.py"; "8"; "NV"]) = 0).
Proof.
  split; [|split].
  - apply (fatal_conditions cabs_on_axis atan2_on_axis sum_from_left
             fft_stand_in plot_stand_in no_file
             "fft_visualizer.py" "8" "NV" "veer/tempFiles/logNV.txt" 8).
    + reflexivity.
    + left. split; reflexivity.
    + reflexivity.
  - apply (fatal_conditions cabs_on_axis atan2_on_axis sum_from_left
             fft_stand_in plot_stand_in (only_file (firstn 2 sample_trace))
             "fft_visualizer.py" "8" "V" "veer/tempFiles/logV.txt" 8
             eq_refl (or_intror (conj eq_refl eq_refl)))
      with (lines := firstn 2 sample_trace).
    + reflexivity.
    + right. left. vm_compute. reflexivity.
  - apply (fatal_conditions cabs_on_axis atan2_on_axis sum_from_left
             fft_stand_in plot_stand_in (only_file (firstn 7 sample_trace))
             "fft_visualizer.py" "8" "NV" "veer/tempFiles/logNV.txt" 8
             eq_refl (or_introl (conj eq_refl eq_refl)))
      with (lines := firstn 7 sample_trace)
           (seg := map Py.strip (skipn 1 (firstn 7 sample_trace)))
           (marker := "core   0: 3 0x0008 (0x0008) x11 00000002 c.mv     a1, s0")
           (column := "00000002") (rest := [])
           (samples := [Complex 1%float 0%float; Complex 0%float 0%float]).
    + reflexivity.
    + vm_compute. reflexivity.
    + discriminate.
    + vm_compute. reflexivity.
    + vm_compute. reflexivity.
    + vm_compute. reflexivity.
Defined.

(** C2 (code bug). The claim asks for a non-zero exit status on each of
    the three conditions. With the trace file missing, and with a trace
    from which a single array is recovered, [main] prints the message of
    the condition and then returns, so that the process ends with exit
    status 0. The paths next to these two do end the process with
    status 1, each through [sys.exit(1)]: the no-data condition (here
    the first two lines of the sample trace, a segment without a size
    marker), the wrong number of arguments and the unknown type. *)
Theorem fatal_paths_exit_status :
  (stdout (run_main no_file ["fft_visualizer.py"; "8"; "NV"])
   = [Line "Log file not found: veer/tempFiles/logNV.txt";
      Line "Make sure to run the FFT program first."] /\
   exit_status (run_main no_file ["fft_visualizer.py"; "8"; "NV"]) = 0) /\
  (stdout (run_main (only_file (firstn 7 sample_trace))
                    ["fft_visualizer.py"; "8"; "NV"])
   = [Line "FFT size detected: 2";
      Line "Insufficient data arrays found. Expected at least 2 (input and output)."] /\
   exit_status (run_main (only_file (firstn 7 sample_trace))
                         ["fft_visualizer.py"; "8"; "NV"]) = 0) /\
  (stdout (run_main (only_file (firstn 2 sample_trace))
                    ["fft_visualizer.py"; "8"; "V"])
   = [Line "No FFT data found in log file."] /\
   exit_status (run_main (only_file (firstn 2 sample_trace))
                         ["fft_visualizer.py"; "8"; "V"]) = 1) /\
  exit_status (run_main no_file ["fft_visualizer.py"]) = 1 /\
  exit_status (run_main no_file ["fft_visualizer.py"; "8"; "X"]) = 1.
Proof.
  split; [split; vm_compute; reflexivity|].
  split; [split; vm_compute; reflexivity|].
  split; [split; vm_compute; reflexivity|].
  split; vm_compute; reflexivity.
Qed.

(** ** Properties of binary64 arithmetic *)

(** *** Digits *)

Lemma digits2_pos_size (m : positive) : digits2_pos m = Pos.size m.
Proof. induction m; simpl; congruence. Qed.

Lemma digits2_bounds (m : positive) :
  2 ^ (Zpos (digits2_pos m) - 1) <= Zpos m < 2 ^ Zpos (digits2_pos m).
Proof.
  rewrite digits2_pos_size.
  pose proof (Pos.size_gt m) as Hgt. pose proof (Pos.size_le m) as Hle.
  apply Pos2Z.pos_lt_pos in Hgt. apply Pos2Z.pos_le_pos in Hle.
  rewrite Pos2Z.inj_pow in Hgt, Hle.
  change (Z.pos m~0) with (2 * Z.pos m) in Hle.
  split; [|exact Hgt].
  assert (E : 2 ^ Z.pos (Pos.size m) = 2 * 2 ^ (Z.pos (Pos.size m) - 1)).
  { rewrite <- Z.pow_succ_r by lia. f_equal. lia. }
  lia.
Qed.

Lemma Zdigits2_bounds (n : Z) :
  0 < n -> 2 ^ (Zdigits2 n - 1) <= n < 2 ^ Zdigits2 n.
Proof. destruct n; try lia. intros _. apply digits2_bounds. Qed.

Lemma Zdigits2_nonneg (n : Z) : 0 <= Zdigits2 n.
Proof. destruct n; simpl; lia. Qed.

Lemma Zdigits2_pos (n : Z) : 0 < n -> 0 < Zdigits2 n.
Proof. destruct n; simpl; lia. Qed.

(** If [n < 2^d] then [n] has at most [d] digits. *)
Lemma Zdigits2_le (n d : Z) : 0 <= d -> 0 <= n < 2 ^ d -> Zdigits2 n <= d.
Proof.
  intros Hd [Hn Hlt]. destruct (Z.eq_dec n 0) as [->|Hne]; [simpl; lia|].
  destruct (Zdigits2_bounds n ltac:(lia)) as [Hlo _].
  destruct (Z.le_gt_cases (Zdigits2 n) d) as [|Hgt]; [assumption|].
  assert (2 ^ d <= 2 ^ (Zdigits2 n - 1)) by (apply Z.pow_le_mono_r; lia).
  lia.
Qed.

Lemma Zdigits2_ge (n d : Z) : 2 ^ (d - 1) <= n -> 0 < n -> d <= Zdigits2 n.
Proof.
  intros Hlo Hn.
  destruct (Zdigits2_bounds n Hn) as [_ Hhi].
  destruct (Z.le_gt_cases d (Zdigits2 n)) as [|Hgt]; [assumption|].
  assert (2 ^ Zdigits2 n <= 2 ^ (d - 1))
    by (apply Z.pow_le_mono_r; pose proof (Zdigits2_nonneg n); lia).
  lia.
Qed.

(** *** Shifting right with round and sticky bits *)

Lemma shr_1_nonneg (m : Z) (r s : bool) :
  0 <= m ->
  shr_1 {| shr_m := m; shr_r := r; shr_s := s |}
  = {| shr_m := m / 2; shr_r := Z.odd m; shr_s := r || s |}.
Proof.
  intros Hm. destruct m as [|[p|p|]|p]; try lia; simpl shr_1; simpl Z.odd.
  - reflexivity.
  - f_equal. change (Z.pos p~1) with (2 * Z.pos p + 1).
    apply (Z.div_unique _ _ _ 1); lia.
  - f_equal. change (Z.pos p~0) with (2 * Z.pos p).
    apply (Z.div_unique _ _ _ 0); lia.
  - reflexivity.
Qed.

Lemma loc_bits (A D : Z) :
  0 < D ->
  let mrs := shr_record_of_loc (A / D) (loc_of A D) in
  shr_m mrs = A / D /\
  (shr_r mrs || shr_s mrs = negb (A mod D =? 0)) /\
  loc_of_shr_record mrs = loc_of A D.
Proof.
  intros HD. unfold loc_of.
  destruct (A mod D =? 0); [repeat split|].
  destruct (2 * (A mod D) ?= D); repeat split.
Qed.

Lemma shr_1_rec_of (A D : Z) :
  0 <= A -> 0 < D -> shr_1 (rec_of A D) = rec_of A (2 * D).
Proof.
  intros HA HD.
  assert (Hq : 0 <= A / D) by (apply Z.div_pos; lia).
  pose proof (Z.mod_pos_bound A D HD) as Hr.
  assert (Hdiv : A / (2 * D) = A / D / 2).
  { rewrite (Z.mul_comm 2 D). now rewrite Z.div_div by lia. }
  assert (Hmod : A mod (2 * D) = A mod D + D * ((A / D) mod 2)).
  { rewrite (Z.mul_comm 2 D). apply Z.rem_mul_r; lia. }
  pose proof (Z.mod_pos_bound (A / D) 2 ltac:(lia)) as Hb.
  assert (Hodd : Z.odd (A / D) = negb ((A / D) mod 2 =? 0)).
  { rewrite Zmod_odd. now destruct (Z.odd (A / D)). }
  unfold rec_of at 1.
  destruct (loc_bits A D HD) as (Hm & Hrs & _).
  destruct (shr_record_of_loc (A / D) (loc_of A D)) as [m r s].
  cbn [shr_m shr_r shr_s] in Hm, Hrs. subst m.
  rewrite shr_1_nonneg by assumption.
  rewrite Hrs, Hodd. unfold rec_of, loc_of. rewrite Hdiv, Hmod.
  destruct (Z.eqb_spec ((A / D) mod 2) 0) as [E2|E2];
    destruct (Z.eqb_spec (A mod D) 0) as [E1|E1]; cbn [negb].
  - rewrite E1, E2. replace (0 + D * 0) with 0 by lia. reflexivity.
  - rewrite E2. replace (A mod D + D * 0) with (A mod D) by lia.
    destruct (Z.eqb_spec (A mod D) 0); [lia|].
    assert ((2 * (A mod D) ?= 2 * D) = Lt) as -> by (apply Z.compare_lt_iff; lia).
    reflexivity.
  - assert ((A / D) mod 2 = 1) as -> by lia. rewrite E1.
    replace (0 + D * 1) with D by lia.
    destruct (Z.eqb_spec D 0); [lia|].
    rewrite Z.compare_refl. reflexivity.
  - assert ((A / D) mod 2 = 1) as -> by lia.
    destruct (Z.eqb_spec (A mod D + D * 1) 0); [lia|].
    assert ((2 * (A mod D + D * 1) ?= 2 * D) = Gt) as ->
        by (apply Z.compare_gt_iff; lia).
    reflexivity.
Qed.

Lemma pow2_xO (p : positive) : 2 ^ Z.pos p~0 = 2 ^ Z.pos p * 2 ^ Z.pos p.
Proof.
  replace (Z.pos p~0) with (Z.pos p + Z.pos p) by lia.
  apply Z.pow_add_r; lia.
Qed.

Lemma pow2_xI (p : positive) : 2 ^ Z.pos p~1 = 2 ^ Z.pos p * (2 ^ Z.pos p * 2).
Proof.
  replace (Z.pos p~1) with (Z.pos p + (Z.pos p + 1)) by lia.
  rewrite !Z.pow_add_r by lia. reflexivity.
Qed.

Lemma iter_pos_shr_1 (p : positive) :
  forall A D, 0 <= A -> 0 < D ->
    iter_pos shr_1 p (rec_of A D) = rec_of A (2 ^ Zpos p * D).
Proof.
  induction p as [p IH|p IH|]; intros A D HA HD; cbn [iter_pos].
  - assert (HP : 0 < 2 ^ Z.pos p) by (apply Z.pow_pos_nonneg; lia).
    rewrite shr_1_rec_of, IH, IH by (try assumption; nia).
    f_equal. rewrite pow2_xI. lia.
  - assert (HP : 0 < 2 ^ Z.pos p) by (apply Z.pow_pos_nonneg; lia).
    rewrite IH, IH by (try assumption; nia).
    f_equal. rewrite pow2_xO. lia.
  - rewrite shr_1_rec_of by assumption. reflexivity.
Qed.

(** Shifting by [k >= 0] divides the denominator scale by [2^k]. *)
Lemma shr_rec_of (A D e k : Z) :
  0 <= A -> 0 < D -> 0 <= k ->
  shr (rec_of A D) e k = (rec_of A (2 ^ k * D), e + k).
Proof.
  intros HA HD Hk. unfold shr. destruct k as [|p|p]; try lia.
  - rewrite Z.pow_0_r, Z.mul_1_l, Z.add_0_r. reflexivity.
  - now rewrite iter_pos_shr_1.
Qed.

(** *** Rounding to nearest, ties to even, on integers *)

Lemma rne_bounds (A D : Z) :
  0 <= A -> 0 < D -> A / D <= rne A D <= A / D + 1.
Proof.
  intros HA HD. unfold rne, loc_of, round_nearest_even.
  destruct (A mod D =? 0); [lia|].
  destruct (2 * (A mod D) ?= D); try lia.
  destruct (Z.even (A / D)); lia.
Qed.

Lemma rne_le (A D F : Z) :
  0 <= A -> 0 < D -> A <= F * D -> rne A D <= F.
Proof.
  intros HA HD HF.
  assert (Hq : A / D <= F) by (apply Z.div_le_upper_bound; lia).
  destruct (Z.eq_dec (A / D) F) as [E|E].
  - assert (Hmod : A mod D = 0).
    { pose proof (Z.div_mod A D ltac:(lia)) as Hdm.
      pose proof (Z.mod_pos_bound A D HD). rewrite E in Hdm. nia. }
    unfold rne, loc_of. rewrite Hmod. cbn. lia.
  - pose proof (rne_bounds A D HA HD). lia.
Qed.

(** *** The rounding step of every operation *)

Lemma fexp64 (x : Z) : fexp prec emax x = Z.max (x - 53) (-1074).
Proof. reflexivity. Qed.

Lemma rec_of_exact (M : Z) : shr_record_of_loc M loc_Exact = rec_of M 1.
Proof.
  unfold rec_of, loc_of. now rewrite Z.div_1_r, Z.mod_1_r.
Qed.

Lemma binary_round_aux_shape (s : bool) (A D e : Z) :
  0 <= A -> 0 < D ->
  let E := fexp prec emax (Zdigits2 (A / D) + e) in
  e <= E ->
  let M := rne A (2 ^ (E - e) * D) in
  0 <= M <= 2 ^ 53 /\
  binary_round_aux prec emax s (A / D) e (loc_of A D) = pack_rounded s M E.
Proof.
  intros HA HD E HE M.
  assert (Hq : 0 <= A / D) by (apply Z.div_pos; lia).
  assert (HP : 0 < 2 ^ (E - e)) by (apply Z.pow_pos_nonneg; lia).
  assert (HD' : 0 < 2 ^ (E - e) * D) by nia.
  assert (HEmin : -1074 <= E) by (unfold E; rewrite fexp64; lia).
  (* the shifted mantissa fits in 53 bits *)
  assert (Hn : A / (2 ^ (E - e) * D) < 2 ^ 53).
  { rewrite Z.mul_comm, <- Z.div_div by lia.
    apply Z.div_lt_upper_bound; [lia|].
    rewrite <- Z.pow_add_r by lia.
    destruct (Z.eq_dec (A / D) 0) as [->|Hne].
    - apply Z.pow_pos_nonneg; lia.
    - destruct (Zdigits2_bounds (A / D) ltac:(lia)) as [_ Hhi].
      eapply Z.lt_le_trans; [exact Hhi|].
      apply Z.pow_le_mono_r; [lia|].
      unfold E. rewrite fexp64. lia. }
  pose proof (rne_bounds A (2 ^ (E - e) * D) HA HD') as HM. fold M in HM.
  assert (HM0 : 0 <= A / (2 ^ (E - e) * D)) by (apply Z.div_pos; lia).
  split; [lia|].
  unfold binary_round_aux, shr_fexp. fold E.
  change (shr_record_of_loc (A / D) (loc_of A D)) with (rec_of A D).
  rewrite (shr_rec_of A D e (E - e)) by lia.
  replace (e + (E - e)) with E by lia.
  assert (Hrnd : round_nearest_even
                   (shr_m (rec_of A (2 ^ (E - e) * D)))
                   (loc_of_shr_record (rec_of A (2 ^ (E - e) * D))) = M).
  { destruct (loc_bits A (2 ^ (E - e) * D) HD') as (Hm & _ & Hl).
    unfold rec_of. now rewrite Hm, Hl. }
  cbv beta iota zeta. rewrite Hrnd, rec_of_exact, fexp64.
  unfold pack_rounded.
  destruct (Z.eqb_spec M 0) as [HM0'|HM0'].
  - rewrite HM0'. cbn [Zdigits2].
    replace (Z.max (0 + E - 53) (-1074) - E) with (- (E - Z.max (E - 53) (-1074)))
      by lia.
    destruct (E - Z.max (E - 53) (-1074)) eqn:Ek; try lia; reflexivity.
  - destruct (Z.ltb_spec M (2 ^ 53)) as [Hlt|Hge].
    + assert (Hd : Zdigits2 M <= 53) by (apply Zdigits2_le; lia).
      assert (Hk : Z.max (Zdigits2 M + E - 53) (-1074) - E <= 0) by lia.
      destruct (Z.max (Zdigits2 M + E - 53) (-1074) - E) eqn:Ek; try lia;
        cbn [shr]; unfold rec_of; rewrite Z.div_1_r;
        cbn [shr_record_of_loc]; destruct (loc_of M 1) as [|[]]; cbn [shr_m];
        destruct M; try lia; reflexivity.
    + assert (HM53 : M = 2 ^ 53) by lia.
      rewrite HM53.
      change (Zdigits2 (2 ^ 53)) with 54.
      replace (Z.max (54 + E - 53) (-1074) - E) with 1 by lia.
      cbn [shr iter_pos]. rewrite shr_1_rec_of by lia.
      unfold rec_of. change (2 ^ 53 / (2 * 1)) with (2 ^ 52).
      change (2 ^ 53 / 2) with (2 ^ 52).
      destruct (loc_of (2 ^ 53) (2 * 1)) as [|[]]; reflexivity.
Qed.

Lemma pow2_pos (x : Z) : 0 <= x -> 0 < 2 ^ x.
Proof. intros. apply Z.pow_pos_nonneg; lia. Qed.

Lemma pow2_split (a b : Z) : 0 <= b <= a -> 2 ^ a = 2 ^ (a - b) * 2 ^ b.
Proof. intros H. rewrite <- Z.pow_add_r by lia. f_equal. lia. Qed.

(** A value scaled to exponent [-1074] does not depend on the common
    offset through which it is compared. *)
Lemma exponent_of_le (n mf e ef c : Z) :
  0 < n -> 0 < mf -> c <= e -> c <= ef ->
  n * 2 ^ (e - c) <= mf * 2 ^ (ef - c) ->
  Zdigits2 n + e <= Zdigits2 mf + ef.
Proof.
  intros Hn Hmf Hce Hcf Hle.
  destruct (Zdigits2_bounds n Hn) as [Hlo _].
  destruct (Zdigits2_bounds mf Hmf) as [_ Hhi].
  pose proof (Zdigits2_pos n Hn) as Hdn.
  pose proof (Zdigits2_pos mf Hmf) as Hdf.
  pose proof (pow2_pos (e - c) ltac:(lia)) as He.
  pose proof (pow2_pos (ef - c) ltac:(lia)) as Hf.
  assert (H1 : 2 ^ (Zdigits2 n - 1 + (e - c)) <= n * 2 ^ (e - c)).
  { rewrite Z.pow_add_r by lia. nia. }
  assert (H2 : mf * 2 ^ (ef - c) < 2 ^ (Zdigits2 mf + (ef - c))).
  { rewrite Z.pow_add_r by lia. nia. }
  assert (H3 : 2 ^ (Zdigits2 n - 1 + (e - c)) < 2 ^ (Zdigits2 mf + (ef - c)))
    by lia.
  apply Z.pow_lt_mono_r_iff in H3; lia.
Qed.

(** No crossing: a value at most a representable [f] rounds to at most
    [f]. The value is [A / D * 2^e], given with the quotient [A / D] and
    the position of the remainder; [c] is any exponent below both. *)
Lemma round_bounded (s : bool) (A D e : Z) (mf : positive) (ef c : Z) :
  0 <= A -> 0 < D ->
  e <= fexp prec emax (Zdigits2 (A / D) + e) ->
  fexp prec emax (Zpos (digits2_pos mf) + ef) = ef -> ef <= 971 ->
  c <= e -> c <= ef ->
  A * 2 ^ (e - c) <= D * Zpos mf * 2 ^ (ef - c) ->
  let r := binary_round_aux prec emax s (A / D) e (loc_of A D) in
  finite_or_zero r = true /\
  exists v, SFint r = (if s then -1 else 1) * v /\
            0 <= v <= Zpos mf * 2 ^ (ef + 1074).
Proof.
  intros HA HD Hpre Hcan Hef Hce Hcf Hle r.
  destruct (binary_round_aux_shape s A D e HA HD Hpre) as [HM Hshape].
  set (E := fexp prec emax (Zdigits2 (A / D) + e)) in *.
  set (M := rne A (2 ^ (E - e) * D)) in *.
  assert (Hq : 0 <= A / D) by (apply Z.div_pos; lia).
  assert (HEmin : -1074 <= E) by (unfold E; rewrite fexp64; lia).
  rewrite fexp64 in Hcan.
  assert (Hdf : Zpos (digits2_pos mf) <= 53) by lia.
  assert (Hmf : Zpos mf < 2 ^ 53).
  { destruct (digits2_bounds mf) as [_ Hhi].
    eapply Z.lt_le_trans; [exact Hhi|]. apply Z.pow_le_mono_r; lia. }
  pose proof (pow2_pos (e - c) ltac:(lia)) as Hpe.
  pose proof (pow2_pos (ef - c) ltac:(lia)) as Hpf.
  (* the rounding exponent is at most that of [f] *)
  assert (HEf : E <= ef).
  { destruct (Z.eq_dec (A / D) 0) as [E0|Hne].
    - unfold E in *. rewrite E0, fexp64 in *. cbn [Zdigits2] in *. lia.
    - assert (Hn : (A / D) * 2 ^ (e - c) <= Zpos mf * 2 ^ (ef - c)).
      { pose proof (Z.mul_div_le A D HD) as Hmd.
        apply (Z.mul_le_mono_pos_l _ _ D HD).
        transitivity (A * 2 ^ (e - c)); [nia|lia]. }
      pose proof (exponent_of_le (A / D) (Zpos mf) e ef c ltac:(lia)
                    ltac:(lia) Hce Hcf Hn) as Hd.
      cbn [Zdigits2] in Hd. unfold E. rewrite fexp64. lia. }
  (* the rounded mantissa is at most that of [f] at exponent [E] *)
  assert (HMF : M <= Zpos mf * 2 ^ (ef - E)).
  { pose proof (pow2_pos (E - e) ltac:(lia)) as HpE.
    pose proof (pow2_pos (ef - E) ltac:(lia)) as HpF.
    apply rne_le; [assumption|nia|].
    apply (Z.mul_le_mono_pos_r _ _ (2 ^ (e - c)) Hpe).
    replace (Zpos mf * 2 ^ (ef - E) * (2 ^ (E - e) * D) * 2 ^ (e - c))
      with (D * Zpos mf * (2 ^ (ef - E) * 2 ^ (E - e) * 2 ^ (e - c))) by ring.
    rewrite <- !Z.pow_add_r by lia.
    replace (ef - E + (E - e) + (e - c)) with (ef - c) by lia.
    exact Hle. }
  assert (Hscale : Zpos mf * 2 ^ (ef + 1074)
                   = Zpos mf * 2 ^ (ef - E) * 2 ^ (E + 1074)).
  { rewrite <- Z.mul_assoc, <- Z.pow_add_r by lia. do 2 f_equal. lia. }
  pose proof (pow2_pos (E + 1074) ltac:(lia)) as HpE'.
  subst r. rewrite Hshape. unfold pack_rounded.
  destruct (Z.eqb_spec M 0) as [HM0|HM0].
  - split; [reflexivity|]. exists 0. cbn [SFint].
    pose proof (pow2_pos (ef + 1074) ltac:(lia)).
    split; [destruct s; reflexivity|]. nia.
  - destruct (Z.ltb_spec M (2 ^ 53)) as [Hlt|Hge].
    + destruct (Z.leb_spec E 971) as [_|Hbig]; [|lia].
      split; [reflexivity|]. exists (M * 2 ^ (E + 1074)). cbn [SFint].
      rewrite Z2Pos.id by lia. split; [reflexivity|].
      rewrite Hscale. nia.
    + assert (HM53 : M = 2 ^ 53) by lia.
      assert (HE1 : E + 1 <= ef).
      { destruct (Z.eq_dec E ef) as [Eeq|]; [|lia].
        rewrite Eeq, Z.sub_diag, Z.pow_0_r in HMF. lia. }
      destruct (Z.leb_spec (E + 1) 971) as [_|Hbig]; [|lia].
      split; [reflexivity|]. exists (M * 2 ^ (E + 1074)). cbn [SFint].
      rewrite HM53 at 1. change (2 ^ 53 / 2) with (2 ^ 52).
      change (Z.pos (Z.to_pos (2 ^ 52))) with (2 ^ 52).
      split.
      * rewrite HM53. replace (E + 1 + 1074) with (E + 1074 + 1) by lia.
        rewrite Z.pow_add_r by lia. change (2 ^ 53) with (2 ^ 52 * 2 ^ 1).
        ring.
      * rewrite Hscale. nia.
Qed.

(** *** Valid floats and their order *)

Lemma valid_finite (s : bool) (m : positive) (e : Z) :
  valid_binary (S754_finite s m e) = true ->
  fexp prec emax (Zpos (digits2_pos m) + e) = e /\
  -1074 <= e <= 971 /\ Zpos (digits2_pos m) <= 53 /\
  (-1074 < e -> 2 ^ 52 <= Zpos m) /\ Zpos m < 2 ^ 53.
Proof.
  cbn [valid_binary]. unfold bounded, canonical_mantissa.
  intros H. apply andb_true_iff in H as [Hc Hb].
  apply Z.eqb_eq in Hc. apply Z.leb_le in Hb.
  change (emax - prec) with 971 in Hb.
  split; [exact Hc|]. rewrite fexp64 in Hc.
  destruct (digits2_bounds m) as [Hlo Hhi].
  repeat split; try lia.
  - intros He. replace (Zpos (digits2_pos m)) with 53 in Hlo by lia.
    exact Hlo.
  - eapply Z.lt_le_trans; [exact Hhi|]. apply Z.pow_le_mono_r; lia.
Qed.

Lemma canonical_lt (s1 s2 : bool) (m1 m2 : positive) (e1 e2 : Z) :
  valid_binary (S754_finite s1 m1 e1) = true ->
  valid_binary (S754_finite s2 m2 e2) = true ->
  e1 < e2 ->
  Zpos m1 * 2 ^ (e1 + 1074) < Zpos m2 * 2 ^ (e2 + 1074).
Proof.
  intros H1 H2 Hlt.
  destruct (valid_finite _ _ _ H1) as (_ & He1 & _ & _ & Hm1).
  destruct (valid_finite _ _ _ H2) as (_ & He2 & _ & Hm2 & _).
  specialize (Hm2 ltac:(lia)).
  pose proof (pow2_pos (e1 + 1074) ltac:(lia)) as Hp1.
  assert (Hp : 2 ^ (e2 + 1074) = 2 ^ (e2 - e1 - 1) * 2 * 2 ^ (e1 + 1074)).
  { rewrite <- (Z.pow_1_r 2) at 3. rewrite <- !Z.pow_add_r by lia.
    f_equal. lia. }
  pose proof (pow2_pos (e2 - e1 - 1) ltac:(lia)) as Hp2.
  rewrite Hp. change (2 ^ 53) with (2 ^ 52 * 2) in Hm1. nia.
Qed.

(** On valid finite floats and zeros, the comparison of the
    specification is the comparison of the scaled values. *)
Lemma SFcompare_int (x y : spec_float) :
  valid_binary x = true -> valid_binary y = true ->
  finite_or_zero x = true -> finite_or_zero y = true ->
  SFcompare x y = Some (SFint x ?= SFint y).
Proof.
  intros Vx Vy Fx Fy.
  destruct x as [sx|sx| |sx mx ex]; try discriminate;
    destruct y as [sy|sy| |sy my ey]; try discriminate; cbn [SFcompare SFint].
  - reflexivity.
  - destruct (valid_finite _ _ _ Vy) as (_ & He & _).
    pose proof (pow2_pos (ey + 1074) ltac:(lia)).
    f_equal. symmetry. destruct sy;
      [apply Z.compare_gt_iff | apply Z.compare_lt_iff]; nia.
  - destruct (valid_finite _ _ _ Vx) as (_ & He & _).
    pose proof (pow2_pos (ex + 1074) ltac:(lia)).
    f_equal. symmetry. destruct sx;
      [apply Z.compare_lt_iff | apply Z.compare_gt_iff]; nia.
  - destruct (valid_finite _ _ _ Vx) as (_ & Hex & _).
    destruct (valid_finite _ _ _ Vy) as (_ & Hey & _).
    pose proof (pow2_pos (ex + 1074) ltac:(lia)) as Hpx.
    pose proof (pow2_pos (ey + 1074) ltac:(lia)) as Hpy.
    f_equal. symmetry.
    destruct (Z.compare_spec ex ey) as [Heq|Hlt|Hgt].
    + subst ey.
      change (Pos.compare_cont Eq mx my) with (Z.pos mx ?= Z.pos my).
      destruct (Z.compare_spec (Z.pos mx) (Z.pos my)) as [E|E|E];
        destruct sx, sy; cbn [CompOpp];
        first [ apply Z.compare_eq_iff | apply Z.compare_lt_iff
              | apply Z.compare_gt_iff ]; nia.
    + pose proof (canonical_lt sx sy mx my ex ey Vx Vy Hlt).
      destruct sx, sy;
        first [ apply Z.compare_lt_iff; nia | apply Z.compare_gt_iff; nia ].
    + pose proof (canonical_lt sy sx my mx ey ex Vy Vx Hgt).
      destruct sx, sy;
        first [ apply Z.compare_lt_iff; nia | apply Z.compare_gt_iff; nia ].
Qed.

Lemma SFleb_int (x y : spec_float) :
  valid_binary x = true -> valid_binary y = true ->
  finite_or_zero x = true -> finite_or_zero y = true ->
  SFleb x y = (SFint x <=? SFint y).
Proof.
  intros Vx Vy Fx Fy. unfold SFleb. rewrite SFcompare_int by assumption.
  unfold Z.leb. now destruct (SFint x ?= SFint y).
Qed.

Lemma SFltb_int (x y : spec_float) :
  valid_binary x = true -> valid_binary y = true ->
  finite_or_zero x = true -> finite_or_zero y = true ->
  SFltb x y = (SFint x <? SFint y).
Proof.
  intros Vx Vy Fx Fy. unfold SFltb. rewrite SFcompare_int by assumption.
  unfold Z.ltb. now destruct (SFint x ?= SFint y).
Qed.

(** A float between two finite floats is finite. *)
Lemma between_finite (lo x hi : spec_float) :
  finite_or_zero lo = true -> finite_or_zero hi = true ->
  SFleb lo x = true -> SFleb x hi = true -> finite_or_zero x = true.
Proof.
  intros Flo Fhi H1 H2.
  destruct x as [s|s| |s m e]; try reflexivity.
  - destruct s.
    + destruct lo as [?| | |[] ? ?]; try discriminate.
    + destruct hi as [?| | |[] ? ?]; try discriminate.
  - destruct lo; discriminate.
Qed.

(** *** Multiplication and division by a positive constant *)

Lemma loc_of_1 (A : Z) : loc_of A 1 = loc_Exact.
Proof. unfold loc_of. now rewrite Z.mod_1_r. Qed.

Lemma fexp_mono (a b : Z) : a <= b -> fexp prec emax a <= fexp prec emax b.
Proof. rewrite !fexp64. lia. Qed.

(** [x * c] for [0 <= x] and a normal constant [c > 0], against a
    representable bound [f]. *)
Lemma mul_bounded (x : spec_float) (cm : positive) (ce : Z)
      (mf : positive) (ef : Z) :
  valid_binary x = true -> finite_or_zero x = true -> 0 <= SFint x ->
  2 ^ 52 <= Zpos cm ->
  valid_binary (S754_finite false mf ef) = true ->
  ce - 1074 <= ef ->
  SFint x * Zpos cm <= Zpos mf * 2 ^ (ef - ce + 1074) ->
  let r := SFmul prec emax x (S754_finite false cm ce) in
  finite_or_zero r = true /\ 0 <= SFint r <= Zpos mf * 2 ^ (ef + 1074).
Proof.
  intros Vx Fx Hx Hcm Vf Hce Hle r.
  destruct (valid_finite _ _ _ Vf) as (Hcan & Hef & _).
  pose proof (pow2_pos (ef + 1074) ltac:(lia)) as Hpf.
  destruct x as [sx|sx| |sx mx ex]; try discriminate.
  - subst r. cbn [SFmul SFint finite_or_zero]. split; [reflexivity|]. nia.
  - destruct (valid_finite _ _ _ Vx) as (_ & Hex & _).
    pose proof (pow2_pos (ex + 1074) ltac:(lia)) as Hpx.
    assert (sx = false) as -> by (destruct sx; [cbn [SFint] in Hx; nia|reflexivity]).
    cbn [SFint] in Hle. rewrite Z.mul_1_l in Hle.
    subst r. cbn [SFmul xorb].
    assert (Hpre : ex + ce
                   <= fexp prec emax (Zdigits2 (Zpos (mx * cm)) + (ex + ce))).
    { (* enough digits: no left shift is needed *)
      destruct (digits2_bounds mx) as [Hlo _].
      assert (Hd : Zpos (digits2_pos mx) + 52 <= Zdigits2 (Zpos (mx * cm))).
      { apply Zdigits2_ge; [|lia].
        replace (Z.pos (digits2_pos mx) + 52 - 1)
          with ((Z.pos (digits2_pos mx) - 1) + 52) by lia.
        rewrite Z.pow_add_r by lia. rewrite Pos2Z.inj_mul.
        pose proof (pow2_pos (Z.pos (digits2_pos mx) - 1) ltac:(lia)).
        nia. }
      rewrite fexp64. lia. }
    assert (Hineq : Zpos (mx * cm) * 2 ^ (ex + ce - (ce - 1074))
                    <= 1 * Zpos mf * 2 ^ (ef - (ce - 1074))).
    { rewrite Pos2Z.inj_mul.
      replace (ex + ce - (ce - 1074)) with (ex + 1074) by lia.
      replace (ef - (ce - 1074)) with (ef - ce + 1074) by lia.
      nia. }
    pose proof (round_bounded false (Zpos (mx * cm)) 1 (ex + ce) mf ef
                              (ce - 1074)) as H.
    rewrite Z.div_1_r, loc_of_1 in H.
    destruct (H ltac:(lia) ltac:(lia) Hpre Hcan ltac:(lia) ltac:(lia)
                ltac:(lia) Hineq) as (Hfin & v & Hv & Hb).
    split; [exact Hfin|]. rewrite Hv. lia.
Qed.

Lemma new_location_loc_of (A D : Z) :
  0 < D -> new_location D (A mod D) = loc_of A D.
Proof.
  intros HD. unfold new_location, new_location_even, new_location_odd, loc_of.
  pose proof (Z.mod_pos_bound A D HD) as Hr.
  destruct (Z.even D) eqn:Ev; [reflexivity|].
  destruct (A mod D =? 0); [reflexivity|]. f_equal.
  assert (Hodd : Z.odd D = true) by (rewrite <- Z.negb_even, Ev; reflexivity).
  apply Z.odd_spec in Hodd as [j Hj].
  destruct (Z.compare_spec (2 * (A mod D) + 1) D);
    destruct (Z.compare_spec (2 * (A mod D)) D); try reflexivity; lia.
Qed.

Lemma SFdiv_core_binary_spec (m1 m2 : positive) (e1 e2 : Z) :
  let e' := Z.min (fexp prec emax (Zpos (digits2_pos m1) + e1
                                   - (Zpos (digits2_pos m2) + e2)))
                  (e1 - e2) in
  let A := Zpos m1 * 2 ^ (e1 - e2 - e') in
  SFdiv_core_binary prec emax (Zpos m1) e1 (Zpos m2) e2
  = (A / Zpos m2, e', loc_of A (Zpos m2)).
Proof.
  intros e' A. unfold SFdiv_core_binary. cbn [Zdigits2]. fold e'.
  assert (Hs : 0 <= e1 - e2 - e') by (unfold e'; lia).
  assert (Hm' : match e1 - e2 - e' with
                | Z.pos _ => Z.shiftl (Z.pos m1) (e1 - e2 - e')
                | 0 => Z.pos m1
                | Z.neg _ => 0
                end = A).
  { unfold A. destruct (e1 - e2 - e') as [|sh|sh]; try lia.
    apply Z.shiftl_mul_pow2. lia. }
  rewrite Hm'.
  rewrite <- (new_location_loc_of A (Zpos m2)) by lia.
  unfold Z.div, Z.modulo.
  destruct (Z.div_eucl A (Z.pos m2)) as [q r]. reflexivity.
Qed.

(** [y / c] for [0 <= y] and a constant [c > 0] with exponent at most
    zero, against a representable bound [f]. *)
Lemma div_bounded (y : spec_float) (cm : positive) (ce : Z)
      (mf : positive) (ef : Z) :
  valid_binary y = true -> finite_or_zero y = true -> 0 <= SFint y ->
  valid_binary (S754_finite false cm ce) = true -> ce <= 0 ->
  valid_binary (S754_finite false mf ef) = true ->
  SFint y * 2 ^ (- ce) <= Zpos cm * (Zpos mf * 2 ^ (ef + 1074)) ->
  let r := SFdiv prec emax y (S754_finite false cm ce) in
  finite_or_zero r = true /\ 0 <= SFint r <= Zpos mf * 2 ^ (ef + 1074).
Proof.
  intros Vy Fy Hy Vc Hce Vf Hle r.
  destruct (valid_finite _ _ _ Vf) as (Hcan & Hef & _).
  destruct (valid_finite _ _ _ Vc) as (_ & Hcer & _).
  pose proof (pow2_pos (ef + 1074) ltac:(lia)) as Hpf.
  destruct y as [sy|sy| |sy my ey]; try discriminate.
  - subst r. cbn [SFdiv SFint finite_or_zero]. split; [reflexivity|]. nia.
  - destruct (valid_finite _ _ _ Vy) as (_ & Hey & Hdy & _).
    pose proof (pow2_pos (ey + 1074) ltac:(lia)) as Hpy.
    assert (sy = false) as -> by (destruct sy; [cbn [SFint] in Hy; nia|reflexivity]).
    cbn [SFint] in Hle. rewrite Z.mul_1_l in Hle.
    subst r. cbn [SFdiv xorb]. rewrite SFdiv_core_binary_spec.
    set (delta := Zpos (digits2_pos my) + ey - (Zpos (digits2_pos cm) + ce)).
    set (e' := Z.min (fexp prec emax delta) (ey - ce)).
    set (A := Zpos my * 2 ^ (ey - ce - e')).
    assert (Hs : 0 <= ey - ce - e') by (unfold e'; lia).
    assert (He' : -1074 <= e') by (unfold e'; rewrite fexp64; lia).
    pose proof (pow2_pos (ey - ce - e') Hs) as Hps.
    assert (HA : 0 < A) by (unfold A; nia).
    assert (Hpre : e' <= fexp prec emax (Zdigits2 (A / Zpos cm) + e')).
    { (* the quotient has enough digits *)
      transitivity (fexp prec emax delta); [unfold e'; lia|].
      apply fexp_mono.
      pose proof (Zdigits2_nonneg (A / Zpos cm)) as Hdq.
      destruct (Z.le_gt_cases (Zpos (digits2_pos my) + (ey - ce - e'))
                              (Zpos (digits2_pos cm))) as [Hsmall|Hbig].
      - unfold delta. lia.
      - destruct (digits2_bounds my) as [Hlo _].
        destruct (digits2_bounds cm) as [_ Hhi].
        set (dy := Zpos (digits2_pos my)) in *.
        set (dc := Zpos (digits2_pos cm)) in *.
        set (sh := ey - ce - e') in *.
        assert (Hq : 2 ^ (dy + sh - dc - 1) <= A / Zpos cm).
        { apply Z.div_le_lower_bound; [lia|].
          assert (Hpow : 2 ^ (dy - 1) * 2 ^ sh
                         = 2 ^ dc * 2 ^ (dy + sh - dc - 1)).
          { rewrite <- !Z.pow_add_r by lia. f_equal. lia. }
          pose proof (pow2_pos (dy + sh - dc - 1) ltac:(lia)).
          unfold A. nia. }
        assert (0 < A / Zpos cm).
        { pose proof (pow2_pos (dy + sh - dc - 1) ltac:(lia)). lia. }
        assert (dy + sh - dc <= Zdigits2 (A / Zpos cm))
          by (apply Zdigits2_ge; assumption).
        unfold delta. fold dy dc. lia. }
    assert (Hineq : A * 2 ^ (e' - -1074)
                    <= Zpos cm * Zpos mf * 2 ^ (ef - -1074)).
    { unfold A. rewrite <- Z.mul_assoc, <- Z.pow_add_r by lia.
      replace (ey - ce - e' + (e' - -1074)) with (ey + 1074 + - ce) by lia.
      rewrite Z.pow_add_r by lia.
      replace (ef - -1074) with (ef + 1074) by lia. lia. }
    destruct (round_bounded false A (Zpos cm) e' mf ef (-1074)
                ltac:(lia) ltac:(lia) Hpre Hcan ltac:(lia) ltac:(lia)
                ltac:(lia) Hineq) as (Hfin & v & Hv & Hb).
    split; [exact Hfin|]. rewrite Hv. lia.
Qed.

(** *** Subtraction *)

Lemma iter_xO_spec (m d : positive) :
  Zpos (Pos.iter xO m d) = Zpos m * 2 ^ Zpos d /\
  Zpos (digits2_pos (Pos.iter xO m d)) = Zpos (digits2_pos m) + Zpos d.
Proof.
  induction d as [|d IH] using Pos.peano_ind.
  - cbn [Pos.iter digits2_pos]. split; lia.
  - rewrite Pos.iter_succ. cbn [digits2_pos].
    destruct IH as [IH1 IH2]. split.
    + rewrite Pos2Z.inj_xO, IH1, Pos2Z.inj_succ, Z.pow_succ_r by lia. lia.
    + rewrite !Pos2Z.inj_succ, IH2. lia.
Qed.

Lemma shl_align_spec (m : positive) (e e' : Z) :
  snd (shl_align m e e') = Z.min e e' /\
  Zpos (fst (shl_align m e e')) = Zpos m * 2 ^ (e - Z.min e e') /\
  Zpos (digits2_pos (fst (shl_align m e e'))) + Z.min e e'
  = Zpos (digits2_pos m) + e.
Proof.
  unfold shl_align. destruct (e' - e) as [|d|d] eqn:Ed; cbn [fst snd].
  - replace (Z.min e e') with e by lia. rewrite Z.sub_diag. cbn. lia.
  - replace (Z.min e e') with e by lia. rewrite Z.sub_diag. cbn. lia.
  - replace (Z.min e e') with e' by lia.
    destruct (iter_xO_spec m d) as [H1 H2]. rewrite H1, H2.
    replace (e - e') with (Zpos d) by lia. lia.
Qed.

Lemma binary_round_bounded (s : bool) (k : positive) (ez : Z)
      (mf : positive) (ef : Z) :
  -1074 <= ez ->
  valid_binary (S754_finite false mf ef) = true ->
  Zpos k * 2 ^ (ez + 1074) <= Zpos mf * 2 ^ (ef + 1074) ->
  let r := binary_round prec emax s k ez in
  finite_or_zero r = true /\
  exists v, SFint r = (if s then -1 else 1) * v /\
            0 <= v <= Zpos mf * 2 ^ (ef + 1074).
Proof.
  intros Hez Vf Hle r.
  destruct (valid_finite _ _ _ Vf) as (Hcan & Hef & _).
  subst r. unfold binary_round.
  set (E0 := fexp prec emax (Zpos (digits2_pos k) + ez)).
  destruct (shl_align_spec k ez E0) as (He & Hm & Hd).
  destruct (shl_align k ez E0) as [mz ez']. cbn [fst snd] in He, Hm, Hd.
  subst ez'.
  assert (HE0 : -1074 <= E0) by (unfold E0; rewrite fexp64; lia).
  assert (Hpre : Z.min ez E0
                 <= fexp prec emax (Zdigits2 (Zpos mz) + Z.min ez E0)).
  { cbn [Zdigits2]. rewrite Hd. fold E0. lia. }
  assert (Hineq : Zpos mz * 2 ^ (Z.min ez E0 - -1074)
                  <= 1 * Zpos mf * 2 ^ (ef - -1074)).
  { rewrite Hm, <- Z.mul_assoc, <- Z.pow_add_r by lia.
    replace (ez - Z.min ez E0 + (Z.min ez E0 - -1074)) with (ez + 1074) by lia.
    replace (ef - -1074) with (ef + 1074) by lia. lia. }
  pose proof (round_bounded s (Zpos mz) 1 (Z.min ez E0) mf ef (-1074)) as H.
  rewrite Z.div_1_r, loc_of_1 in H.
  exact (H ltac:(lia) ltac:(lia) Hpre Hcan ltac:(lia) ltac:(lia) ltac:(lia)
           Hineq).
Qed.

(** [x - y] for finite [x] and [y] whose exact difference is at most a
    representable [f] in absolute value: the result is finite, within
    the same bound, and has the sign of the exact difference. *)
Lemma sub_bounded (x y : spec_float) (mf : positive) (ef : Z) :
  valid_binary x = true -> valid_binary y = true ->
  finite_or_zero x = true -> finite_or_zero y = true ->
  valid_binary (S754_finite false mf ef) = true ->
  Z.abs (SFint x - SFint y) <= Zpos mf * 2 ^ (ef + 1074) ->
  let r := SFsub prec emax x y in
  finite_or_zero r = true /\
  Z.abs (SFint r) <= Zpos mf * 2 ^ (ef + 1074) /\
  (SFint y <= SFint x -> 0 <= SFint r) /\
  (SFint x <= SFint y -> SFint r <= 0).
Proof.
  intros Vx Vy Fx Fy Vf Hle r.
  destruct (valid_finite _ _ _ Vf) as (_ & Hef & _).
  pose proof (pow2_pos (ef + 1074) ltac:(lia)) as Hpf.
  destruct x as [sx|sx| |sx mx ex]; try discriminate;
    destruct y as [sy|sy| |sy my ey]; try discriminate.
  - subst r. destruct sx, sy; cbn [SFsub SFint finite_or_zero];
      repeat split; try lia; nia.
  - subst r. cbn [SFsub finite_or_zero]. cbn [SFint] in *.
    destruct sy; cbn [negb]; repeat split; lia.
  - subst r. cbn [SFsub finite_or_zero]. cbn [SFint] in *.
    repeat split; lia.
  - destruct (valid_finite _ _ _ Vx) as (_ & Hex & _).
    destruct (valid_finite _ _ _ Vy) as (_ & Hey & _).
    subst r. cbn [SFsub].
    set (ez := Z.min ex ey).
    destruct (shl_align_spec mx ex ez) as (_ & Hmx & _).
    destruct (shl_align_spec my ey ez) as (_ & Hmy & _).
    replace (Z.min ex ez) with ez in Hmx by lia.
    replace (Z.min ey ez) with ez in Hmy by lia.
    set (K := cond_Zopp sx (Z.pos (fst (shl_align mx ex ez)))
              - cond_Zopp sy (Z.pos (fst (shl_align my ey ez)))).
    assert (HK : K * 2 ^ (ez + 1074)
                 = SFint (S754_finite sx mx ex) - SFint (S754_finite sy my ey)).
    { unfold K. rewrite Hmx, Hmy. cbn [SFint].
      rewrite (pow2_split (ex + 1074) (ez + 1074)) by lia.
      rewrite (pow2_split (ey + 1074) (ez + 1074)) by lia.
      replace (ex + 1074 - (ez + 1074)) with (ex - ez) by lia.
      replace (ey + 1074 - (ez + 1074)) with (ey - ez) by lia.
      destruct sx, sy; cbn [cond_Zopp]; ring. }
    pose proof (pow2_pos (ez + 1074) ltac:(lia)) as Hpz.
    rewrite <- HK in *.
    destruct K as [|k|k]; cbn [binary_normalize].
    + cbn [finite_or_zero SFint]. repeat split; lia.
    + destruct (binary_round_bounded false k ez mf ef ltac:(lia) Vf
                  ltac:(lia)) as (Hfin & v & Hv & Hb).
      split; [exact Hfin|]. rewrite Hv. repeat split; lia.
    + destruct (binary_round_bounded true k ez mf ef ltac:(lia) Vf
                  ltac:(lia)) as (Hfin & v & Hv & Hb).
      split; [exact Hfin|]. rewrite Hv. repeat split; lia.
Qed.

(** *** Sign and symmetry of a difference *)

Lemma SFint_abs (r : spec_float) : SFint (SFabs r) = Z.abs (SFint r).
Proof.
  destruct r as [s|s| |s m e]; cbn [SFabs SFint]; try reflexivity.
  destruct (Z.le_gt_cases 0 (e + 1074)) as [He|He].
  - pose proof (pow2_pos (e + 1074) He). destruct s; nia.
  - rewrite Z.pow_neg_r by lia. destruct s; lia.
Qed.

Lemma finite_or_zero_abs (r : spec_float) :
  finite_or_zero (SFabs r) = finite_or_zero r.
Proof. now destruct r. Qed.

Lemma abs_pack_rounded (s : bool) (M E : Z) :
  0 <= M ->
  SFleb (S754_zero false) (SFabs (pack_rounded s M E)) = true.
Proof.
  intros HM. unfold pack_rounded.
  destruct (M =? 0); [reflexivity|].
  destruct (M <? 2 ^ 53).
  - destruct (E <=? 971); reflexivity.
  - destruct (E + 1 <=? 971); reflexivity.
Qed.

Lemma abs_binary_round_nonneg (s : bool) (k : positive) (ez : Z) :
  SFleb (S754_zero false) (SFabs (binary_round prec emax s k ez)) = true.
Proof.
  unfold binary_round.
  set (E0 := fexp prec emax (Zpos (digits2_pos k) + ez)).
  destruct (shl_align_spec k ez E0) as (He & Hm & Hd).
  destruct (shl_align k ez E0) as [mz ez']. cbn [fst snd] in He, Hm, Hd.
  subst ez'.
  assert (Hpre : Z.min ez E0
                 <= fexp prec emax (Zdigits2 (Zpos mz / 1) + Z.min ez E0)).
  { rewrite Z.div_1_r. cbn [Zdigits2]. rewrite Hd. fold E0.
    apply Z.le_min_r. }
  destruct (binary_round_aux_shape s (Zpos mz) 1 (Z.min ez E0)
              (Pos2Z.is_nonneg mz) Z.lt_0_1 Hpre) as [HM Hshape].
  rewrite Z.div_1_r in HM, Hshape. rewrite loc_of_1 in Hshape.
  rewrite Hshape. apply abs_pack_rounded, HM.
Qed.

(** The difference of two finite floats is never NaN: its absolute
    value compares greater than or equal to zero. *)
Lemma abs_sub_nonneg_spec (x y : spec_float) :
  finite_or_zero x = true -> finite_or_zero y = true ->
  SFleb (S754_zero false) (SFabs (SFsub prec emax x y)) = true.
Proof.
  intros Fx Fy.
  destruct x as [sx|sx| |sx mx ex]; try discriminate;
    destruct y as [sy|sy| |sy my ey]; try discriminate; cbn [SFsub].
  - destruct sx, sy; reflexivity.
  - reflexivity.
  - reflexivity.
  - destruct (_ - _) as [|k|k]; cbn [binary_normalize];
      [reflexivity | apply abs_binary_round_nonneg ..].
Qed.

Lemma abs_binary_round_aux_sign (s : bool) (m e : Z) (l : location) :
  SFabs (binary_round_aux prec emax s m e l)
  = SFabs (binary_round_aux prec emax false m e l).
Proof.
  unfold binary_round_aux.
  destruct (shr_fexp prec emax m e l) as [mrs' e'].
  destruct (shr_fexp prec emax _ e' loc_Exact) as [mrs'' e''].
  destruct (shr_m mrs''); try reflexivity.
  destruct (e'' <=? emax - prec); reflexivity.
Qed.

Lemma abs_binary_normalize_opp (K e : Z) :
  SFabs (binary_normalize prec emax (- K) e false)
  = SFabs (binary_normalize prec emax K e false).
Proof.
  destruct K as [|k|k]; cbn [Z.opp binary_normalize]; try reflexivity;
    unfold binary_round;
    destruct (shl_align k e _) as [mz ez];
    rewrite (abs_binary_round_aux_sign true); reflexivity.
Qed.

(** [|x - y|] and [|y - x|] are the same float, whatever [x] and [y]. *)
Lemma abs_sub_sym_spec (x y : spec_float) :
  SFabs (SFsub prec emax x y) = SFabs (SFsub prec emax y x).
Proof.
  destruct x as [sx|sx| |sx mx ex]; destruct y as [sy|sy| |sy my ey];
    cbn [SFsub]; try reflexivity;
    try (destruct sx, sy; reflexivity);
    try (destruct sx; reflexivity); try (destruct sy; reflexivity).
  rewrite (Z.min_comm ey ex).
  rewrite <- abs_binary_normalize_opp. f_equal. f_equal. ring.
Qed.

(** *** Neighbours of a float *)

(** A valid finite float with the scaled value of a positive valid
    float is that float. *)
Lemma SFint_inj (x : spec_float) (mf : positive) (ef : Z) :
  valid_binary x = true -> finite_or_zero x = true ->
  valid_binary (S754_finite false mf ef) = true ->
  SFint x = Zpos mf * 2 ^ (ef + 1074) ->
  x = S754_finite false mf ef.
Proof.
  intros Vx Fx Vf Heq.
  destruct (valid_finite _ _ _ Vf) as (_ & Hef & _).
  pose proof (pow2_pos (ef + 1074) ltac:(lia)) as Hpf.
  destruct x as [sx|sx| |sx mx ex]; try discriminate; cbn [SFint] in Heq.
  - nia.
  - destruct (valid_finite _ _ _ Vx) as (_ & Hex & _).
    pose proof (pow2_pos (ex + 1074) ltac:(lia)) as Hpx.
    destruct sx; [nia|]. rewrite Z.mul_1_l in Heq.
    destruct (Z.lt_trichotomy ex ef) as [Hlt|[->|Hgt]].
    + pose proof (canonical_lt false false mx mf ex ef Vx Vf Hlt). lia.
    + assert (Zpos mx = Zpos mf) by nia. congruence.
    + pose proof (canonical_lt false false mf mx ef ex Vf Vx Hgt). lia.
Qed.

(** Below a normal float whose mantissa is not a power of two, the next
    float is one unit of its last place away. *)
Lemma SFint_below (x : spec_float) (mf : positive) (ef : Z) :
  valid_binary x = true -> finite_or_zero x = true ->
  valid_binary (S754_finite false mf ef) = true ->
  2 ^ 52 < Zpos mf ->
  SFint x < Zpos mf * 2 ^ (ef + 1074) ->
  SFint x <= (Zpos mf - 1) * 2 ^ (ef + 1074).
Proof.
  intros Vx Fx Vf Hmf Hlt.
  destruct (valid_finite _ _ _ Vf) as (_ & Hef & _).
  pose proof (pow2_pos (ef + 1074) ltac:(lia)) as Hpf.
  destruct x as [sx|sx| |sx mx ex]; try discriminate; cbn [SFint] in *.
  - nia.
  - destruct (valid_finite _ _ _ Vx) as (_ & Hex & _ & _ & Hmx).
    pose proof (pow2_pos (ex + 1074) ltac:(lia)) as Hpx.
    destruct sx; [nia|]. rewrite Z.mul_1_l in *.
    destruct (Z.lt_trichotomy ex ef) as [Hlt'|[->|Hgt]].
    + assert (Hp : 2 ^ (ef + 1074) = 2 ^ (ef - ex - 1) * 2 * 2 ^ (ex + 1074)).
      { rewrite <- (Z.pow_1_r 2) at 3. rewrite <- !Z.pow_add_r by lia.
        f_equal. lia. }
      pose proof (pow2_pos (ef - ex - 1) ltac:(lia)) as Hp2.
      rewrite Hp. change (2 ^ 53) with (2 ^ 52 * 2) in Hmx. nia.
    + assert (Zpos mx < Zpos mf)
        by (apply (Z.mul_lt_mono_pos_r (2 ^ (ef + 1074))); assumption).
      apply Z.mul_le_mono_nonneg_r; lia.
    + pose proof (canonical_lt false false mf mx ef ex Vf Vx Hgt). lia.
Qed.

(** *** The constants of the phase computation *)

Local Open Scope float_scope.

Lemma Prim2SF_pi : Prim2SF pi = S754_finite false 7074237752028440 (-51).
Proof. vm_compute. reflexivity. Qed.

Lemma Prim2SF_neg_pi :
  Prim2SF (- pi) = S754_finite true 7074237752028440 (-51).
Proof. vm_compute. reflexivity. Qed.

Lemma Prim2SF_two_pi :
  Prim2SF (2 * pi) = S754_finite false 7074237752028440 (-50).
Proof. vm_compute. reflexivity. Qed.

Lemma Prim2SF_180 : Prim2SF 180 = S754_finite false 6333186975989760 (-45).
Proof. vm_compute. reflexivity. Qed.

Lemma Prim2SF_pi_180 :
  Prim2SF (pi * 180) = S754_finite false 4974073419394997 (-43).
Proof. vm_compute. reflexivity. Qed.

Lemma Prim2SF_0 : Prim2SF 0 = S754_zero false.
Proof. vm_compute. reflexivity. Qed.

Lemma Prim2SF_infinity : Prim2SF infinity = S754_infinity false.
Proof. vm_compute. reflexivity. Qed.

Local Close Scope float_scope.

(** *** Floats *)

Local Open Scope float_scope.

Lemma finite_spec (x : float) :
  finite x = true -> finite_or_zero (Prim2SF x) = true.
Proof.
  unfold finite. rewrite ltb_spec, abs_spec, Prim2SF_infinity.
  destruct (Prim2SF x) as [s|s| |s m e]; try reflexivity; discriminate.
Qed.

(** [abs (x - y)] and [abs (y - x)] are the same float. *)
Lemma abs_sub_sym (x y : float) : abs (x - y) = abs (y - x).
Proof.
  apply Prim2SF_inj. rewrite !abs_spec, !sub_spec. apply abs_sub_sym_spec.
Qed.

(** The absolute difference of two finite floats is not NaN. *)
Lemma abs_sub_nonneg (x y : float) :
  finite x = true -> finite y = true -> (0 <=? abs (x - y)) = true.
Proof.
  intros Fx Fy. rewrite leb_spec, abs_spec, sub_spec, Prim2SF_0.
  apply abs_sub_nonneg_spec; now apply finite_spec.
Qed.

Local Close Scope float_scope.

Lemma Ipi_pos : 0 < Ipi.
Proof. reflexivity. Qed.

Lemma SFint_pi : SFint (S754_finite false 7074237752028440 (-51)) = Ipi.
Proof. reflexivity. Qed.

Lemma SFint_neg_pi : SFint (S754_finite true 7074237752028440 (-51)) = - Ipi.
Proof. reflexivity. Qed.

Lemma scaled_pi : 7074237752028440 * 2 ^ (-51 + 1074) = Ipi.
Proof. reflexivity. Qed.

Lemma scaled_two_pi : 7074237752028440 * 2 ^ (-50 + 1074) = 2 * Ipi.
Proof. reflexivity. Qed.

Lemma SFint_two_pi :
  SFint (S754_finite false 7074237752028440 (-50)) = 2 * Ipi.
Proof. reflexivity. Qed.

Lemma in_phase_range_spec (p : float) :
  in_phase_range p = true ->
  finite_or_zero (Prim2SF p) = true /\ Z.abs (SFint (Prim2SF p)) <= Ipi.
Proof.
  unfold in_phase_range. intros H. apply andb_true_iff in H as [Hlo Hhi].
  rewrite leb_spec, Prim2SF_neg_pi in Hlo.
  rewrite leb_spec, Prim2SF_pi in Hhi.
  assert (Fp : finite_or_zero (Prim2SF p) = true)
    by (eapply between_finite; [| |exact Hlo|exact Hhi]; reflexivity).
  split; [exact Fp|].
  pose proof (Prim2SF_valid p) as Vp.
  rewrite SFleb_int in Hlo, Hhi by (trivial; reflexivity).
  apply Z.leb_le in Hlo, Hhi.
  rewrite SFint_neg_pi in Hlo. rewrite SFint_pi in Hhi.
  generalize dependent Ipi. intros. lia.
Qed.

Lemma le_of_leb (a b : Z) : (a <=? b) = true -> a <= b.
Proof. apply Z.leb_le. Qed.

(** The phase error computed from two angles in [[-pi, pi]] lies in
    [[0, 180]]. *)
Lemma wrapped_phase_in_range (p1 p2 : float) :
  in_phase_range p1 = true -> in_phase_range p2 = true ->
  let d := abs (p1 - p2)%float in
  let d' := if (pi <? d)%float then (2 * pi - d)%float else d in
  (0 <=? d' * 180 / pi)%float = true /\
  (d' * 180 / pi <=? 180)%float = true.
Proof.
  intros H1 H2 d d'.
  destruct (in_phase_range_spec p1 H1) as [F1 B1].
  destruct (in_phase_range_spec p2 H2) as [F2 B2].
  assert (Vpi : valid_binary (S754_finite false 7074237752028440 (-51)) = true)
    by reflexivity.
  assert (V2pi : valid_binary (S754_finite false 7074237752028440 (-50)) = true)
    by reflexivity.
  pose proof Ipi_pos as HIpi.
  unfold SF64sub, SF64mul, SF64div in *.
  (* the absolute difference is at most 2 pi *)
  assert (Hd : finite_or_zero (Prim2SF d) = true /\
               0 <= SFint (Prim2SF d) <= 2 * Ipi).
  { subst d. rewrite abs_spec, sub_spec, finite_or_zero_abs, SFint_abs.
    unfold SF64sub.
    destruct (sub_bounded (Prim2SF p1) (Prim2SF p2) 7074237752028440 (-50)
                (Prim2SF_valid p1) (Prim2SF_valid p2) F1 F2 V2pi)
      as (Hf & Hb & _).
    - rewrite scaled_two_pi. generalize dependent Ipi. intros. lia.
    - split; [exact Hf|]. rewrite scaled_two_pi in Hb.
      generalize dependent Ipi. intros. lia. }
  destruct Hd as [Fd Bd].
  (* after the reflection it is at most pi *)
  assert (Hd' : finite_or_zero (Prim2SF d') = true /\
                0 <= SFint (Prim2SF d') <= Ipi).
  { subst d'. rewrite ltb_spec, Prim2SF_pi.
    rewrite SFltb_int by (trivial; try reflexivity; apply Prim2SF_valid).
    rewrite SFint_pi.
    destruct (Z.ltb_spec Ipi (SFint (Prim2SF d))) as [Hgt|Hle].
    - rewrite sub_spec, Prim2SF_two_pi. unfold SF64sub.
      destruct (sub_bounded (S754_finite false 7074237752028440 (-50))
                  (Prim2SF d) 7074237752028440 (-51)
                  V2pi (Prim2SF_valid d) eq_refl Fd Vpi)
        as (Hf & Hb & Hpos & _).
      + rewrite SFint_two_pi, scaled_pi.
        generalize dependent Ipi. intros. lia.
      + split; [exact Hf|].
        rewrite scaled_pi in Hb. rewrite SFint_two_pi in Hpos.
        specialize (Hpos ltac:(lia)).
        generalize dependent Ipi. intros. lia.
    - split; [exact Fd|lia]. }
  destruct Hd' as [Fd' Bd'].
  (* times 180: at most the double of pi * 180 *)
  assert (VP : valid_binary (S754_finite false 4974073419394997 (-43)) = true)
    by reflexivity.
  assert (He : finite_or_zero (Prim2SF (d' * 180)%float) = true /\
               0 <= SFint (Prim2SF (d' * 180)%float)
               <= 4974073419394997 * 2 ^ (-43 + 1074)).
  { rewrite mul_spec, Prim2SF_180. unfold SF64mul.
    apply (mul_bounded (Prim2SF d') 6333186975989760 (-45)
                       4974073419394997 (-43));
      try assumption; try apply Prim2SF_valid;
      try (apply le_of_leb; reflexivity); try lia.
    transitivity (Ipi * 6333186975989760).
    - apply Z.mul_le_mono_nonneg_r; lia.
    - apply le_of_leb. vm_compute. reflexivity. }
  destruct He as [Fe Be].
  (* divided by pi: at most 180 *)
  assert (V180 : valid_binary (S754_finite false 6333186975989760 (-45)) = true)
    by reflexivity.
  assert (Hq : finite_or_zero (Prim2SF (d' * 180 / pi)%float) = true /\
               0 <= SFint (Prim2SF (d' * 180 / pi)%float)
               <= 6333186975989760 * 2 ^ (-45 + 1074)).
  { destruct (Z.eq_dec (SFint (Prim2SF (d' * 180)%float))
                       (4974073419394997 * 2 ^ (-43 + 1074))) as [Heq|Hne].
    - (* the product is the double of pi * 180, whose quotient is 180 *)
      apply SFint_inj in Heq;
        [|apply Prim2SF_valid|assumption|assumption].
      rewrite <- Prim2SF_pi_180 in Heq. apply Prim2SF_inj in Heq.
      rewrite Heq. vm_compute. repeat split; discriminate.
    - assert (Hlt : SFint (Prim2SF (d' * 180)%float)
                    <= (4974073419394997 - 1) * 2 ^ (-43 + 1074)).
      { apply (SFint_below _ _ _ (Prim2SF_valid _) Fe VP);
          [apply Z.ltb_lt; reflexivity | lia]. }
      rewrite div_spec, Prim2SF_pi. unfold SF64div.
      apply (div_bounded (Prim2SF (d' * 180)%float) 7074237752028440 (-51)
                         6333186975989760 (-45));
        try assumption; try apply Prim2SF_valid; lia. }
  destruct Hq as [Fq Bq].
  rewrite !leb_spec, Prim2SF_0, Prim2SF_180.
  rewrite !SFleb_int by (trivial; try reflexivity; apply Prim2SF_valid).
  cbn [SFint]. rewrite Z.mul_1_l. split; apply Z.leb_le; lia.
Qed.

(** *** The order of the doubles that are not NaN *)

Lemma SFint_bound (x : spec_float) :
  valid_binary x = true -> finite_or_zero x = true ->
  - 2 ^ 2100 < SFint x < 2 ^ 2100.
Proof.
  intros Vx Fx. destruct x as [s|s| |s m e]; try discriminate; cbn [SFint].
  - split; reflexivity.
  - destruct (valid_finite _ _ _ Vx) as (_ & He & _ & _ & Hm).
    pose proof (pow2_pos (e + 1074) ltac:(lia)) as Hp.
    assert (Hpow : 2 ^ (e + 1074) <= 2 ^ 2045)
      by (apply Z.pow_le_mono_r; lia).
    assert (Hprod : Zpos m * 2 ^ (e + 1074) < 2 ^ 53 * 2 ^ 2046).
    { apply Z.mul_lt_mono_nonneg; lia. }
    assert (Hcap : 2 ^ 53 * 2 ^ 2046 < 2 ^ 2100) by reflexivity.
    destruct s; lia.
Qed.

Lemma SFcompare_ext (x y : spec_float) :
  valid_binary x = true -> valid_binary y = true ->
  not_nan x = true -> not_nan y = true ->
  SFcompare x y = Some (SFext x ?= SFext y).
Proof.
  intros Vx Vy Nx Ny.
  destruct (finite_or_zero x) eqn:Fx; destruct (finite_or_zero y) eqn:Fy.
  - rewrite SFcompare_int by assumption.
    destruct x; try discriminate; destruct y; try discriminate; reflexivity.
  - destruct y as [sy|sy| |sy my ey]; try discriminate.
    pose proof (SFint_bound x Vx Fx) as Hb.
    unfold SFext at 2.
    replace (SFext x) with (SFint x)
      by (destruct x; try discriminate; reflexivity).
    destruct x as [sx|sx| |sx mx ex]; try discriminate;
      cbn [SFcompare]; f_equal; symmetry;
      destruct sy;
      (apply Z.compare_gt_iff; lia) || (apply Z.compare_lt_iff; lia).
  - destruct x as [sx|sx| |sx mx ex]; try discriminate.
    pose proof (SFint_bound y Vy Fy) as Hb.
    unfold SFext at 1.
    replace (SFext y) with (SFint y)
      by (destruct y; try discriminate; reflexivity).
    destruct y as [sy|sy| |sy my ey]; try discriminate;
      cbn [SFcompare]; f_equal; symmetry;
      destruct sx;
      (apply Z.compare_gt_iff; lia) || (apply Z.compare_lt_iff; lia).
  - destruct x as [sx|sx| |sx mx ex]; try discriminate.
    destruct y as [sy|sy| |sy my ey]; try discriminate.
    destruct sx, sy; reflexivity.
Qed.

Lemma ltb_nan_l (x y : float) :
  not_nan (Prim2SF x) = false -> PrimFloat.ltb x y = false.
Proof.
  intros H. rewrite ltb_spec.
  destruct (Prim2SF x); try discriminate. reflexivity.
Qed.

Lemma ltb_nan_r (x y : float) :
  not_nan (Prim2SF y) = false -> PrimFloat.ltb x y = false.
Proof.
  intros H. rewrite ltb_spec.
  destruct (Prim2SF y); try discriminate.
  now destruct (Prim2SF x).
Qed.

Lemma ltb_ext (x y : float) :
  not_nan (Prim2SF x) = true -> not_nan (Prim2SF y) = true ->
  PrimFloat.ltb x y = (SFext (Prim2SF x) <? SFext (Prim2SF y)).
Proof.
  intros Nx Ny. rewrite ltb_spec. unfold SFltb.
  rewrite SFcompare_ext by (trivial; apply Prim2SF_valid).
  unfold Z.ltb. now destruct (SFext (Prim2SF x) ?= SFext (Prim2SF y)).
Qed.

Lemma is_nan_spec (x : float) :
  PrimFloat.is_nan x = negb (not_nan (Prim2SF x)).
Proof.
  unfold PrimFloat.is_nan. rewrite eqb_spec. unfold SFeqb.
  destruct (not_nan (Prim2SF x)) eqn:Nx.
  - rewrite SFcompare_ext by (trivial; apply Prim2SF_valid).
    now rewrite Z.compare_refl.
  - destruct (Prim2SF x); try discriminate. reflexivity.
Qed.

(** ** Symmetry, sign and range of the per-index errors *)

(** The absolute difference of two floats compares [>= 0] exactly when
    the difference is a number, and is NaN otherwise. *)
Lemma abs_sub_sign_spec (x y : spec_float) :
  valid_binary x = true -> valid_binary y = true ->
  SFleb (S754_zero false) (SFabs (SFsub prec emax x y))
  = not_nan x && not_nan y
    && negb (SFeqb (SFabs x) (S754_infinity false) && SFeqb x y) /\
  not_nan (SFabs (SFsub prec emax x y))
  = SFleb (S754_zero false) (SFabs (SFsub prec emax x y)).
Proof.
  intros Vx Vy.
  destruct (finite_or_zero x) eqn:Fx; destruct (finite_or_zero y) eqn:Fy.
  - pose proof (abs_sub_nonneg_spec x y Fx Fy) as H. rewrite H.
    assert (Hx : not_nan x = true) by (now destruct x).
    assert (Hy : not_nan y = true) by (now destruct y).
    assert (Hinf : SFeqb (SFabs x) (S754_infinity false) = false)
      by (destruct x as [s|s| |s m e]; try discriminate; reflexivity).
    rewrite Hx, Hy, Hinf. split; [reflexivity|].
    destruct (SFabs (SFsub prec emax x y)); try reflexivity; discriminate.
  - destruct y as [sy|sy| |sy my ey]; try discriminate;
      destruct x as [sx|sx| |sx mx ex]; try discriminate;
      split; reflexivity.
  - destruct x as [sx|sx| |sx mx ex]; try discriminate;
      destruct y as [sy|sy| |sy my ey]; try discriminate;
      try (split; reflexivity); destruct sx; split; reflexivity.
  - destruct x as [sx|sx| |sx mx ex]; try discriminate;
      destruct y as [sy|sy| |sy my ey]; try discriminate;
      try (split; reflexivity); destruct sx, sy; split; reflexivity.
Qed.

Lemma abs_sub_sign (u v : float) :
  PrimFloat.leb 0 (abs (u - v)) = difference_is_a_number u v /\
  PrimFloat.is_nan (abs (u - v)) = negb (difference_is_a_number u v).
Proof.
  unfold difference_is_a_number, PrimFloat.is_infinity.
  rewrite !is_nan_spec, !Bool.negb_involutive.
  rewrite leb_spec, !eqb_spec, !abs_spec, sub_spec, Prim2SF_0,
    Prim2SF_infinity.
  unfold SF64sub.
  destruct (abs_sub_sign_spec (Prim2SF u) (Prim2SF v)
              (Prim2SF_valid u) (Prim2SF_valid v)) as [H1 H2].
  rewrite H2, H1. split; reflexivity.
Qed.

Lemma is_nan_true (x : float) :
  PrimFloat.is_nan x = true <-> Prim2SF x = S754_nan.
Proof.
  rewrite is_nan_spec. split.
  - intros H. destruct (Prim2SF x); try discriminate. reflexivity.
  - intros ->. reflexivity.
Qed.

(** A NaN absolute difference of the two angles stays NaN through the
    wrap and the conversion to degrees. *)
Lemma wrapped_phase_nan (d : float) :
  PrimFloat.is_nan d = true ->
  PrimFloat.is_nan
    ((if (pi <? d)%float then (2 * pi - d)%float else d) * 180 / pi)%float
  = true.
Proof.
  intros Hd. apply is_nan_true in Hd.
  assert (Hlt : (pi <? d)%float = false)
    by (apply ltb_nan_r; now rewrite Hd).
  rewrite Hlt. apply is_nan_true.
  rewrite div_spec, mul_spec, Hd. reflexivity.
Qed.

Section ErrorFacts.

Variable cabs : complex -> float.
Variable atan2 : float -> float -> float.

Lemma mag_error_sym (a b : complex) : mag_error cabs a b = mag_error cabs b a.
Proof. unfold mag_error. apply abs_sub_sym. Qed.

Lemma phase_error_sym (a b : complex) :
  phase_error atan2 a b = phase_error atan2 b a.
Proof.
  unfold phase_error. cbv zeta.
  now rewrite (abs_sub_sym (atan2 (imag a) (real a)) (atan2 (imag b) (real b))).
Qed.

Lemma mag_error_nonneg (a b : complex) :
  finite (cabs a) = true -> finite (cabs b) = true ->
  PrimFloat.leb 0 (mag_error cabs a b) = true.
Proof. unfold mag_error. apply abs_sub_nonneg. Qed.

(** The magnitude error is [>= 0] exactly when the difference of the
    two magnitudes is a number, and NaN otherwise. *)
Lemma mag_error_sign (a b : complex) :
  PrimFloat.leb 0 (mag_error cabs a b)
  = difference_is_a_number (cabs a) (cabs b) /\
  PrimFloat.is_nan (mag_error cabs a b)
  = negb (difference_is_a_number (cabs a) (cabs b)).
Proof. unfold mag_error. apply abs_sub_sign. Qed.

Lemma phase_error_range (a b : complex) :
  in_phase_range (atan2 (imag a) (real a)) = true ->
  in_phase_range (atan2 (imag b) (real b)) = true ->
  PrimFloat.leb 0 (phase_error atan2 a b) = true /\
  PrimFloat.leb (phase_error atan2 a b) 180 = true.
Proof. intros Ha Hb. unfold phase_error. now apply wrapped_phase_in_range. Qed.

(** With an angle that is NaN the phase error is NaN. *)
Lemma phase_error_nan (a b : complex) :
  PrimFloat.is_nan (atan2 (imag a) (real a)) = true \/
  PrimFloat.is_nan (atan2 (imag b) (real b)) = true ->
  PrimFloat.is_nan (phase_error atan2 a b) = true.
Proof.
  intros H. unfold phase_error. cbv zeta. apply wrapped_phase_nan.
  destruct (abs_sub_sign (atan2 (imag a) (real a)) (atan2 (imag b) (real b)))
    as [_ Hnan].
  rewrite Hnan. unfold difference_is_a_number.
  destruct H as [-> | ->]; cbn [negb andb]; [reflexivity|].
  now rewrite Bool.andb_false_r.
Qed.

Lemma map_combine_sym {A B} (f : A -> A -> B) (a b : list A) :
  (forall x y, f x y = f y x) ->
  map (fun p => f (fst p) (snd p)) (combine a b)
  = map (fun p => f (fst p) (snd p)) (combine b a).
Proof.
  intros Hf. revert b; induction a as [|x a IH]; intros [|y b]; simpl; trivial.
  now rewrite Hf, IH.
Qed.

Lemma Forall_map_combine {A B} (f : A -> A -> B) (P : A -> Prop)
      (Q : B -> Prop) (a b : list A) :
  (forall x y, P x -> P y -> Q (f x y)) ->
  Forall P a -> Forall P b ->
  Forall Q (map (fun p => f (fst p) (snd p)) (combine a b)).
Proof.
  intros Hf Ha. revert b; induction Ha as [|x a Hx Ha IH]; intros b Hb.
  - constructor.
  - destruct Hb as [|y b Hy Hb]; simpl; constructor; auto.
Qed.

(** The error at an index is computed from the two samples at that
    index. *)
Lemma nth_error_map_combine {A B} (f : A -> A -> B) (a b : list A)
      (i : nat) (x y : A) :
  nth_error a i = Some x -> nth_error b i = Some y ->
  nth_error (map (fun p => f (fst p) (snd p)) (combine a b)) i
  = Some (f x y).
Proof.
  revert a b; induction i as [|i IH]; intros [|x' a] [|y' b] Hx Hy;
    try discriminate; cbn [nth_error combine map] in *.
  - injection Hx as ->. injection Hy as ->. reflexivity.
  - now apply IH.
Qed.

End ErrorFacts.

(** C7 (as amended). For every pair of arrays the error series of
    (a, b) are those of (b, a), and at every index [i] that both arrays
    have, with samples [x = a[i]] and [y = b[i]]: the two errors at [i]
    are computed from [x] and [y] alone and are the same floats for
    (x, y) and for (y, x); the magnitude error is [>= 0] exactly when
    neither magnitude is NaN and the two magnitudes are not the same
    infinity (an infinite magnitude against a finite one gives the
    error [inf]), and it is NaN otherwise; the phase error lies in
    [[0, 180]] when the two angles at [i] lie in [[-pi, pi]], and it is
    NaN when one of the two angles is NaN. *)
Theorem error_symmetry_and_range :
  forall (cabs : complex -> float) (atan2 : float -> float -> float)
         (a b : list complex),
    magnitude_errors cabs a b = magnitude_errors cabs b a /\
    phase_errors atan2 a b = phase_errors atan2 b a /\
    (forall (i : nat) (x y : complex),
        nth_error a i = Some x -> nth_error b i = Some y ->
        nth_error (magnitude_errors cabs a b) i = Some (mag_error cabs x y) /\
        nth_error (phase_errors atan2 a b) i = Some (phase_error atan2 x y) /\
        mag_error cabs x y = mag_error cabs y x /\
        phase_error atan2 x y = phase_error atan2 y x /\
        PrimFloat.leb 0 (mag_error cabs x y)
        = difference_is_a_number (cabs x) (cabs y) /\
        PrimFloat.is_nan (mag_error cabs x y)
        = negb (difference_is_a_number (cabs x) (cabs y)) /\
        (in_phase_range (atan2 (imag x) (real x)) = true ->
         in_phase_range (atan2 (imag y) (real y)) = true ->
         PrimFloat.leb 0 (phase_error atan2 x y) = true /\
         PrimFloat.leb (phase_error atan2 x y) 180 = true) /\
        (PrimFloat.is_nan (atan2 (imag x) (real x)) = true \/
         PrimFloat.is_nan (atan2 (imag y) (real y)) = true ->
         PrimFloat.is_nan (phase_error atan2 x y) = true)).
Proof.
  intros cabs atan2 a b. unfold magnitude_errors, phase_errors.
  split; [apply map_combine_sym, mag_error_sym|].
  split; [apply map_combine_sym, phase_error_sym|].
  intros i x y Hx Hy.
  split; [now apply nth_error_map_combine|].
  split; [now apply nth_error_map_combine|].
  split; [apply mag_error_sym|].
  split; [apply phase_error_sym|].
  destruct (mag_error_sign cabs x y) as [Hsign Hnan].
  split; [exact Hsign|]. split; [exact Hnan|].
  split; [apply phase_error_range|apply phase_error_nan].
Qed.

(** An infinite sample next to a finite pair: index 0 holds the
    magnitudes 1 and 1, index 1 the magnitudes [inf] and 2; both
    magnitude errors are [>= 0], the second being [inf], and both phase
    errors are in range. *)
Lemma error_symmetry_and_range_witness :
  let a := [Complex 1%float 0%float; Complex infinity 0%float] in
  let b := [Complex 1%float 0%float; Complex 2%float 0%float] in
  (nth_error (magnitude_errors cabs_on_axis a b) 0
   = Some (mag_error cabs_on_axis (Complex 1%float 0%float)
                     (Complex 1%float 0%float)) /\
   PrimFloat.leb 0 (mag_error cabs_on_axis (Complex 1%float 0%float)
                              (Complex 1%float 0%float)) = true) /\
  (nth_error (magnitude_errors cabs_on_axis a b) 1
   = Some (mag_error cabs_on_axis (Complex infinity 0%float)
                     (Complex 2%float 0%float)) /\
   mag_error cabs_on_axis (Complex infinity 0%float) (Complex 2%float 0%float)
   = infinity /\
   PrimFloat.leb 0 (mag_error cabs_on_axis (Complex infinity 0%float)
                              (Complex 2%float 0%float)) = true /\
   PrimFloat.leb (phase_error atan2_on_axis (Complex infinity 0%float)
                              (Complex 2%float 0%float)) 180 = true).
Proof.
  intros a b.
  destruct (error_symmetry_and_range cabs_on_axis atan2_on_axis a b)
    as (_ & _ & H).
  split.
  - destruct (H 0%nat (Complex 1%float 0%float) (Complex 1%float 0%float)
                eq_refl eq_refl) as (Hm & _ & _ & _ & Hsign & _).
    split; [exact Hm|]. rewrite Hsign. reflexivity.
  - destruct (H 1%nat (Complex infinity 0%float) (Complex 2%float 0%float)
                eq_refl eq_refl) as (Hm & _ & _ & _ & Hsign & _ & Hphase & _).
    split; [exact Hm|]. split; [reflexivity|].
    split; [rewrite Hsign; reflexivity|].
    now apply Hphase.
Defined.

(** C7 as stated fails: two samples of infinite magnitude give the
    magnitude error NaN, which is not [>= 0]. *)
Lemma infinite_magnitudes_give_nan :
  magnitude_errors cabs_on_axis [Complex infinity 0%float]
                   [Complex infinity 0%float] = [nan] /\
  PrimFloat.leb 0 nan = false.
Proof. split; vm_compute; reflexivity. Qed.

(** * Further properties of the pipeline *)

(** ** The segmenter: which lines are captured *)

Lemma captured_scan_line (st : scan_state) (line : string) :
  captured (scan_line st line) = captured st \/
  captured (scan_line st line) = (captured st ++ [Py.strip line])%list.
Proof.
  rewrite scan_line_unfold. unfold captured.
  destruct (sentinel_transition (prev_line st) (columns_of line));
    unfold toggle, capture; destruct (is_saving st) eqn:Es;
    cbn [all_results result is_saving]; rewrite ?Es;
    cbn [all_results result is_saving].
  - left. rewrite concat_app. cbn [List.concat]. now rewrite !app_nil_r.
  - right. now rewrite app_assoc.
  - right. now rewrite app_assoc.
  - now left.
Qed.

(** The marker is rewritten exactly when a captured line carries the
    signature. *)
Lemma marker_scan_line (st : scan_state) (line : string) :
  size_line st = last (filter has_signature (captured st)) "" ->
  size_line (scan_line st line)
  = last (filter has_signature (captured (scan_line st line))) "".
Proof.
  intros Hinv. rewrite scan_line_unfold. unfold captured in *.
  destruct (sentinel_transition (prev_line st) (columns_of line));
    unfold toggle, capture; destruct (is_saving st) eqn:Es;
    cbn [all_results result is_saving size_line]; rewrite ?Es;
    cbn [all_results result is_saving size_line].
  - rewrite concat_app. cbn [List.concat]. now rewrite !app_nil_r.
  - rewrite app_assoc, filter_app. cbn [filter]. fold (has_signature (Py.strip line)).
    destruct (has_signature (Py.strip line)).
    + now rewrite last_last.
    + now rewrite app_nil_r.
  - rewrite app_assoc, filter_app. cbn [filter]. fold (has_signature (Py.strip line)).
    destruct (has_signature (Py.strip line)).
    + now rewrite last_last.
    + now rewrite app_nil_r.
  - exact Hinv.
Qed.

Lemma marker_fold (lines : list string) :
  forall st,
    size_line st = last (filter has_signature (captured st)) "" ->
    size_line (fold_left scan_line lines st)
    = last (filter has_signature (captured (fold_left scan_line lines st))) "".
Proof.
  induction lines as [|line rest IH]; intros st Hinv; cbn [fold_left].
  - exact Hinv.
  - apply IH, marker_scan_line, Hinv.
Qed.

(** What is returned holds the captured lines, segment by segment. *)
Lemma concat_finish (st : scan_state) :
  List.concat (fst (finish st)) = captured st.
Proof.
  unfold finish, captured. cbn [fst].
  destruct (result st) as [|l r].
  - now rewrite app_nil_r.
  - rewrite concat_app. cbn [List.concat]. now rewrite app_nil_r.
Qed.

Lemma marker_is_last (lines : list string) :
  snd (find_and_save_complex_lines lines)
  = last (filter has_signature
                 (List.concat (fst (find_and_save_complex_lines lines)))) "".
Proof.
  unfold find_and_save_complex_lines. rewrite concat_finish.
  unfold finish. cbn [snd]. now apply marker_fold.
Qed.

Lemma last_in {A} (l : list A) (d : A) : l <> [] -> In (last l d) l.
Proof.
  induction l as [|x [|y r] IH]; intros H.
  - congruence.
  - now left.
  - right. apply IH. discriminate.
Qed.

Lemma filter_none {A} (f : A -> bool) (l : list A) :
  Forall (fun x => f x = false) l -> filter f l = [].
Proof.
  induction 1 as [|x r Hx _ IH]; cbn [filter]; [reflexivity|].
  now rewrite Hx.
Qed.

(** X1. The size-marker line the segmenter returns is the last captured
    line, over all emitted segments in order, that carries the marker
    signature, and the empty string exactly when no captured line does;
    in particular a scan that emits no segment returns no marker. *)
Theorem size_marker_is_last_captured :
  forall lines : list string,
    let arrays := fst (find_and_save_complex_lines lines) in
    let marker := snd (find_and_save_complex_lines lines) in
    marker = last (filter has_signature (List.concat arrays)) "" /\
    (marker = "" <->
     Forall (fun l => has_signature l = false) (List.concat arrays)) /\
    (marker <> "" ->
     has_signature marker = true /\
     exists seg, In seg arrays /\ In marker seg) /\
    (arrays = [] -> marker = "").
Proof.
  intros lines arrays marker.
  pose proof (marker_is_last lines) as Hlast.
  fold arrays marker in Hlast.
  assert (Hmem : filter has_signature (List.concat arrays) <> [] ->
                 has_signature marker = true /\ In marker (List.concat arrays)).
  { intros Hne. pose proof (last_in _ "" Hne) as Hin.
    rewrite <- Hlast in Hin. apply filter_In in Hin. tauto. }
  split; [exact Hlast|]. split; [|split].
  - split.
    + intros Hm. apply Forall_forall. intros l Hl.
      destruct (has_signature l) eqn:El; [|reflexivity].
      assert (Hne : filter has_signature (List.concat arrays) <> []).
      { intros E. assert (Hin : In l (filter has_signature (List.concat arrays)))
          by (apply filter_In; split; assumption).
        rewrite E in Hin. destruct Hin. }
      destruct (Hmem Hne) as [Hs _]. rewrite Hm in Hs. discriminate.
    + intros Hall. rewrite Hlast.
      now rewrite (filter_none _ _ Hall).
  - intros Hm.
    assert (Hne : filter has_signature (List.concat arrays) <> []).
    { intros E. rewrite E in Hlast. now apply Hm. }
    destruct (Hmem Hne) as [Hs Hin]. split; [exact Hs|].
    apply in_concat in Hin as (seg & Hseg & Hin). now exists seg.
  - intros E. rewrite Hlast, E. reflexivity.
Qed.

(** *** Captured lines are lines of the trace, in order *)

Lemma subsequence_refl {A} (l : list A) : subsequence l l.
Proof. induction l; constructor; assumption. Qed.

Lemma subsequence_app {A} (l1 l2 k1 k2 : list A) :
  subsequence l1 l2 -> subsequence k1 k2 ->
  subsequence (l1 ++ k1) (l2 ++ k2).
Proof.
  induction 1; intros Hk; cbn [app].
  - exact Hk.
  - apply subsequence_skip. auto.
  - apply subsequence_keep. auto.
Qed.

Lemma subsequence_length {A} (l1 l2 : list A) :
  subsequence l1 l2 -> (List.length l1 <= List.length l2)%nat.
Proof. induction 1; cbn [List.length]; lia. Qed.

Lemma subsequence_in {A} (l1 l2 : list A) (x : A) :
  subsequence l1 l2 -> In x l1 -> In x l2.
Proof.
  induction 1; intros Hin.
  - exact Hin.
  - right. auto.
  - destruct Hin as [->|Hin]; [now left|right; auto].
Qed.

Lemma captured_fold (lines : list string) :
  forall st seen,
    subsequence (captured st) seen ->
    subsequence (captured (fold_left scan_line lines st))
                (seen ++ map Py.strip lines).
Proof.
  induction lines as [|line rest IH]; intros st seen Hsub; cbn [fold_left map].
  - now rewrite app_nil_r.
  - replace (seen ++ Py.strip line :: map Py.strip rest)%list
      with ((seen ++ [Py.strip line]) ++ map Py.strip rest)%list
      by (now rewrite <- app_assoc).
    apply IH.
    destruct (captured_scan_line st line) as [-> | ->].
    + rewrite <- (app_nil_r (captured st)).
      apply subsequence_app; [exact Hsub|]. repeat constructor.
    + apply subsequence_app; [exact Hsub|]. apply subsequence_refl.
Qed.

(** X2. The emitted segments, laid end to end, are a subsequence of the
    stripped lines of the trace: every captured line is the stripped
    text of a trace line, no line is captured twice or out of order, and
    the segments together hold at most as many lines as the trace. *)
Theorem captured_lines_are_a_subsequence :
  forall lines : list string,
    let arrays := fst (find_and_save_complex_lines lines) in
    subsequence (List.concat arrays) (map Py.strip lines) /\
    (List.length (List.concat arrays) <= List.length lines)%nat /\
    (forall seg l, In seg arrays -> In l seg ->
                   exists line, In line lines /\ l = Py.strip line).
Proof.
  intros lines arrays.
  assert (Hsub : subsequence (List.concat arrays) (map Py.strip lines)).
  { unfold arrays, find_and_save_complex_lines. rewrite concat_finish.
    apply (captured_fold lines initial_state []). constructor. }
  split; [exact Hsub|]. split.
  - apply subsequence_length in Hsub. now rewrite length_map in Hsub.
  - intros seg l Hseg Hl.
    assert (Hin : In l (List.concat arrays))
      by (apply in_concat; now exists seg).
    apply (subsequence_in _ _ _ Hsub) in Hin.
    apply in_map_iff in Hin as (line & <- & Hline). now exists line.
Qed.

(** *** Reading on: what more lines can change *)

Lemma fold_well_formed (lines : list string) :
  forall st, well_formed st -> well_formed (fold_left scan_line lines st).
Proof.
  induction lines as [|line rest IH]; intros st Hwf; cbn [fold_left].
  - exact Hwf.
  - apply IH, scan_line_well_formed, Hwf.
Qed.

(** From any state on, the closed segments stay as they are and in
    front, and the open segment can only grow at its end. *)
Lemma scan_extends (lines : list string) :
  forall st,
    well_formed st ->
    exists tail rest,
      fst (finish (fold_left scan_line lines st))
      = if is_saving st
        then (all_results st ++ (result st ++ tail) :: rest)%list
        else (all_results st ++ rest)%list.
Proof.
  induction lines as [|line ls IH]; intros st Hwf.
  - exists [], []. unfold well_formed in Hwf. unfold finish.
    cbn [fold_left fst]. destruct (is_saving st).
    + destruct (result st) as [|l r] eqn:Er; [congruence|].
      now rewrite app_nil_r.
    + rewrite Hwf. now rewrite app_nil_r.
  - cbn [fold_left].
    destruct (IH _ (scan_line_well_formed st line Hwf)) as (tail & rest & H).
    rewrite H. clear H IH. unfold well_formed in Hwf.
    rewrite scan_line_unfold.
    destruct (sentinel_transition (prev_line st) (columns_of line));
      unfold toggle, capture; destruct (is_saving st) eqn:Es;
      cbn [all_results result is_saving]; rewrite ?Es;
      cbn [all_results result is_saving].
    + exists [], rest. now rewrite app_nil_r, <- app_assoc.
    + eexists [], _. reflexivity.
    + exists (Py.strip line :: tail), rest. now rewrite <- app_assoc.
    + exists [], rest. reflexivity.
Qed.

(** X3. Reading further never rewrites what was found: when the trace
    read so far yields the segments [segs] followed by a last segment
    [seg], the trace with any lines appended yields [segs] unchanged,
    then [seg] with lines added at its end at most, then whatever
    follows; in particular no segment is lost. *)
Theorem appended_lines_extend_the_segments :
  forall (lines more : list string) (segs : list (list string))
         (seg : list string),
    fst (find_and_save_complex_lines lines) = (segs ++ [seg])%list ->
    exists tail rest,
      fst (find_and_save_complex_lines (lines ++ more))
      = (segs ++ (seg ++ tail) :: rest)%list /\
      (List.length (fst (find_and_save_complex_lines lines))
       <= List.length (fst (find_and_save_complex_lines (lines ++ more))))%nat.
Proof.
  intros lines more segs seg Hfound.
  unfold find_and_save_complex_lines in *. rewrite fold_left_app.
  set (st := fold_left scan_line lines initial_state) in *.
  assert (Hwf : well_formed st)
    by (apply fold_well_formed; reflexivity).
  destruct (scan_extends more st Hwf) as (tail & rest & H).
  assert (Hshape : exists tail' rest',
             fst (finish (fold_left scan_line more st))
             = (segs ++ (seg ++ tail') :: rest')%list).
  { rewrite H. unfold well_formed in Hwf. unfold finish in Hfound.
    cbn [fst] in Hfound. destruct (is_saving st).
    - destruct (result st) as [|l r] eqn:Er; [congruence|].
      apply app_inj_tail in Hfound as [-> <-]. now exists tail, rest.
    - rewrite Hwf in Hfound. rewrite Hfound.
      exists [], rest. now rewrite app_nil_r, <- app_assoc. }
  destruct Hshape as (tail' & rest' & Hshape).
  exists tail', rest'. split; [exact Hshape|].
  rewrite Hshape, Hfound, !length_app. cbn [List.length]. lia.
Qed.

(** The sample trace cut after its fifth line, inside the first dump. *)
Lemma appended_lines_extend_the_segments_witness :
  exists tail rest,
    fst (find_and_save_complex_lines
           (firstn 5 sample_trace ++ skipn 5 sample_trace))
    = ([] ++ (map Py.strip (firstn 4 (skipn 1 sample_trace)) ++ tail)
          :: rest)%list /\
    (List.length (fst (find_and_save_complex_lines (firstn 5 sample_trace)))
     <= List.length
          (fst (find_and_save_complex_lines
                  (firstn 5 sample_trace ++ skipn 5 sample_trace))))%nat.
Proof.
  apply (appended_lines_extend_the_segments
           (firstn 5 sample_trace) (skipn 5 sample_trace) []
           (map Py.strip (firstn 4 (skipn 1 sample_trace)))).
  vm_compute. reflexivity.
Defined.

(** ** The column extractor: what a column is *)

Lemma string_forallb_app (p : ascii -> bool) (s t : string) :
  string_forallb p (s ++ t) = string_forallb p s && string_forallb p t.
Proof.
  induction s as [|c r IH]; cbn [String.append string_forallb]; [reflexivity|].
  now rewrite IH, Bool.andb_assoc.
Qed.

(** Every run [str.split()] yields is a field. *)
Lemma split_from_fields (s : string) :
  forall cur,
    string_forallb (fun c => negb (Py.is_space c)) cur = true ->
    Forall (fun t => is_field t = true) (Py.split_from cur s).
Proof.
  induction s as [|c r IH]; intros cur Hcur; cbn [Py.split_from].
  - destruct cur as [|c0 cur']; constructor; [|constructor].
    unfold is_field. now rewrite Hcur.
  - destruct (Py.is_space c) eqn:Ec.
    + destruct cur as [|c0 cur'].
      * now apply IH.
      * constructor; [|now apply IH].
        unfold is_field. now rewrite Hcur.
    + apply IH. rewrite string_forallb_app, Hcur.
      cbn [string_forallb]. now rewrite Ec.
Qed.

Lemma split_fields_only (s : string) :
  Forall (fun t => is_field t = true) (Py.split s).
Proof. now apply split_from_fields. Qed.

Lemma length_flat_map_le {A B} (f : A -> list B) (l : list A) :
  (forall x, List.length (f x) <= 1)%nat ->
  (List.length (flat_map f l) <= List.length l)%nat.
Proof.
  intros Hf. induction l as [|x l IH]; cbn [flat_map List.length]; [lia|].
  rewrite length_app. specialize (Hf x). lia.
Qed.

(** X4. The column extractor yields at most one entry per line, each the
    seventh whitespace-separated field of one of the lines, in the order
    of the lines; an entry is never empty and holds no whitespace, and a
    line with six fields or fewer contributes nothing. *)
Theorem extracted_entries_are_fields :
  forall lines : list string,
    Forall (fun t => is_field t = true) (extract_7th_column lines) /\
    (List.length (extract_7th_column lines) <= List.length lines)%nat /\
    (forall t, In t (extract_7th_column lines) ->
               exists line, In line lines /\
                            nth_error (Py.split (Py.strip line)) 6 = Some t) /\
    (forall before line after,
        lines = (before ++ line :: after)%list ->
        (List.length (Py.split (Py.strip line)) <= 6)%nat ->
        extract_7th_column lines = extract_7th_column (before ++ after)).
Proof.
  intros lines. unfold extract_7th_column.
  assert (Hmem : forall t,
             In t (flat_map (fun line =>
                               let cols := Py.split (Py.strip line) in
                               if (6 <? List.length cols)%nat
                               then [nth 6 cols ""] else []) lines) ->
             exists line, In line lines /\
                          nth_error (Py.split (Py.strip line)) 6 = Some t).
  { intros t Ht. apply in_flat_map in Ht as (line & Hline & Ht).
    exists line. split; [exact Hline|]. cbn zeta in Ht.
    destruct (Nat.ltb_spec 6 (List.length (Py.split (Py.strip line))))
      as [Hlen|Hlen]; [|destruct Ht].
    destruct Ht as [<-|[]]. now apply nth_error_nth'. }
  split; [|split; [|split]].
  - apply Forall_forall. intros t Ht.
    destruct (Hmem t Ht) as (line & _ & Hnth).
    apply nth_error_In in Hnth.
    pose proof (split_fields_only (Py.strip line)) as Hall.
    rewrite Forall_forall in Hall. now apply Hall.
  - apply length_flat_map_le. intros line. cbn zeta.
    destruct (6 <? _)%nat; cbn [List.length]; lia.
  - exact Hmem.
  - intros before line after -> Hlen.
    rewrite !flat_map_app. cbn [flat_map].
    destruct (Nat.ltb_spec 6 (List.length (Py.split (Py.strip line))));
      [lia|reflexivity].
Qed.

(** ** The hex decoder: which entries decode, are dropped, or raise *)

Lemma decode_entry_in_range (s : string) (v : Z) :
  Py.int_of_string 16 s = Some v ->
  0 <= v < 4294967296 ->
  decode_entry s = Ok (Some (binary32_of_bits v)).
Proof.
  intros Hs Hv. unfold decode_entry, Py.int. rewrite Hs.
  pose proof (unpack_pack v Hv) as H.
  destruct (Py.pack_I v) as [bytes|e]; [|discriminate].
  cbn [bind] in *. now rewrite H.
Qed.

(** The three ways an entry can go. *)
Lemma decode_entry_cases (s : string) :
  (parses_as_hex s = false /\ out_of_range s = false /\
   decode_entry s = Ok None) \/
  (parses_as_hex s = true /\ out_of_range s = false /\
   exists v, Py.int_of_string 16 s = Some v /\ 0 <= v < 4294967296 /\
             decode_entry s = Ok (Some (binary32_of_bits v))) \/
  (parses_as_hex s = true /\ out_of_range s = true /\
   decode_entry s = Raise StructError).
Proof.
  unfold parses_as_hex, out_of_range.
  destruct (Py.int_of_string 16 s) as [v|] eqn:Es.
  - destruct (Z.ltb_spec v 0) as [Hneg|Hpos].
    + right; right. repeat split.
      apply (decode_entry_out_of_range s v Es). now left.
    + destruct (Z.leb_spec 4294967296 v) as [Hbig|Hsmall].
      * right; right. repeat split.
        apply (decode_entry_out_of_range s v Es). now right.
      * right; left. repeat split. exists v. repeat split; try lia.
        apply decode_entry_in_range; [exact Es|lia].
  - left. repeat split. now apply decode_entry_value_error.
Qed.

(** The loop only appends to what it has. *)
Lemma hex_to_float_loop_acc (l : list string) :
  forall acc,
    hex_to_float_loop acc l
    = (r <- hex_to_float_loop [] l ;; Ok (acc ++ r)%list).
Proof.
  induction l as [|s l IH]; intros acc; cbn [hex_to_float_loop].
  - cbn [bind]. now rewrite app_nil_r.
  - destruct (decode_entry s) as [[x|]|e]; cbn [bind].
    + rewrite (IH (acc ++ [x])%list), (IH ([] ++ [x])%list).
      destruct (hex_to_float_loop [] l) as [r|e]; cbn [bind]; [|reflexivity].
      now rewrite <- app_assoc.
    + apply IH.
    + reflexivity.
Qed.

(** X5. Decoding a concatenation is decoding the parts one after the
    other: the floats of the first part followed by those of the second,
    or the exception of the first part that raises. *)
Theorem hex_to_float_concatenation :
  forall l1 l2 : list string,
    hex_to_float (l1 ++ l2)
    = (r1 <- hex_to_float l1 ;;
       r2 <- hex_to_float l2 ;;
       Ok (r1 ++ r2)%list).
Proof.
  intros l1 l2. unfold hex_to_float.
  rewrite hex_to_float_loop_app.
  destruct (hex_to_float_loop [] l1) as [r1|e]; cbn [bind]; [|reflexivity].
  apply hex_to_float_loop_acc.
Qed.

Lemma hex_to_float_cons (s : string) (l : list string) :
  hex_to_float (s :: l)
  = (x <- decode_entry s ;;
     r <- hex_to_float l ;;
     Ok (match x with Some v => v :: r | None => r end)).
Proof.
  unfold hex_to_float. cbn [hex_to_float_loop].
  destruct (decode_entry s) as [[x|]|e]; cbn [bind]; [| |reflexivity].
  - rewrite hex_to_float_loop_acc. reflexivity.
  - now destruct (hex_to_float_loop [] l).
Qed.

Lemma hex_to_float_classified (l : list string) :
  (forall e, hex_to_float l = Raise e -> e = StructError) /\
  ((exists e, hex_to_float l = Raise e) <-> existsb out_of_range l = true) /\
  (forall r, hex_to_float l = Ok r ->
             List.length r = List.length (filter parses_as_hex l)).
Proof.
  induction l as [|s l (IHe & IHr & IHo)].
  - repeat split; try discriminate.
    + intros [e He]. discriminate.
    + intros r Hr. injection Hr as <-. reflexivity.
  - rewrite hex_to_float_cons. cbn [existsb filter].
    destruct (decode_entry_cases s)
      as [(Hp & Ho & Hd) | [(Hp & Ho & v & _ & _ & Hd) | (Hp & Ho & Hd)]];
      rewrite Hp, Ho, Hd; cbn [bind orb].
    + destruct (hex_to_float l) as [r|e]; cbn [bind].
      * repeat split.
        -- discriminate.
        -- intros [e He]. discriminate.
        -- intros H. apply IHr in H as [e He]. discriminate.
        -- intros r' Hr'. injection Hr' as <-. now apply IHo.
      * repeat split.
        -- intros e' He'. injection He' as <-. now apply IHe.
        -- intros _. apply IHr. now exists e.
        -- intros _. now exists e.
        -- discriminate.
    + destruct (hex_to_float l) as [r|e]; cbn [bind].
      * repeat split.
        -- discriminate.
        -- intros [e He]. discriminate.
        -- intros H. apply IHr in H as [e He]. discriminate.
        -- intros r' Hr'. injection Hr' as <-. cbn [List.length].
           f_equal. now apply IHo.
      * repeat split.
        -- intros e' He'. injection He' as <-. now apply IHe.
        -- intros _. apply IHr. now exists e.
        -- intros _. now exists e.
        -- discriminate.
    + repeat split.
      * intros e He. now injection He as <-.
      * intros _. now exists StructError.
      * discriminate.
Qed.

(** X6. The decoder raises nothing but [struct.error], and it raises
    exactly when some entry is an integer literal whose value lies
    outside [[0, 2^32)], a negative one included; when it returns, it
    returns one float per entry that is an integer literal, the other
    entries being dropped, so never more floats than entries. *)
Theorem hex_to_float_outcomes :
  forall l : list string,
    (forall e, hex_to_float l = Raise e -> e = StructError) /\
    ((exists e, hex_to_float l = Raise e) <->
     exists s v, In s l /\ Py.int_of_string 16 s = Some v /\
                 (v < 0 \/ 4294967296 <= v)) /\
    (forall r, hex_to_float l = Ok r ->
               List.length r = List.length (filter parses_as_hex l) /\
               (List.length r <= List.length l)%nat).
Proof.
  intros l. destruct (hex_to_float_classified l) as (He & Hr & Ho).
  split; [exact He|]. split.
  - rewrite Hr, existsb_exists. split.
    + intros (s & Hs & Hout). unfold out_of_range in Hout.
      destruct (Py.int_of_string 16 s) as [v|] eqn:Ev; [|discriminate].
      exists s, v. repeat split; trivial.
      apply Bool.orb_true_iff in Hout as [H|H].
      * left. now apply Z.ltb_lt.
      * right. now apply Z.leb_le.
    + intros (s & v & Hs & Hv & Hrange). exists s. split; [exact Hs|].
      unfold out_of_range. rewrite Hv. apply Bool.orb_true_iff.
      destruct Hrange; [left; now apply Z.ltb_lt|right; now apply Z.leb_le].
  - intros r Hok. split; [now apply Ho|].
    rewrite (Ho r Hok). apply filter_length_le.
Qed.

(** *** Entries of one to eight hexadecimal digits *)

Lemma digit_in_range (c : ascii) (d : Z) :
  Py.digit_in 16 c = Some d -> 0 <= d < 16.
Proof.
  unfold Py.digit_in, Py.digit_value.
  destruct ((48 <=? nat_of_ascii c) && (nat_of_ascii c <=? 57))%nat eqn:E1.
  - apply Bool.andb_true_iff in E1 as [H1 H2].
    apply Nat.leb_le in H1, H2.
    destruct (Z.ltb_spec (Z.of_nat (nat_of_ascii c) - 48) 16);
      intros Heq; inversion Heq; lia.
  - destruct ((97 <=? nat_of_ascii c) && (nat_of_ascii c <=? 122))%nat eqn:E2.
    + apply Bool.andb_true_iff in E2 as [H1 H2].
      apply Nat.leb_le in H1, H2.
      destruct (Z.ltb_spec (Z.of_nat (nat_of_ascii c) - 87) 16);
        intros Heq; inversion Heq; lia.
    + destruct ((65 <=? nat_of_ascii c) && (nat_of_ascii c <=? 90))%nat eqn:E3;
        [|discriminate].
      apply Bool.andb_true_iff in E3 as [H1 H2].
      apply Nat.leb_le in H1, H2.
      destruct (Z.ltb_spec (Z.of_nat (nat_of_ascii c) - 55) 16);
        intros Heq; inversion Heq; lia.
Qed.

(** [k] hexadecimal digits after the value [acc] denote less than
    [(acc + 1) * 16^k]. *)
Lemma scan_all_hex_below (s : string) :
  string_forallb is_hex_digit s = true ->
  forall acc n v k rest,
    0 <= acc ->
    Py.scan_digits 16 acc n false s = Some (v, k, rest) ->
    acc * 16 ^ Z.of_nat (String.length s) <= v
    < (acc + 1) * 16 ^ Z.of_nat (String.length s).
Proof.
  induction s as [|c r IH]; intros Hall acc n v k rest Hacc Hscan.
  - cbn in Hscan. injection Hscan as <- _ _. cbn. lia.
  - cbn [string_forallb] in Hall.
    apply Bool.andb_true_iff in Hall as [Hc Hr].
    destruct (hex_char_plain c Hc) as (_ & _ & _ & Hu & _).
    unfold is_hex_digit in Hc.
    destruct (Py.digit_in 16 c) as [d|] eqn:Ed; [|discriminate].
    pose proof (digit_in_range c d Ed) as Hd.
    rewrite (scan_digits_step 16 acc n c r d Hu Ed) in Hscan.
    specialize (IH Hr (acc * 16 + d) (S n) v k rest ltac:(lia) Hscan).
    cbn [String.length]. rewrite Nat2Z.inj_succ, Z.pow_succ_r by lia.
    assert (0 < 16 ^ Z.of_nat (String.length r)) by (apply Z.pow_pos_nonneg; lia).
    nia.
Qed.

Lemma short_hex_in_range (s : string) :
  short_hex s = true ->
  exists v, Py.int_of_string 16 s = Some v /\ 0 <= v < 4294967296.
Proof.
  unfold short_hex. intros H.
  apply Bool.andb_true_iff in H as [H Hmax].
  apply Bool.andb_true_iff in H as [Hall Hmin].
  apply Nat.leb_le in Hmin, Hmax.
  assert (Hne : s <> EmptyString) by (intros ->; cbn in Hmin; lia).
  destruct (int_of_all_hex s Hne Hall) as (v & Hv & Hscan).
  exists v. split; [exact Hv|].
  pose proof (scan_all_hex_below s Hall 0 0%nat v _ _ ltac:(lia) Hscan) as Hb.
  assert (16 ^ Z.of_nat (String.length s) <= 16 ^ 8)
    by (apply Z.pow_le_mono_r; lia).
  change (16 ^ 8) with 4294967296 in *. lia.
Qed.

(** X7. Entries of one to eight hexadecimal digits always decode: the
    decoder returns without raising, one float per entry and in the
    order of the entries, each the binary32 whose bit pattern is the
    entry's value. *)
Theorem short_hex_entries_always_decode :
  forall l : list string,
    Forall (fun s => short_hex s = true) l ->
    exists values : list Z,
      Forall2 (fun s v => Py.int_of_string 16 s = Some v /\
                          0 <= v < 4294967296) l values /\
      hex_to_float l = Ok (map binary32_of_bits values) /\
      List.length (map binary32_of_bits values) = List.length l.
Proof.
  induction 1 as [|s l Hs _ (values & Hvals & Hdec & Hlen)].
  - exists []. repeat split. constructor.
  - destruct (short_hex_in_range s Hs) as (v & Hv & Hrange).
    exists (v :: values). split; [|split].
    + constructor; [split; assumption|exact Hvals].
    + rewrite hex_to_float_cons, (decode_entry_in_range s v Hv Hrange), Hdec.
      reflexivity.
    + cbn [map List.length]. now rewrite Hlen.
Qed.

(** Three entries as a trace may hold them: a zero written short, a
    one, and a negative number in lower case. *)
Lemma short_hex_entries_always_decode_witness :
  exists values : list Z,
    Forall2 (fun s v => Py.int_of_string 16 s = Some v /\
                        0 <= v < 4294967296)
            ["0"; "3f800000"; "bf000000"] values /\
    hex_to_float ["0"; "3f800000"; "bf000000"]
    = Ok (map binary32_of_bits values) /\
    List.length (map binary32_of_bits values) = 3%nat.
Proof.
  apply (short_hex_entries_always_decode ["0"; "3f800000"; "bf000000"]).
  repeat constructor.
Defined.

(** ** The array builder: samples against floats *)

Section Pairing.

Local Open Scope nat_scope.

Lemma range2_from_shift (i k : nat) :
  Py.range2_from (i + 2) k = map (fun j => j + 2) (Py.range2_from i k).
Proof.
  revert i; induction k as [|k IH]; intros i; cbn [Py.range2_from map].
  - reflexivity.
  - now rewrite IH.
Qed.

Lemma pair_floats_nil : pair_floats [] = [].
Proof. reflexivity. Qed.

Lemma pair_floats_one (x : float) : pair_floats [x] = [Complex x 0%float].
Proof. reflexivity. Qed.

(** Two floats at the head make the first sample; the loop then goes on
    with the rest as if it started there. *)
Lemma pair_floats_two (x y : float) (r : list float) :
  pair_floats (x :: y :: r) = Complex x y :: pair_floats r.
Proof.
  unfold pair_floats, Py.range2. cbn [List.length].
  replace (Nat.div2 (S (S (List.length r)) + 1))
    with (S (Nat.div2 (List.length r + 1)))
    by reflexivity.
  cbn [Py.range2_from map]. f_equal.
  change (0 + 2) with (2 + 0). rewrite (Nat.add_comm 2 0).
  rewrite range2_from_shift, map_map. apply map_ext. intros j.
  replace (j + 2) with (S (S j)) by lia.
  cbn [nth Nat.add].
  replace (S (S j) + 1) with (S (S (j + 1))) by lia.
  reflexivity.
Qed.

Lemma list_pair_ind {A} (P : list A -> Prop) :
  P [] -> (forall x, P [x]) -> (forall x y r, P r -> P (x :: y :: r)) ->
  forall l, P l.
Proof.
  intros H0 H1 H2 l.
  assert (H : P l /\ forall x, P (x :: l)).
  { induction l as [|y r [IH IH']]; split; auto. }
  apply H.
Qed.

Lemma interleave_pair_floats (fa : list float) :
  interleave (pair_floats fa)
  = (fa ++ (if Nat.odd (List.length fa) then [0%float] else []))%list.
Proof.
  induction fa as [|x|x y r IH] using list_pair_ind.
  - reflexivity.
  - reflexivity.
  - rewrite pair_floats_two. unfold interleave in *.
    cbn [flat_map real imag app List.length]. rewrite IH.
    now rewrite Nat.odd_succ_succ.
Qed.

Lemma firstn_pair_floats (k : nat) :
  forall fa, firstn k (pair_floats fa) = pair_floats (firstn (2 * k) fa).
Proof.
  induction k as [|k IH]; intros fa.
  - reflexivity.
  - replace (2 * S k) with (S (S (2 * k))) by lia.
    destruct fa as [|x [|y r]].
    + reflexivity.
    + rewrite pair_floats_one. cbn [firstn]. now rewrite firstn_nil.
    + rewrite pair_floats_two. cbn [firstn].
      now rewrite pair_floats_two, IH.
Qed.

End Pairing.

(** X8. Laying the real and imaginary parts of the samples end to end
    gives the floats back, followed by the zero that pads an odd count;
    and when the segment holds at least [2 N] floats, the [N] samples
    that are kept are exactly its first [2 N] floats read pairwise. *)
Theorem samples_interleave_to_the_floats :
  forall float_array : list float,
    interleave (pair_floats float_array)
    = (float_array
       ++ (if Nat.odd (List.length float_array) then [0%float] else []))%list /\
    (forall size : Z,
        0 <= size ->
        2 * size <= Z.of_nat (List.length float_array) ->
        interleave (parse_complex_array float_array size)
        = firstn (2 * Z.to_nat size) float_array).
Proof.
  intros fa. split; [apply interleave_pair_floats|].
  intros size H0 Hlen. unfold parse_complex_array, Py.slice_to.
  destruct (Z.leb_spec 0 size) as [_|]; [|lia].
  rewrite firstn_pair_floats, interleave_pair_floats.
  rewrite length_firstn, Nat.min_l by lia.
  replace (Nat.odd (2 * Z.to_nat size)) with false; [apply app_nil_r|].
  symmetry. rewrite <- Nat.negb_even, Nat.even_mul. reflexivity.
Qed.

(** X9. For a size [N >= 0] the builder looks at the first [2 N] floats
    only: truncating the floats to that prefix, or appending anything
    after it, leaves the samples unchanged. *)
Theorem samples_depend_on_a_prefix :
  forall (float_array : list float) (size : Z),
    0 <= size ->
    parse_complex_array float_array size
    = parse_complex_array (firstn (2 * Z.to_nat size) float_array) size /\
    (forall extra : list float,
        2 * size <= Z.of_nat (List.length float_array) ->
        parse_complex_array (float_array ++ extra) size
        = parse_complex_array float_array size).
Proof.
  intros fa size H0.
  assert (Hpre : forall l,
             parse_complex_array l size
             = pair_floats (firstn (2 * Z.to_nat size) l)).
  { intros l. unfold parse_complex_array, Py.slice_to.
    destruct (Z.leb_spec 0 size) as [_|]; [|lia].
    apply firstn_pair_floats. }
  split.
  - rewrite !Hpre. now rewrite firstn_firstn, Nat.min_id.
  - intros extra Hlen. rewrite !Hpre, firstn_app.
    replace (2 * Z.to_nat size - List.length fa)%nat with 0%nat by lia.
    cbn [firstn]. now rewrite app_nil_r.
Qed.

(** Four floats and the size 1: only the first pair is read. *)
Lemma samples_depend_on_a_prefix_witness :
  parse_complex_array [1; 2; 3; 4]%float 1
  = parse_complex_array (firstn (2 * Z.to_nat 1) [1; 2; 3; 4]%float) 1 /\
  (forall extra : list float,
      2 * 1 <= Z.of_nat (List.length [1; 2; 3; 4]%float) ->
      parse_complex_array ([1; 2; 3; 4]%float ++ extra) 1
      = parse_complex_array [1; 2; 3; 4]%float 1).
Proof.
  apply (samples_depend_on_a_prefix [1; 2; 3; 4]%float 1). lia.
Defined.

(** ** The builder: the lines that do not count *)

(** X10. A line of a segment that does not contain ["flw"], or has six
    fields or fewer, or whose seventh field is not an integer literal,
    has no influence on the array built from the segment: the result,
    samples or exception, is the same without the line. *)
Theorem builder_ignores_other_lines :
  forall (before after : list string) (line : string) (size : Z),
    Py.contains "flw" line = false \/
    (List.length (Py.split (Py.strip line)) <= 6)%nat \/
    (exists t, nth_error (Py.split (Py.strip line)) 6 = Some t /\
               Py.int_of_string 16 t = None) ->
    build_complex_array (before ++ line :: after) size
    = build_complex_array (before ++ after) size.
Proof.
  intros before after line size H.
  unfold build_complex_array, decode_segment, filter_lines_by_flw.
  rewrite !filter_app. cbn [filter].
  destruct (Py.contains "flw" line) eqn:Eflw; [|reflexivity].
  destruct H as [H | [Hlen | (t & Ht & Hint)]]; [discriminate| |].
  - unfold extract_7th_column. rewrite !flat_map_app. cbn [flat_map].
    destruct (Nat.ltb_spec 6 (List.length (Py.split (Py.strip line))));
      [lia|reflexivity].
  - assert (Hlen : (6 < List.length (Py.split (Py.strip line)))%nat).
    { apply nth_error_Some. congruence. }
    assert (Hnth : nth 6 (Py.split (Py.strip line)) "" = t).
    { apply nth_error_nth with (d := "") in Ht. exact Ht. }
    unfold extract_7th_column. rewrite !flat_map_app. cbn [flat_map].
    destruct (Nat.ltb_spec 6 (List.length (Py.split (Py.strip line))));
      [|lia].
    rewrite Hnth. cbn [app].
    rewrite (hex_to_float_skips _ _ t (decode_entry_value_error t Hint)).
    reflexivity.
Qed.

(** The sentinel line that closes a dump is an [li], not an [flw]. *)
Lemma builder_ignores_other_lines_witness :
  build_complex_array
    (["core   0: 3 0x000c (0x000c) f10 3f800000 flw     fa0"]
     ++ "core   0: 3 0x001c (0x001c) x10 00000123 li      a0"
     :: ["core   0: 3 0x0010 (0x0010) f10 00000000 flw     fa0"]) 1
  = build_complex_array
      (["core   0: 3 0x000c (0x000c) f10 3f800000 flw     fa0"]
       ++ ["core   0: 3 0x0010 (0x0010) f10 00000000 flw     fa0"]) 1.
Proof.
  apply (builder_ignores_other_lines
           ["core   0: 3 0x000c (0x000c) f10 3f800000 flw     fa0"]
           ["core   0: 3 0x0010 (0x0010) f10 00000000 flw     fa0"]
           "core   0: 3 0x001c (0x001c) x10 00000123 li      a0" 1).
  left. reflexivity.
Defined.

(** ** The analyzer: the verdict, error by error *)

(** *** [max] against a threshold *)

(** One step of [max]: the running maximum stays below the threshold
    when it was below and the new element is below or is NaN. *)
Lemma max_step_below (t m y : float) :
  PrimFloat.ltb (if PrimFloat.ltb m y then y else m) t
  = PrimFloat.ltb m t && below_or_nan t y.
Proof.
  unfold below_or_nan. rewrite is_nan_spec.
  destruct (not_nan (Prim2SF t)) eqn:Nt.
  2:{ rewrite !(fun x => ltb_nan_r x t Nt). reflexivity. }
  destruct (not_nan (Prim2SF m)) eqn:Nm.
  2:{ rewrite (ltb_nan_l m y Nm), (ltb_nan_l m t Nm). reflexivity. }
  destruct (not_nan (Prim2SF y)) eqn:Ny.
  2:{ rewrite (ltb_nan_r m y Ny), (ltb_nan_l y t Ny).
      cbn [negb orb]. now rewrite Bool.andb_true_r. }
  cbn [negb]. rewrite Bool.orb_false_r.
  rewrite (ltb_ext m y Nm Ny), (ltb_ext m t Nm Nt), (ltb_ext y t Ny Nt).
  destruct (Z.ltb_spec (SFext (Prim2SF m)) (SFext (Prim2SF y))) as [Hmy|Hmy].
  - rewrite (ltb_ext y t Ny Nt).
    destruct (Z.ltb_spec (SFext (Prim2SF y)) (SFext (Prim2SF t)));
      destruct (Z.ltb_spec (SFext (Prim2SF m)) (SFext (Prim2SF t)));
      try reflexivity; lia.
  - rewrite (ltb_ext m t Nm Nt).
    destruct (Z.ltb_spec (SFext (Prim2SF y)) (SFext (Prim2SF t)));
      destruct (Z.ltb_spec (SFext (Prim2SF m)) (SFext (Prim2SF t)));
      try reflexivity; lia.
Qed.

Lemma max_fold_below (t : float) (r : list float) :
  forall x,
    PrimFloat.ltb
      (fold_left (fun m y => if PrimFloat.ltb m y then y else m) r x) t
    = PrimFloat.ltb x t && forallb (below_or_nan t) r.
Proof.
  induction r as [|y r IH]; intros x; cbn [fold_left forallb].
  - now rewrite Bool.andb_true_r.
  - now rewrite IH, max_step_below, Bool.andb_assoc.
Qed.

Lemma max_below (t : float) (l : list float) (m : float) :
  Py.max l = Ok m -> PrimFloat.ltb m t = all_below t l.
Proof.
  destruct l as [|x r]; [discriminate|].
  cbn [Py.max all_below]. intros H. injection H as <-.
  apply max_fold_below.
Qed.

Lemma all_below_without_nan (t : float) (l : list float) :
  l <> [] ->
  forallb (fun y => negb (PrimFloat.is_nan y)) l = true ->
  all_below t l = forallb (fun y => PrimFloat.ltb y t) l.
Proof.
  destruct l as [|x r]; [congruence|]. intros _.
  cbn [all_below forallb]. intros H.
  apply Bool.andb_true_iff in H as [_ Hr]. f_equal.
  induction r as [|y r IH]; [reflexivity|].
  cbn [forallb] in *. apply Bool.andb_true_iff in Hr as [Hy Hr].
  rewrite (IH Hr). unfold below_or_nan.
  apply Bool.negb_true_iff in Hy. now rewrite Hy, Bool.orb_false_r.
Qed.

(** X11. When the analyzer returns, its verdict is CORRECT exactly when
    the first magnitude error and the first phase error are below their
    thresholds and every later error is below its threshold or is NaN
    (the running maximum of [max] is never replaced by a NaN); when no
    error is NaN, that is: every magnitude error is below [1e-3] and
    every phase error is below 5 degrees. *)
Theorem verdict_error_by_error :
  forall (cabs : complex -> float) (atan2 : float -> float -> float)
         (fsum : list float -> float) (a b : list complex) (st : statistics),
    analyze_fft_accuracy cabs atan2 fsum a b = Ok st ->
    verdict st
    = all_below mag_threshold (magnitude_errors cabs a b)
      && all_below phase_threshold (phase_errors atan2 a b) /\
    (forallb (fun y => negb (PrimFloat.is_nan y))
             (magnitude_errors cabs a b ++ phase_errors atan2 a b) = true ->
     (verdict st = true <->
      Forall (fun err => PrimFloat.ltb err mag_threshold = true)
             (magnitude_errors cabs a b) /\
      Forall (fun err => PrimFloat.ltb err phase_threshold = true)
             (phase_errors atan2 a b))).
Proof.
  intros cabs atan2 fsum a b st Hst.
  destruct (analyze_ok cabs atan2 fsum a b st Hst) as (Hmag & Hphase & Hv).
  assert (Heq : verdict st
                = all_below mag_threshold (magnitude_errors cabs a b)
                  && all_below phase_threshold (phase_errors atan2 a b)).
  { rewrite Hv. now rewrite (max_below _ _ _ Hmag), (max_below _ _ _ Hphase). }
  split; [exact Heq|].
  intros Hnan. rewrite forallb_app in Hnan.
  apply Bool.andb_true_iff in Hnan as [Hn1 Hn2].
  assert (Hne1 : magnitude_errors cabs a b <> [])
    by (intros E; rewrite E in Hmag; discriminate).
  assert (Hne2 : phase_errors atan2 a b <> [])
    by (intros E; rewrite E in Hphase; discriminate).
  rewrite Heq, (all_below_without_nan _ _ Hne1 Hn1),
    (all_below_without_nan _ _ Hne2 Hn2).
  rewrite Bool.andb_true_iff, !forallb_forall, !Forall_forall. reflexivity.
Qed.

(** A NaN in second place: the candidate [(1, 0), (inf, 0)] against the
    reference [(1, 0), (inf, 0)] has the magnitude errors [0, nan], and
    the verdict is CORRECT. *)
Lemma verdict_error_by_error_witness :
  let a := [Complex 1%float 0%float; Complex infinity 0%float] in
  let st := {| max_mag_error := 0%float; avg_mag_error := nan;
               max_phase_error := 0%float; avg_phase_error := 0%float;
               verdict := true |} in
  magnitude_errors cabs_on_axis a a = [0%float; nan] /\
  verdict st
  = all_below mag_threshold (magnitude_errors cabs_on_axis a a)
    && all_below phase_threshold (phase_errors atan2_on_axis a a) /\
  (forallb (fun y => negb (PrimFloat.is_nan y))
           (magnitude_errors cabs_on_axis a a
            ++ phase_errors atan2_on_axis a a) = true ->
   (verdict st = true <->
    Forall (fun err => PrimFloat.ltb err mag_threshold = true)
           (magnitude_errors cabs_on_axis a a) /\
    Forall (fun err => PrimFloat.ltb err phase_threshold = true)
           (phase_errors atan2_on_axis a a))).
Proof.
  intros a st. split; [vm_compute; reflexivity|].
  apply (verdict_error_by_error cabs_on_axis atan2_on_axis sum_from_left a a st).
  vm_compute. reflexivity.
Defined.

(** *** An array against itself *)

Lemma SFsub_self (x : spec_float) :
  finite_or_zero x = true -> SFabs (SFsub prec emax x x) = S754_zero false.
Proof.
  destruct x as [s|s| |s m e]; try discriminate; intros _.
  - cbn [SFsub]. now destruct s.
  - cbn [SFsub]. rewrite Z.sub_diag. reflexivity.
Qed.

Lemma abs_sub_self (x : float) :
  finite x = true -> abs (x - x)%float = 0%float.
Proof.
  intros Fx. apply Prim2SF_inj.
  rewrite abs_spec, sub_spec, Prim2SF_0.
  apply SFsub_self, finite_spec, Fx.
Qed.

Lemma max_of_zeros (l : list float) :
  l <> [] -> Forall (fun x => x = 0%float) l -> Py.max l = Ok 0%float.
Proof.
  destruct l as [|x r]; [congruence|]. intros _ H.
  inversion H as [|? ? -> Hr]; subst. cbn [Py.max]. f_equal. clear H.
  induction Hr as [|y r -> _ IH]; [reflexivity|].
  cbn [fold_left]. exact IH.
Qed.

Lemma div_by_len_ok (x : float) (n : nat) :
  n <> 0%nat -> exists q, div_by_len x n = Ok q.
Proof. destruct n; [congruence|]. intros _. eexists. reflexivity. Qed.

(** X12. A non-empty array compared with itself passes: when the
    magnitudes and the angles of its samples are finite, every error is
    exactly zero, so both maxima are zero and the verdict is CORRECT,
    whatever the averages sum to. *)
Theorem identical_arrays_pass :
  forall (cabs : complex -> float) (atan2 : float -> float -> float)
         (fsum : list float -> float) (a : list complex),
    a <> [] ->
    Forall (fun z => finite (cabs z) = true /\
                     finite (atan2 (imag z) (real z)) = true) a ->
    Forall (fun err => err = 0%float) (magnitude_errors cabs a a) /\
    Forall (fun err => err = 0%float) (phase_errors atan2 a a) /\
    exists st,
      analyze_fft_accuracy cabs atan2 fsum a a = Ok st /\
      max_mag_error st = 0%float /\
      max_phase_error st = 0%float /\
      verdict st = true.
Proof.
  intros cabs atan2 fsum a Hne Hfin.
  assert (Hmag : Forall (fun err => err = 0%float) (magnitude_errors cabs a a)).
  { unfold magnitude_errors. clear Hne.
    induction Hfin as [|z r [Hz _] _ IH]; cbn [combine map]; constructor.
    - cbn [fst snd]. unfold mag_error. now apply abs_sub_self.
    - exact IH. }
  assert (Hph : Forall (fun err => err = 0%float) (phase_errors atan2 a a)).
  { unfold phase_errors. clear Hne Hmag.
    induction Hfin as [|z r [_ Hz] _ IH]; cbn [combine map]; constructor.
    - cbn [fst snd]. unfold phase_error. cbn zeta.
      rewrite (abs_sub_self _ Hz). vm_compute. reflexivity.
    - exact IH. }
  split; [exact Hmag|]. split; [exact Hph|].
  assert (Hlen1 : magnitude_errors cabs a a <> []).
  { destruct a; [congruence|]. discriminate. }
  assert (Hlen2 : phase_errors atan2 a a <> []).
  { destruct a; [congruence|]. discriminate. }
  unfold analyze_fft_accuracy.
  rewrite (max_of_zeros _ Hlen1 Hmag), (max_of_zeros _ Hlen2 Hph).
  cbn [bind].
  destruct (div_by_len_ok (fsum (magnitude_errors cabs a a))
              (List.length (magnitude_errors cabs a a))) as [q1 ->].
  { now destruct (magnitude_errors cabs a a). }
  destruct (div_by_len_ok (fsum (phase_errors atan2 a a))
              (List.length (phase_errors atan2 a a))) as [q2 ->].
  { now destruct (phase_errors atan2 a a). }
  cbn [bind]. eexists. split; [reflexivity|].
  cbn [max_mag_error max_phase_error verdict]. repeat split.
Qed.

(** The sample input against itself. *)
Lemma identical_arrays_pass_witness :
  let a := [Complex 1%float 0%float; Complex 0%float 0%float] in
  Forall (fun err => err = 0%float) (magnitude_errors cabs_on_axis a a) /\
  Forall (fun err => err = 0%float) (phase_errors atan2_on_axis a a) /\
  exists st,
    analyze_fft_accuracy cabs_on_axis atan2_on_axis sum_from_left a a = Ok st /\
    max_mag_error st = 0%float /\
    max_phase_error st = 0%float /\
    verdict st = true.
Proof.
  intros a.
  apply (identical_arrays_pass cabs_on_axis atan2_on_axis sum_from_left a).
  - discriminate.
  - repeat constructor.
Defined.

(** ** The entry point: command line, exit status and reports *)

Lemma io_bind_ret_l {A B} (v : A) (k : A -> io B) :
  io_bind ([], Value v) k = k v.
Proof. unfold io_bind. now destruct (k v). Qed.

Lemma io_bind_value {A B} (out : list output) (v : A) (k : A -> io B) :
  io_bind (out, Value v) k = ((out ++ fst (k v))%list, snd (k v)).
Proof. unfold io_bind. now destruct (k v). Qed.

Lemma no_exit_bind {A B} (m : io A) (k : A -> io B) :
  no_exit m -> (forall v, no_exit (k v)) -> no_exit (io_bind m k).
Proof.
  intros Hm Hk code. destruct m as [out [v|e|c]].
  - rewrite io_bind_value. cbn [snd]. apply Hk.
  - cbn. discriminate.
  - exfalso. now apply (Hm c).
Qed.

Lemma no_exit_lift {A} (r : outcome A) : no_exit (lift r).
Proof. destruct r; intros code; discriminate. Qed.

Lemma no_exit_print (o : output) : no_exit (print o).
Proof. intros code; discriminate. Qed.

Lemma no_exit_ret {A} (v : A) : no_exit (io_ret v).
Proof. intros code; discriminate. Qed.

(** Whatever the body of the [try] raises is handled, and the handlers
    return. *)
Lemma try_except_handle_no_exit (filename : string) (m : io unit) :
  no_exit m -> snd (try_except m (handle filename)) = Value tt.
Proof.
  intros Hm. destruct m as [out [[]|e|c]].
  - reflexivity.
  - cbn [try_except]. destruct e; reflexivity.
  - exfalso. now apply (Hm c).
Qed.

Lemma try_except_handle_exc (filename : string) (out : list output) (e : exn) :
  e <> FileNotFoundError ->
  try_except (out, Exc e) (handle filename)
  = ((out ++ [ErrorProcessing e])%list, Value tt).
Proof. intros He. destruct e; try congruence; reflexivity. Qed.

Lemma same_refl (m : io unit) : same_but_for_the_plot m m.
Proof. split; [reflexivity|now left]. Qed.

Lemma same_bind {A} (m0 : io A) (k k' : A -> io unit) :
  (forall v, same_but_for_the_plot (k v) (k' v)) ->
  same_but_for_the_plot (io_bind m0 k) (io_bind m0 k').
Proof.
  intros H. destruct m0 as [out [v|e|c]]; [|apply same_refl..].
  rewrite !io_bind_value.
  destruct (H v) as [Hs [Hf | (Hv & e & Hf)]]; split; cbn [fst snd]; auto.
  - left. now rewrite Hf.
  - right. split; [exact Hv|]. exists e. rewrite Hf. now rewrite app_assoc.
Qed.

Lemma same_try (m m' : io unit) (h : exn -> io unit) :
  same_but_for_the_plot m m' ->
  same_but_for_the_plot (try_except m h) (try_except m' h).
Proof.
  intros [Hs Hf]. destruct m as [out r], m' as [out' r'].
  cbn [fst snd] in *. subst r'. destruct r as [v|e|c].
  - split; [reflexivity|exact Hf].
  - destruct Hf as [-> | [Hv _]]; [apply same_refl|discriminate].
  - split; [reflexivity|exact Hf].
Qed.

Lemma build_complex_array_raises (segment : list string) (size : Z) (e : exn) :
  build_complex_array segment size = Raise e -> e = StructError.
Proof.
  unfold build_complex_array, decode_segment. intros H.
  destruct (hex_to_float_classified
              (extract_7th_column (filter_lines_by_flw segment))) as (He & _).
  destruct (hex_to_float _) as [r|e'] eqn:E; [discriminate|].
  cbn [bind] in H. injection H as <-. now apply He.
Qed.

Lemma build_complex_array_bad (segment : list string) (size : Z) :
  has_bad_entry segment = true ->
  build_complex_array segment size = Raise StructError.
Proof.
  unfold has_bad_entry, build_complex_array, decode_segment. intros H.
  destruct (hex_to_float_classified
              (extract_7th_column (filter_lines_by_flw segment)))
    as (He & Hr & _).
  apply Hr in H as [e H]. rewrite H. cbn [bind]. f_equal. now apply He.
Qed.

(** One bad entry in any segment stops the loop over the segments. *)
Lemma build_all_bad (arrays : list (list string)) (size : Z) :
  existsb has_bad_entry arrays = true ->
  build_all arrays size = Raise StructError.
Proof.
  induction arrays as [|seg rest IH]; cbn [existsb build_all]; [discriminate|].
  intros H. destruct (build_complex_array seg size) as [cd|e] eqn:E.
  - cbn [bind]. destruct (has_bad_entry seg) eqn:Eb.
    + rewrite (build_complex_array_bad seg size Eb) in E. discriminate.
    + cbn [orb] in H. now rewrite (IH H).
  - cbn [bind]. f_equal. now apply (build_complex_array_raises seg size).
Qed.

Section MainRuns.

Variable cabs : complex -> float.
Variable atan2 : float -> float -> float.
Variable fsum : list float -> float.
Variable compute_reference_fft : list complex -> outcome (list complex).
Variable plot_fft_results :
  list complex -> list complex -> list complex -> Z -> option exn.
Variable fs : string -> option (list string).

(** With three arguments, an integer size and a known type, [main] is
    the [try] statement on the selected trace. *)
Lemma main_well_formed (prog size_arg type_arg filename : string) (size : Z) :
  Py.int 10 size_arg = Ok size ->
  trace_of type_arg = Some filename ->
  main cabs atan2 fsum compute_reference_fft plot_fft_results fs
       [prog; size_arg; type_arg]
  = try_except
      (process_log cabs atan2 fsum compute_reference_fft plot_fft_results
                   fs filename)
      (handle filename).
Proof.
  intros Hint Ht. unfold main. cbn [List.length Nat.eqb negb nth].
  rewrite Hint. cbn [lift]. rewrite io_bind_ret_l.
  unfold trace_of in Ht.
  destruct (String.eqb type_arg "NV"); [now injection Ht as <-|].
  destruct (String.eqb type_arg "V"); [now injection Ht as <-|discriminate].
Qed.

(** With a marker, the [try] body goes past the no-data test. *)
Lemma process_log_with_data (filename : string) (lines : list string)
      (arrays : list (list string)) (marker : string) :
  fs filename = Some lines ->
  find_and_save_complex_lines lines = (arrays, marker) ->
  marker <> "" ->
  process_log cabs atan2 fsum compute_reference_fft plot_fft_results fs filename
  = (column <~ lift (first_item (extract_7th_column [marker])) ;;
     extracted_size <~ lift (Py.int 16 column) ;;
     print (Line ("FFT size detected: " ++ string_of_Z extracted_size)) ;;;
     complex_arrays <~ lift (build_all arrays extracted_size) ;;
     compare_arrays cabs atan2 fsum compute_reference_fft plot_fft_results
                    complex_arrays extracted_size).
Proof.
  intros Hfs Hfind Hmarker.
  assert (Harrays : arrays <> []).
  { intros ->. pose proof (marker_is_last lines) as H.
    rewrite Hfind in H. cbn [fst snd List.concat filter last] in H.
    congruence. }
  unfold process_log, open_lines. rewrite Hfs. unfold io_ret.
  rewrite io_bind_ret_l, Hfind.
  destruct arrays; [congruence|]. destruct marker; [congruence|].
  reflexivity.
Qed.

Lemma compare_arrays_no_exit (complex_arrays : list (list complex)) (n : Z) :
  no_exit (compare_arrays cabs atan2 fsum compute_reference_fft
                          plot_fft_results complex_arrays n).
Proof.
  unfold compare_arrays.
  destruct (2 <=? List.length complex_arrays)%nat; [|apply no_exit_print].
  repeat (apply no_exit_bind;
          [first [apply no_exit_lift | apply no_exit_print]|intros ?]).
  destruct (plot_fft_results _ _ _ _).
  - apply no_exit_bind; [apply no_exit_print|intros _; apply no_exit_print].
  - apply no_exit_ret.
Qed.

Lemma process_log_with_data_no_exit (filename : string) (lines : list string)
      (arrays : list (list string)) (marker : string) :
  fs filename = Some lines ->
  find_and_save_complex_lines lines = (arrays, marker) ->
  marker <> "" ->
  no_exit (process_log cabs atan2 fsum compute_reference_fft plot_fft_results
                       fs filename).
Proof.
  intros Hfs Hfind Hmarker.
  rewrite (process_log_with_data filename lines arrays marker Hfs Hfind Hmarker).
  repeat (apply no_exit_bind;
          [first [apply no_exit_lift | apply no_exit_print]|intros ?]).
  apply compare_arrays_no_exit.
Qed.

Lemma compare_arrays_same (complex_arrays : list (list complex)) (n : Z) :
  same_but_for_the_plot
    (compare_arrays cabs atan2 fsum compute_reference_fft plot_fft_results
                    complex_arrays n)
    (compare_arrays cabs atan2 fsum compute_reference_fft plot_stand_in
                    complex_arrays n).
Proof.
  unfold compare_arrays.
  destruct (2 <=? List.length complex_arrays)%nat; [|apply same_refl].
  repeat (apply same_bind; intros ?).
  unfold plot_stand_in. destruct (plot_fft_results _ _ _ _) as [e|].
  - split; [reflexivity|]. right. split; [reflexivity|]. now exists e.
  - apply same_refl.
Qed.

Lemma process_log_same (filename : string) :
  same_but_for_the_plot
    (process_log cabs atan2 fsum compute_reference_fft plot_fft_results
                 fs filename)
    (process_log cabs atan2 fsum compute_reference_fft plot_stand_in
                 fs filename).
Proof.
  unfold process_log. apply same_bind. intros lines.
  destruct (find_and_save_complex_lines lines) as [arrays size_line].
  destruct (_ || _); [apply same_refl|].
  repeat (apply same_bind; intros ?).
  apply compare_arrays_same.
Qed.

End MainRuns.

(** X13. The command line is checked in the order argument count, size,
    type: with other than two arguments the usage lines are printed and
    the exit status is 1; a size that is not an integer literal raises
    an uncaught [ValueError] before the type is looked at or any file is
    opened; an unknown type prints its message and exits with status 1.
    The value of the size argument is never used: two runs whose last
    argument is the same and whose sizes are both integer literals do
    the same. *)
Theorem command_line_validation :
  forall (cabs : complex -> float) (atan2 : float -> float -> float)
         (fsum : list float -> float)
         (compute_reference_fft : list complex -> outcome (list complex))
         (plot_fft_results :
            list complex -> list complex -> list complex -> Z -> option exn)
         (fs : string -> option (list string)),
    let run := main cabs atan2 fsum compute_reference_fft plot_fft_results fs in
    (forall argv,
        List.length argv <> 3%nat ->
        run argv = ([Line "Usage: python fft_visualizer.py <size> <type>";
                     Line "Example: python fft_visualizer.py 8 NV"], Exit 1)) /\
    (forall prog size_arg type_arg,
        Py.int_of_string 10 size_arg = None ->
        run [prog; size_arg; type_arg] = ([], Exc ValueError)) /\
    (forall prog size_arg type_arg size,
        Py.int_of_string 10 size_arg = Some size ->
        trace_of type_arg = None ->
        run [prog; size_arg; type_arg]
        = ([Line "Type must be 'NV' (non-vectorized) or 'V' (vectorized)"],
           Exit 1)) /\
    (forall prog prog' size_arg size_arg' type_arg size size',
        Py.int_of_string 10 size_arg = Some size ->
        Py.int_of_string 10 size_arg' = Some size' ->
        run [prog; size_arg; type_arg] = run [prog'; size_arg'; type_arg]).
Proof.
  intros cabs atan2 fsum fft plot fs run. unfold run, main.
  split; [|split; [|split]].
  - intros argv Hlen.
    destruct (Nat.eqb_spec (List.length argv) 3); [contradiction|reflexivity].
  - intros prog size_arg type_arg Hint.
    cbn [List.length Nat.eqb negb nth]. unfold Py.int. now rewrite Hint.
  - intros prog size_arg type_arg size Hint Ht.
    cbn [List.length Nat.eqb negb nth]. unfold Py.int. rewrite Hint.
    cbn [lift]. rewrite io_bind_ret_l. unfold trace_of in Ht.
    destruct (String.eqb type_arg "NV"); [discriminate|].
    destruct (String.eqb type_arg "V"); [discriminate|reflexivity].
  - intros prog prog' size_arg size_arg' type_arg size size' Hint Hint'.
    cbn [List.length Nat.eqb negb nth]. unfold Py.int. rewrite Hint, Hint'.
    cbn [lift]. now rewrite !io_bind_ret_l.
Qed.

(** X14. With a well-formed command line a run ends in one of two ways:
    with exit status 1 and the no-data line as its whole output, exactly
    when the trace file exists and yields no segment or no size marker;
    or by returning normally (exit status 0) in every other case, a
    missing file and every exception raised while processing
    included. *)
Theorem exit_status_of_a_run :
  forall (cabs : complex -> float) (atan2 : float -> float -> float)
         (fsum : list float -> float)
         (compute_reference_fft : list complex -> outcome (list complex))
         (plot_fft_results :
            list complex -> list complex -> list complex -> Z -> option exn)
         (fs : string -> option (list string))
         (prog size_arg type_arg filename : string) (size : Z),
    Py.int 10 size_arg = Ok size ->
    trace_of type_arg = Some filename ->
    let run := main cabs atan2 fsum compute_reference_fft plot_fft_results fs
                    [prog; size_arg; type_arg] in
    let no_data :=
      exists lines,
        fs filename = Some lines /\
        (fst (find_and_save_complex_lines lines) = [] \/
         snd (find_and_save_complex_lines lines) = "") in
    (no_data /\
     run = ([Line "No FFT data found in log file."], Exit 1) /\
     exit_status run = 1) \/
    (~ no_data /\ snd run = Value tt /\ exit_status run = 0).
Proof.
  intros cabs atan2 fsum fft plot fs prog size_arg type_arg filename size
         Hint Ht run no_data.
  unfold run. rewrite (main_well_formed _ _ _ _ _ _ _ _ _ _ _ Hint Ht).
  destruct (fs filename) as [lines|] eqn:Hfs.
  - destruct (find_and_save_complex_lines lines) as [arrays marker] eqn:Hfind.
    assert (Hno : no_data <-> arrays = [] \/ marker = "").
    { unfold no_data. split.
      - intros (lines' & Hl & H). injection Hl as <-.
        now rewrite Hfind in H.
      - intros H. exists lines. rewrite Hfind. now split. }
    destruct marker as [|c m] eqn:Em.
    + left. split; [apply Hno; now right|].
      rewrite (process_log_no_data _ _ _ _ _ _ filename lines Hfs)
        by (rewrite Hfind; now right).
      split; reflexivity.
    + right. split.
      * intros H. apply Hno in H as [->|H]; [|discriminate].
        pose proof (marker_is_last lines) as Hl. rewrite Hfind in Hl.
        discriminate.
      * assert (Hv : snd (try_except
                            (process_log cabs atan2 fsum fft plot fs filename)
                            (handle filename)) = Value tt).
        { apply try_except_handle_no_exit.
          apply (process_log_with_data_no_exit _ _ _ _ _ _ filename lines
                   arrays (String c m) Hfs Hfind). discriminate. }
        split; [exact Hv|]. unfold exit_status. now rewrite Hv.
  - right. split.
    + intros (lines & Hl & _). discriminate.
    + rewrite (process_log_missing _ _ _ _ _ _ filename Hfs).
      split; reflexivity.
Qed.

(** The sample trace, and no trace at all. *)
Lemma exit_status_of_a_run_witness :
  exit_status (run_main (only_file sample_trace) ["fft"; "2"; "NV"]) = 0 /\
  exit_status (run_main no_file ["fft"; "2"; "NV"]) = 0.
Proof.
  split.
  - destruct (exit_status_of_a_run
                cabs_on_axis atan2_on_axis sum_from_left fft_stand_in
                plot_stand_in (only_file sample_trace)
                "fft" "2" "NV" "veer/tempFiles/logNV.txt" 2
                eq_refl eq_refl) as [(_ & _ & H) | (_ & _ & H)].
    + vm_compute in H. discriminate.
    + exact H.
  - destruct (exit_status_of_a_run
                cabs_on_axis atan2_on_axis sum_from_left fft_stand_in
                plot_stand_in no_file
                "fft" "2" "NV" "veer/tempFiles/logNV.txt" 2
                eq_refl eq_refl) as [(_ & _ & H) | (_ & _ & H)].
    + vm_compute in H. discriminate.
    + exact H.
Defined.

(** X15. With a well-formed command line and a trace that yields a size
    marker, what goes wrong while processing is reported on standard
    output and the run returns normally (exit status 0): a marker line
    with fewer than seven fields as an [IndexError], a seventh field
    that is not an integer literal as a [ValueError], and, after the
    detected size is printed, an out-of-range entry in any segment, the
    first two or a later one, as a [struct.error]. *)
Theorem processing_errors_are_reported :
  forall (cabs : complex -> float) (atan2 : float -> float -> float)
         (fsum : list float -> float)
         (compute_reference_fft : list complex -> outcome (list complex))
         (plot_fft_results :
            list complex -> list complex -> list complex -> Z -> option exn)
         (fs : string -> option (list string))
         (prog size_arg type_arg filename : string) (size : Z)
         (lines : list string) (arrays : list (list string)) (marker : string),
    Py.int 10 size_arg = Ok size ->
    trace_of type_arg = Some filename ->
    fs filename = Some lines ->
    find_and_save_complex_lines lines = (arrays, marker) ->
    marker <> "" ->
    let run := main cabs atan2 fsum compute_reference_fft plot_fft_results fs
                    [prog; size_arg; type_arg] in
    exit_status run = 0 /\
    (extract_7th_column [marker] = [] ->
     stdout run = [ErrorProcessing IndexError]) /\
    (forall column rest,
        extract_7th_column [marker] = column :: rest ->
        (Py.int_of_string 16 column = None ->
         stdout run = [ErrorProcessing ValueError]) /\
        (forall n,
            Py.int_of_string 16 column = Some n ->
            existsb has_bad_entry arrays = true ->
            stdout run = [Line ("FFT size detected: " ++ string_of_Z n);
                          ErrorProcessing StructError])).
Proof.
  intros cabs atan2 fsum fft plot fs prog size_arg type_arg filename size
         lines arrays marker Hint Ht Hfs Hfind Hmarker run.
  unfold run. rewrite (main_well_formed _ _ _ _ _ _ _ _ _ _ _ Hint Ht).
  split; [|split].
  - unfold exit_status. rewrite try_except_handle_no_exit; [reflexivity|].
    now apply (process_log_with_data_no_exit _ _ _ _ _ _ filename lines
                 arrays marker).
  - intros Hcol.
    rewrite (process_log_with_data _ _ _ _ _ _ filename lines arrays marker
               Hfs Hfind Hmarker).
    rewrite Hcol. reflexivity.
  - intros column rest Hcol.
    rewrite (process_log_with_data _ _ _ _ _ _ filename lines arrays marker
               Hfs Hfind Hmarker).
    rewrite Hcol. cbn [first_item lift]. rewrite io_bind_ret_l.
    unfold Py.int. split.
    + intros Hnone. rewrite Hnone. reflexivity.
    + intros n Hn Hbad. rewrite Hn. cbn [lift]. rewrite io_bind_ret_l.
      rewrite (build_all_bad arrays n Hbad). reflexivity.
Qed.

(** A run on the faulty trace: the third dump is never compared, and
    its nine-digit entry still ends the run after the size line. *)
Lemma processing_errors_are_reported_witness :
  List.length (fst (find_and_save_complex_lines faulty_trace)) = 3%nat /\
  map has_bad_entry (fst (find_and_save_complex_lines faulty_trace))
  = [false; false; true] /\
  stdout (run_main (only_file faulty_trace) ["fft"; "2"; "NV"])
  = [Line "FFT size detected: 2"; ErrorProcessing StructError] /\
  exit_status (run_main (only_file faulty_trace) ["fft"; "2"; "NV"]) = 0.
Proof.
  split; [vm_compute; reflexivity|]. split; [vm_compute; reflexivity|].
  destruct (processing_errors_are_reported
              cabs_on_axis atan2_on_axis sum_from_left fft_stand_in
              plot_stand_in (only_file faulty_trace)
              "fft" "2" "NV" "veer/tempFiles/logNV.txt" 2 faulty_trace
              (fst (find_and_save_complex_lines faulty_trace))
              (snd (find_and_save_complex_lines faulty_trace))
              eq_refl eq_refl eq_refl (surjective_pairing _)
              ltac:(vm_compute; discriminate)) as (Hexit & _ & Hcol).
  split; [|exact Hexit].
  destruct (Hcol "00000002" [] ltac:(vm_compute; reflexivity)) as [_ Hbad].
  apply (Hbad 2); vm_compute; reflexivity.
Defined.

(** X16. A plot that fails changes nothing but the end of the output: a
    run ends the same way, value, exception or exit code, as the run in
    which the plot succeeds, and prints the same lines, followed by the
    two lines of the plotting notice when the plot was reached and
    raised. *)
Theorem plot_failure_changes_nothing_else :
  forall (cabs : complex -> float) (atan2 : float -> float -> float)
         (fsum : list float -> float)
         (compute_reference_fft : list complex -> outcome (list complex))
         (plot_fft_results :
            list complex -> list complex -> list complex -> Z -> option exn)
         (fs : string -> option (list string)) (argv : list string),
    same_but_for_the_plot
      (main cabs atan2 fsum compute_reference_fft plot_fft_results fs argv)
      (main cabs atan2 fsum compute_reference_fft plot_stand_in fs argv).
Proof.
  intros cabs atan2 fsum fft plot fs argv. unfold main.
  destruct (negb _); [apply same_refl|].
  apply same_bind. intros size.
  destruct (String.eqb _ "NV"); [apply same_try, process_log_same|].
  destruct (String.eqb _ "V"); [apply same_try, process_log_same|].
  apply same_refl.
Qed.

(** * Properties of the test signals *)

Section SignalFacts.

Import SignalGeneration.

Variable cos sin : float -> float.
Variable fsum : list float -> float.
Variable rng : Type.
Variable uniform : float -> float -> rng -> float * rng.

Lemma length_range (n : Z) : List.length (range n) = Z.to_nat n.
Proof. unfold range. now rewrite length_map, length_seq. Qed.

Lemma range_nonpositive (n : Z) : n <= 0 -> range n = [].
Proof.
  intros H. unfold range. now replace (Z.to_nat n) with 0%nat by lia.
Qed.

(** The loop of the noise branch draws once per index, in order. *)
Lemma noise_loop (A : Type) (l : list A) :
  forall (acc : list float) (g : rng),
    fold_left (fun sg _ =>
                 let (x, g') := uniform (-1) 1 (snd sg) in
                 ((fst sg ++ [x])%list, g'))
              l (acc, g)
    = ((acc ++ fst (draws uniform (List.length l) g))%list,
       snd (draws uniform (List.length l) g)).
Proof.
  induction l as [|a l IH]; intros acc g; cbn [fold_left List.length draws].
  - cbn [fst snd]. now rewrite app_nil_r.
  - cbn [fst snd]. destruct (uniform (-1) 1 g) as [x g1].
    rewrite IH. destruct (draws uniform (List.length l) g1) as [xs g2].
    cbn [fst snd]. now rewrite <- app_assoc.
Qed.

Lemma noise_draws (size : Z) (g : rng) :
  noise uniform size g = draws uniform (Z.to_nat size) g.
Proof.
  unfold noise. rewrite noise_loop, length_range. cbn [app].
  now destruct (draws uniform (Z.to_nat size) g).
Qed.

Lemma length_draws (n : nat) :
  forall g, List.length (fst (draws uniform n g)) = n.
Proof.
  induction n as [|n IH]; intros g; cbn [draws]; [reflexivity|].
  destruct (uniform (-1) 1 g) as [x g1]. specialize (IH g1).
  destruct (draws uniform n g1) as [xs g2]. cbn [fst List.length] in *.
  now rewrite IH.
Qed.

Lemma impulse_positive (size : Z) :
  1 <= size ->
  impulse size = Ok (1%float :: repeat 0%float (Z.to_nat (size - 1))).
Proof.
  intros H. unfold impulse.
  replace (Z.to_nat size) with (S (Z.to_nat (size - 1))) by lia.
  reflexivity.
Qed.

Lemma impulse_nonpositive (size : Z) :
  size <= 0 -> impulse size = Raise IndexError.
Proof.
  intros H. unfold impulse.
  now replace (Z.to_nat size) with 0%nat by lia.
Qed.

Lemma known_type_cases (t : string) :
  In t signal_types ->
  t = "cosine" \/ t = "sine" \/ t = "multi_sine" \/ t = "impulse" \/
  t = "step" \/ t = "square" \/ t = "noise" \/ t = "chirp".
Proof.
  unfold signal_types. cbn [In]. intuition auto.
Qed.

(** Outside impulse, every known type yields one sample per index. *)
Lemma generate_known (size : Z) (t : string) (g : rng) :
  In t signal_types -> t <> "impulse" ->
  exists signal g',
    generate_test_signal cos sin uniform size t g = (Ok signal, g') /\
    List.length signal = Z.to_nat size.
Proof.
  intros Hin Hne. apply known_type_cases in Hin.
  destruct Hin as [->|[->|[->|[->|[->|[->|[->| ->]]]]]]];
    try congruence; unfold generate_test_signal; cbn [String.eqb Ascii.eqb Bool.eqb].
  - eexists; eexists; split; [reflexivity|].
    unfold cosine. now rewrite length_map, length_range.
  - eexists; eexists; split; [reflexivity|].
    unfold sine. now rewrite length_map, length_range.
  - eexists; eexists; split; [reflexivity|].
    unfold multi_sine. now rewrite length_map, length_range.
  - eexists; eexists; split; [reflexivity|].
    unfold step. now rewrite length_map, length_range.
  - eexists; eexists; split; [reflexivity|].
    unfold square. now rewrite length_map, length_range.
  - rewrite noise_draws.
    pose proof (length_draws (Z.to_nat size) g) as Hlen.
    destruct (draws uniform (Z.to_nat size) g) as [xs g2].
    eexists; eexists; split; [reflexivity|exact Hlen].
  - eexists; eexists; split; [reflexivity|].
    unfold chirp. now rewrite length_map, length_range.
Qed.

Lemma generate_impulse (size : Z) (g : rng) :
  generate_test_signal cos sin uniform size "impulse" g = (impulse size, g).
Proof. reflexivity. Qed.

Lemma generate_unknown (size : Z) (t : string) (g : rng) :
  ~ In t signal_types ->
  generate_test_signal cos sin uniform size t g = (Raise ValueError, g).
Proof.
  intros Hnot. unfold generate_test_signal.
  repeat match goal with
         | |- context [String.eqb t ?name] =>
             destruct (String.eqb_spec t name) as [->|_];
             [exfalso; apply Hnot; unfold signal_types; cbn [In]; tauto|]
         end.
  reflexivity.
Qed.

(** With at least one sample wanted, every known type yields a signal
    that is not empty. *)
Lemma generate_positive (size : Z) (t : string) (g : rng) :
  1 <= size -> In t signal_types ->
  exists signal g',
    generate_test_signal cos sin uniform size t g = (Ok signal, g') /\
    List.length signal = Z.to_nat size.
Proof.
  intros Hsize Hin. destruct (String.eqb_spec t "impulse") as [->|Hne].
  - rewrite generate_impulse, (impulse_positive size Hsize).
    eexists; eexists; split; [reflexivity|].
    cbn [List.length]. rewrite repeat_length. lia.
  - now apply generate_known.
Qed.

(** *** The report *)

Lemma min_in (l : list float) (lo : float) : min l = Ok lo -> In lo l.
Proof.
  destruct l as [|x r]; [discriminate|]. cbn [min]. intros H.
  injection H as <-. revert x. induction r as [|y r IH]; intros x.
  - now left.
  - cbn [fold_left]. destruct (y <? x)%float.
    + right. apply IH.
    + destruct (IH x) as [H|H]; [now left|right; now right].
Qed.

Lemma max_in (l : list float) (hi : float) : Py.max l = Ok hi -> In hi l.
Proof.
  destruct l as [|x r]; [discriminate|]. cbn [Py.max]. intros H.
  injection H as <-. revert x. induction r as [|y r IH]; intros x.
  - now left.
  - cbn [fold_left]. destruct (x <? y)%float.
    + right. apply IH.
    + destruct (IH x) as [H|H]; [now left|right; now right].
Qed.

Lemma print_signal_info_nonempty (x : float) (r : list float) (t : string) :
  exists lo hi mean,
    min (x :: r) = Ok lo /\ Py.max (x :: r) = Ok hi /\
    print_signal_info fsum (x :: r) t
    = ([SignalType t; Length (S (List.length r)); MinValue lo; MaxValue hi;
        MeanValue mean; Blank], Ok tt).
Proof.
  eexists; eexists; eexists. split; [reflexivity|]. split; reflexivity.
Qed.

(** One turn of the loop of [main] on a signal that is not empty: eight
    lines, no exception. *)
Lemma report_block (signal : list float) (t : string) :
  signal <> [] ->
  exists out,
    (print_signal_info fsum signal t ;;-
     say (FirstSamples (Py.slice_to signal 8)) ;;-
     say Rule) = (out, Ok tt) /\
    List.length out = 8%nat.
Proof.
  destruct signal as [|x r]; [congruence|]. intros _.
  destruct (print_signal_info_nonempty x r t) as (lo & hi & mean & _ & _ & H).
  rewrite H. eexists. split; reflexivity.
Qed.

Lemma wbind_eval_ok {A B} (v : A) (k : A -> writer B) :
  wbind (eval (Ok v)) k = k v.
Proof. unfold wbind, eval. now destruct (k v). Qed.

Lemma report_all_positive (size : Z) (types : list string) :
  1 <= size ->
  Forall (fun t => In t signal_types) types ->
  forall g, exists out g',
    report_all cos sin fsum uniform size types g = (out, Ok tt, g') /\
    List.length out = (8 * List.length types)%nat.
Proof.
  intros Hsize. induction 1 as [|t rest Ht _ IH]; intros g.
  - exists [], g. split; reflexivity.
  - cbn [report_all].
    destruct (generate_positive size t g Hsize Ht) as (signal & g1 & Hgen & Hlen).
    rewrite Hgen.
    assert (Hne : signal <> []) by (intros ->; cbn in Hlen; lia).
    destruct (report_block signal t Hne) as (out & Hblock & Hout).
    rewrite wbind_eval_ok, Hblock.
    destruct (IH g1) as (out' & g2 & Hrest & Hout').
    rewrite Hrest. cbn [fst snd].
    exists (out ++ out')%list, g2. split; [reflexivity|].
    rewrite length_app, Hout, Hout'. cbn [List.length]. lia.
Qed.

End SignalFacts.

(** X17. [generate_test_signal] on a known type other than the impulse
    returns exactly [size] samples, none for a size of zero or less; the
    impulse does so for a size of one or more and raises [IndexError]
    for a size of zero or less; a type that is not one of the eight
    names raises [ValueError] whatever the size. *)
Theorem generated_signal_outcomes :
  forall (cos sin : float -> float) (rng : Type)
         (uniform : float -> float -> rng -> float * rng)
         (size : Z) (signal_type : string) (g : rng),
    let run := SignalGeneration.generate_test_signal
                 cos sin uniform size signal_type g in
    (In signal_type SignalGeneration.signal_types ->
     signal_type <> "impulse" \/ 1 <= size ->
     exists signal, fst run = Ok signal /\
                    List.length signal = Z.to_nat size) /\
    (signal_type = "impulse" -> size <= 0 -> fst run = Raise IndexError) /\
    (~ In signal_type SignalGeneration.signal_types ->
     run = (Raise ValueError, g)).
Proof.
  intros cos sin rng uniform size t g run. unfold run.
  split; [|split].
  - intros Hin [Hne|Hsize].
    + destruct (generate_known cos sin rng uniform size t g Hin Hne)
        as (signal & g' & -> & Hlen).
      now exists signal.
    + destruct (generate_positive cos sin rng uniform size t g Hsize Hin)
        as (signal & g' & -> & Hlen).
      now exists signal.
  - intros -> Hsize. rewrite generate_impulse. cbn [fst].
    now apply impulse_nonpositive.
  - apply generate_unknown.
Qed.

(** X18. The impulse of a size of one or more is a one followed by
    zeros; the step of any size is [size // 2] zeros followed by ones,
    so that an odd size has one more one than zeros. *)
Theorem impulse_and_step_shapes :
  forall size : Z,
    (1 <= size ->
     SignalGeneration.impulse size
     = Ok (1%float :: repeat 0%float (Z.to_nat (size - 1)))) /\
    SignalGeneration.step size
    = (repeat 0%float (Z.to_nat (size / 2))
       ++ repeat 1%float (Z.to_nat (size - size / 2)))%list.
Proof.
  intros size. split; [apply impulse_positive|].
  unfold SignalGeneration.step, SignalGeneration.range.
  destruct (Z.le_gt_cases size 0) as [Hle|Hpos].
  - replace (Z.to_nat size) with 0%nat by lia.
    assert (size / 2 <= 0) by (apply Z.div_le_upper_bound; lia).
    assert (size / 2 * 2 <= size)
      by (rewrite Z.mul_comm; apply Z.mul_div_le; lia).
    replace (Z.to_nat (size / 2)) with 0%nat by lia.
    assert (size - 1 <= 2 * (size / 2))
      by (pose proof (Z.mod_pos_bound size 2 ltac:(lia));
          pose proof (Z.div_mod size 2 ltac:(lia)); lia).
    replace (Z.to_nat (size - size / 2)) with 0%nat by lia.
    reflexivity.
  - assert (Hh : 0 <= size / 2 <= size).
    { split; [apply Z.div_pos; lia|].
      apply Z.div_le_upper_bound; lia. }
    replace (Z.to_nat size)
      with (Z.to_nat (size / 2) + Z.to_nat (size - size / 2))%nat by lia.
    rewrite seq_app, !map_app. f_equal.
    + rewrite <- (length_seq (Z.to_nat (size / 2)) 0) at 2.
      rewrite <- map_const with (l := seq 0 (Z.to_nat (size / 2))).
      rewrite map_map. apply map_ext_in. intros i Hi.
      apply in_seq in Hi.
      destruct (Z.ltb_spec (Z.of_nat i) (size / 2)); [reflexivity|lia].
    + rewrite <- (length_seq (Z.to_nat (size - size / 2))
                             (0 + Z.to_nat (size / 2))) at 2.
      rewrite <- map_const
        with (l := seq (0 + Z.to_nat (size / 2)) (Z.to_nat (size - size / 2))).
      rewrite map_map. apply map_ext_in. intros i Hi.
      apply in_seq in Hi.
      destruct (Z.ltb_spec (Z.of_nat i) (size / 2)); [lia|reflexivity].
Qed.

(** X19. Only the noise type touches the random generator: it draws
    [random.uniform(-1.0, 1.0)] once per sample, in the order of the
    samples, and leaves the generator in the state after the last draw;
    every other type, known or not, leaves the generator as it was. *)
Theorem only_noise_draws :
  forall (cos sin : float -> float) (rng : Type)
         (uniform : float -> float -> rng -> float * rng)
         (size : Z) (g : rng),
    SignalGeneration.generate_test_signal cos sin uniform size "noise" g
    = (Ok (fst (SignalGeneration.draws uniform (Z.to_nat size) g)),
       snd (SignalGeneration.draws uniform (Z.to_nat size) g)) /\
    (forall signal_type,
        signal_type <> "noise" ->
        snd (SignalGeneration.generate_test_signal
               cos sin uniform size signal_type g) = g).
Proof.
  intros cos sin rng uniform size g. split.
  - unfold SignalGeneration.generate_test_signal.
    cbn [String.eqb Ascii.eqb Bool.eqb].
    rewrite noise_draws.
    now destruct (SignalGeneration.draws uniform (Z.to_nat size) g).
  - intros t Hne. unfold SignalGeneration.generate_test_signal.
    repeat match goal with
           | |- context [String.eqb t ?name] =>
               destruct (String.eqb_spec t name) as [->|_];
               [try congruence; reflexivity|]
           end.
    reflexivity.
Qed.

(** X20. [print_signal_info] on an empty signal prints the type and the
    length and then raises the [ValueError] of [min()]; on a signal that
    is not empty it prints its six lines and returns, and the minimum
    and the maximum it prints are samples of the signal. *)
Theorem print_signal_info_outcomes :
  forall (fsum : list float -> float) (signal : list float)
         (signal_type : string),
    (signal = [] ->
     SignalGeneration.print_signal_info fsum signal signal_type
     = ([SignalGeneration.SignalType signal_type; SignalGeneration.Length 0],
        Raise ValueError)) /\
    (signal <> [] ->
     exists lo hi mean,
       In lo signal /\ In hi signal /\
       SignalGeneration.print_signal_info fsum signal signal_type
       = ([SignalGeneration.SignalType signal_type;
           SignalGeneration.Length (List.length signal);
           SignalGeneration.MinValue lo; SignalGeneration.MaxValue hi;
           SignalGeneration.MeanValue mean; SignalGeneration.Blank],
          Ok tt)).
Proof.
  intros fsum signal t. split.
  - intros ->. reflexivity.
  - destruct signal as [|x r]; [congruence|]. intros _.
    destruct (print_signal_info_nonempty fsum x r t)
      as (lo & hi & mean & Hlo & Hhi & H).
    exists lo, hi, mean. split; [|split].
    + now apply min_in.
    + now apply max_in.
    + exact H.
Qed.

(** X21. The loop of [main] over signal types never raises when the
    size is one or more and the types are known, and prints eight lines
    per type; so [main], with its size of 64 and its eight types, always
    returns, having printed 64 lines. With a size of zero or less the
    first type already raises: [IndexError] for the impulse and the
    [ValueError] of [min()] for every other known type. *)
Theorem signal_report_outcomes :
  forall (cos sin : float -> float) (fsum : list float -> float)
         (rng : Type) (uniform : float -> float -> rng -> float * rng),
    (forall size types g,
        1 <= size ->
        Forall (fun t => In t SignalGeneration.signal_types) types ->
        exists out g',
          SignalGeneration.report_all cos sin fsum uniform size types g
          = (out, Ok tt, g') /\
          List.length out = (8 * List.length types)%nat) /\
    (forall g,
        exists out g',
          SignalGeneration.main cos sin fsum uniform g = (out, Ok tt, g') /\
          List.length out = 64%nat) /\
    (forall size t rest g,
        size <= 0 ->
        In t SignalGeneration.signal_types ->
        exists out,
          fst (SignalGeneration.report_all cos sin fsum uniform size
                                           (t :: rest) g)
          = (out, Raise (if String.eqb t "impulse"
                         then IndexError else ValueError))).
Proof.
  intros cos sin fsum rng uniform. split; [|split].
  - intros size types g Hsize Htypes.
    now apply report_all_positive.
  - intros g. unfold SignalGeneration.main.
    destruct (report_all_positive cos sin fsum rng uniform 64
                SignalGeneration.signal_types ltac:(lia)
                ltac:(apply Forall_forall; auto) g)
      as (out & g' & H & Hlen).
    exists out, g'. split; [exact H|exact Hlen].
  - intros size t rest g Hsize Hin. cbn [SignalGeneration.report_all].
    destruct (String.eqb_spec t "impulse") as [->|Hne].
    + rewrite generate_impulse, (impulse_nonpositive size Hsize).
      eexists. reflexivity.
    + destruct (generate_known cos sin rng uniform size t g Hin Hne)
        as (signal & g' & -> & Hlen).
      replace (Z.to_nat size) with 0%nat in Hlen by lia.
      destruct signal; [|discriminate].
      eexists. reflexivity.
Qed.

(** * The first sample of a test signal *)

(** Rounding a positive integer gives a positive float. *)
Lemma binary_round_positive (k : positive) :
  finite_or_zero (binary_round prec emax false k 0) = true ->
  exists m e, binary_round prec emax false k 0 = S754_finite false m e.
Proof.
  unfold binary_round.
  set (E0 := fexp prec emax (Zpos (digits2_pos k) + 0)).
  destruct (shl_align_spec k 0 E0) as (He & Hm & Hd).
  destruct (shl_align k 0 E0) as [mz ez']. cbn [fst snd] in He, Hm, Hd.
  subst ez'.
  assert (HE0 : -1074 <= E0) by (unfold E0; rewrite fexp64; lia).
  assert (Hpre : Z.min 0 E0
                 <= fexp prec emax (Zdigits2 (Zpos mz / 1) + Z.min 0 E0)).
  { rewrite Z.div_1_r. cbn [Zdigits2]. rewrite Hd. fold E0.
    apply Z.le_min_r. }
  destruct (binary_round_aux_shape false (Zpos mz) 1 (Z.min 0 E0)
              (Pos2Z.is_nonneg mz) Z.lt_0_1 Hpre) as [HM Hshape].
  rewrite Z.div_1_r in HM, Hshape, Hpre. rewrite loc_of_1 in Hshape.
  rewrite Hshape.
  set (E := fexp prec emax (Zdigits2 (Z.pos mz) + Z.min 0 E0)) in *.
  set (M := rne (Z.pos mz) (2 ^ (E - Z.min 0 E0) * 1)) in *.
  assert (HMpos : 1 <= M).
  { destruct (digits2_bounds mz) as [Hlo _].
    assert (Hdig : 1 <= Zpos (digits2_pos mz)) by lia.
    assert (Hshift : 0 <= E - Z.min 0 E0 <= Zpos (digits2_pos mz) - 1).
    { split; [lia|]. unfold E. cbn [Zdigits2]. rewrite fexp64. lia. }
    assert (Hpow : 2 ^ (E - Z.min 0 E0) <= 2 ^ (Zpos (digits2_pos mz) - 1))
      by (apply Z.pow_le_mono_r; lia).
    pose proof (pow2_pos (E - Z.min 0 E0) ltac:(lia)) as Hp.
    destruct (rne_bounds (Zpos mz) (2 ^ (E - Z.min 0 E0) * 1)
                ltac:(lia) ltac:(lia)) as [Hrne _].
    fold M in Hrne.
    assert (1 <= Zpos mz / (2 ^ (E - Z.min 0 E0) * 1)).
    { apply Z.div_le_lower_bound; lia. }
    lia. }
  unfold pack_rounded.
  destruct (Z.eqb_spec M 0) as [|_]; [lia|].
  destruct (M <? 2 ^ 53).
  - destruct (E <=? 971); [|discriminate]. intros _. eauto.
  - destruct (E + 1 <=? 971); [|discriminate]. intros _. eauto.
Qed.

Lemma float_of_int_positive (n : Z) :
  0 < n < 9223372036854775808 ->
  exists m e,
    Prim2SF (SignalGeneration.float_of_int n) = S754_finite false m e.
Proof.
  intros Hn. unfold SignalGeneration.float_of_int.
  rewrite of_uint63_spec, Uint63.of_Z_spec.
  change Uint63.wB with 9223372036854775808.
  rewrite Z.mod_small by lia.
  destruct n as [|k|k]; try lia.
  change (binary_normalize prec emax (Zpos k) 0 false)
    with (binary_round prec emax false k 0).
  apply binary_round_positive.
  assert (Vf : valid_binary (S754_finite false 4503599627370496 11) = true)
    by reflexivity.
  assert (Hle : Zpos k * 2 ^ (0 + 1074)
                <= Zpos 4503599627370496 * 2 ^ (11 + 1074)).
  { replace (2 ^ (11 + 1074)) with (2 ^ 11 * 2 ^ (0 + 1074))
      by (rewrite <- Z.pow_add_r by lia; f_equal).
    pose proof (pow2_pos (0 + 1074) ltac:(lia)) as Hp.
    rewrite Z.mul_assoc. apply Z.mul_le_mono_nonneg_r; [lia|].
    change (2 ^ 11) with 2048. lia. }
  exact (proj1 (binary_round_bounded false k 0 4503599627370496 11
                  ltac:(lia) Vf Hle)).
Qed.

Lemma zero_div_positive (x : float) (m : positive) (e : Z) :
  Prim2SF x = S754_finite false m e -> (0 / x)%float = 0%float.
Proof.
  intros H. apply Prim2SF_inj. rewrite div_spec, H, Prim2SF_0. reflexivity.
Qed.

Lemma zero_mul_positive (x : float) (m : positive) (e : Z) :
  Prim2SF x = S754_finite false m e -> (0 * x)%float = 0%float.
Proof.
  intros H. apply Prim2SF_inj. rewrite mul_spec, H, Prim2SF_0. reflexivity.
Qed.

Lemma range_positive (size : Z) :
  1 <= size ->
  SignalGeneration.range size
  = 0 :: map Z.of_nat (seq 1 (Z.to_nat (size - 1))).
Proof.
  intros H. unfold SignalGeneration.range.
  replace (Z.to_nat size) with (S (Z.to_nat (size - 1))) by lia.
  reflexivity.
Qed.

(** The angle at index 0 is [+0.0] for each frequency in use. *)
Lemma angle_of_zero (frequency size : Z) :
  In frequency [1; 3; 5] ->
  0 < size < 9223372036854775808 ->
  SignalGeneration.angle_of frequency 0 size = 0%float.
Proof.
  intros Hf Hsize.
  destruct (float_of_int_positive size Hsize) as (m & e & Hx).
  unfold SignalGeneration.angle_of.
  destruct Hf as [<-|[<-|[<-|[]]]].
  - change (2 * pi * SignalGeneration.float_of_int 1
            * SignalGeneration.float_of_int 0)%float with 0%float.
    exact (zero_div_positive _ m e Hx).
  - change (2 * pi * SignalGeneration.float_of_int 3
            * SignalGeneration.float_of_int 0)%float with 0%float.
    exact (zero_div_positive _ m e Hx).
  - change (2 * pi * SignalGeneration.float_of_int 5
            * SignalGeneration.float_of_int 0)%float with 0%float.
    exact (zero_div_positive _ m e Hx).
Qed.

(** X22. For a size from 1 up to the longest list there can be, every
    signal built from an angle starts at the angle [+0.0] exactly: the
    cosine and the chirp start with [cos(0.0)], the sine with
    [sin(0.0)], the square wave with the sign of [sin(0.0)], and the sum
    of sines with the weighted sum of three times [sin(0.0)]. *)
Theorem signals_start_at_angle_zero :
  forall (cos sin : float -> float) (size : Z),
    0 < size < 9223372036854775808 ->
    hd_error (SignalGeneration.cosine cos size) = Some (cos 0%float) /\
    hd_error (SignalGeneration.sine sin size) = Some (sin 0%float) /\
    hd_error (SignalGeneration.multi_sine sin size)
    = Some (0 + 1 * sin 0 + 0.5 * sin 0 + 0.25 * sin 0)%float /\
    hd_error (SignalGeneration.square sin size)
    = Some (if (0 <=? sin 0)%float then 1%float else (-1)%float) /\
    hd_error (SignalGeneration.chirp cos size) = Some (cos 0%float).
Proof.
  intros cos sin size Hsize.
  pose proof (range_positive size ltac:(lia)) as Hrange.
  pose proof (angle_of_zero 1 size ltac:(cbn; tauto) Hsize) as H1.
  pose proof (angle_of_zero 3 size ltac:(cbn; tauto) Hsize) as H3.
  pose proof (angle_of_zero 5 size ltac:(cbn; tauto) Hsize) as H5.
  destruct (float_of_int_positive size Hsize) as (m & e & Hx).
  unfold SignalGeneration.cosine, SignalGeneration.sine,
    SignalGeneration.multi_sine, SignalGeneration.square,
    SignalGeneration.chirp.
  rewrite Hrange. cbn [map hd_error combine fold_left fst snd].
  rewrite H1, H3, H5.
  repeat split.
  f_equal. f_equal.
  change (SignalGeneration.float_of_int 0) with 0%float.
  rewrite (zero_div_positive _ m e Hx).
  change (2 * pi
          * (SignalGeneration.f_start
             + (SignalGeneration.f_end - SignalGeneration.f_start) * 0)
          * 0)%float with 0%float.
  exact (zero_mul_positive _ m e Hx).
Qed.

(** The size [main] uses, with stand-ins for the two functions. *)
Lemma signals_start_at_angle_zero_witness :
  let cos := fun _ : float => 1%float in
  let sin := fun _ : float => 0%float in
  hd_error (SignalGeneration.cosine cos 64) = Some (cos 0%float) /\
  hd_error (SignalGeneration.sine sin 64) = Some (sin 0%float) /\
  hd_error (SignalGeneration.multi_sine sin 64)
  = Some (0 + 1 * sin 0 + 0.5 * sin 0 + 0.25 * sin 0)%float /\
  hd_error (SignalGeneration.square sin 64)
  = Some (if (0 <=? sin 0)%float then 1%float else (-1)%float) /\
  hd_error (SignalGeneration.chirp cos 64) = Some (cos 0%float).
Proof.
  intros cos sin.
  apply (signals_start_at_angle_zero cos sin 64). lia.
Defined.
